(** * Image preprocessing and result ranking of the sketch and detector services

    A shallow embedding of
      - [utils.py]    (the normalisation pipeline and the stroke rasteriser),
      - [model.py]    ([SketchClassifier.predict] and [predict_batch], the
                      ranking of the model output),
      - [main.py]     ([PredictionRequest], the default of [top_k], the
                      prediction steps of the two endpoints, the request logs),
      - [view_logs.py] ([show_statistics], [list_recent_requests]),
      - [detector.py] ([YOLODetector]: the prefix stripping, [detect_objects],
                      [process_base64_image]),
      - [dual_detector.py] ([DualYOLODetector]),
      - [app/main.py] (the endpoint [POST /detect]),
    followed by the properties of these functions.

    Conventions of the embedding.
      - A numpy array is its shape together with its elements in row-major
        order ([ndarray]).  [float32] samples are rationals ([Q]): every
        arithmetic step of the source is taken exactly, without rounding.
        [uint8] samples are integers ([Z]) in [0, 255].
      - Python exceptions are values of [exn]; a function that may raise
        returns a [result].  The [try ... except Exception as e: raise
        ValueError(f"Failed ...: {e}")] blocks of [utils.py] are [try_except].
      - Pillow (opening, grey conversion, Lanczos resampling), the base64
        codec and the trained network are external: they are parameters
        ([Section] variables) of the functions that call them. *)

From Stdlib Require Import ZArith QArith Qround Lia Lqa String Ascii DecimalString.
From stdpp Require Import base option list sorting strings gmap.

Local Open Scope nat_scope.

(** ** Exceptions and results *)

Inductive stage : Type :=
| StageBytes      (* "Failed to process image: ..."        utils.py:47  *)
| StageBase64     (* "Failed to process base64 image: ..." utils.py:73  *)
| StageArray      (* "Failed to process image array: ..."  utils.py:127 *)
| StageStroke     (* "Failed to process stroke data: ..."  utils.py:178 *)
| StageDetector.  (* "Failed to decode base64 image: ..."  detector.py:66 *)

Inductive exn : Type :=
| CannotProcessShape (s : list nat) (* ValueError, utils.py:108 *)
| InputShapeError (s : list nat)    (* ValueError, model.py:82 *)
| IndexOutOfBounds                  (* IndexError: a[0] on an empty axis, names[i] past the end *)
| ZeroSizeReduction                 (* ValueError: max() of an empty array *)
| ReshapeError                      (* ValueError: reshape to another number of elements *)
| NegativeDimension                 (* ValueError: np.zeros with a negative size *)
| ZeroDivisionError                 (* i / 0 *)
| ImagingError                      (* any failure inside Pillow *)
| Base64Error                       (* binascii.Error *)
| Failed (st : stage) (cause : exn).  (* the re-raise of an except clause *)

Inductive result (A : Type) : Type :=
| Ok (a : A)
| Raise (e : exn).
Arguments Ok {A} a.
Arguments Raise {A} e.

#[global] Instance result_ret : MRet result := fun A a => Ok a.
#[global] Instance result_bind : MBind result := fun A B f r =>
  match r with
  | Ok a => f a
  | Raise e => Raise e
  end.
#[global] Instance result_fmap : FMap result := fun A B f r =>
  match r with
  | Ok a => Ok (f a)
  | Raise e => Raise e
  end.

(** [try: body except Exception as e: raise ValueError(f"Failed ...: {e}")] *)
Definition try_except {A} (st : stage) (body : result A) : result A :=
  match body with
  | Ok a => Ok a
  | Raise e => Raise (Failed st e)
  end.

(** A library call that either gives a value or raises [e]. *)
Definition or_raise {A} (e : exn) (o : option A) : result A :=
  match o with
  | Some a => Ok a
  | None => Raise e
  end.

(** The loop [for x in xs: acc = body(acc, x)], stopping at the first
    exception. *)
Fixpoint for_each {A S} (body : S -> A -> result S) (xs : list A) (acc : S)
  : result S :=
  match xs with
  | [] => Ok acc
  | x :: xs' =>
      match body acc x with
      | Ok acc' => for_each body xs' acc'
      | Raise e => Raise e
      end
  end.

(** [range(n)] for a Python integer [n]: empty when [n <= 0]. *)
Definition range (n : Z) : list Z := Z.of_nat <$> seq 0 (Z.to_nat n).

(** ** Arrays *)

Record ndarray (A : Type) : Type := NdArray {
  shape : list nat;
  data : list A
}.
Arguments NdArray {A} shape data.
Arguments shape {A} _.
Arguments data {A} _.

(** Number of elements of an array of the given shape. *)
Definition numel (s : list nat) : nat := foldr Nat.mul 1 s.

(** The elements fill the shape. *)
Definition well_shaped {A} (a : ndarray A) : Prop :=
  length (data a) = numel (shape a).

Definition shape_eqb (s t : list nat) : bool := bool_decide (s = t).

(** [np.zeros(shape, dtype=np.uint8)]. *)
Definition zeros (s : list nat) : ndarray Z := NdArray s (replicate (numel s) 0%Z).

(** [np.full(shape, v)]: used to write inputs down. *)
Definition full {A} (s : list nat) (v : A) : ndarray A :=
  NdArray s (replicate (numel s) v).

(** [a[0]]: the first entry along the first axis. *)
Definition getitem0 {A} (a : ndarray A) : result (ndarray A) :=
  match shape a with
  | [] => Raise IndexOutOfBounds
  | O :: _ => Raise IndexOutOfBounds
  | S _ :: rest => Ok (NdArray rest (take (numel rest) (data a)))
  end.

(** [a[:, :, k]] of a 3-dimensional array. *)
Definition channel (k : nat) (a : ndarray Q) : ndarray Q :=
  match shape a with
  | [h; w; c] =>
      NdArray [h; w] ((fun i => nth (i * c + k) (data a) 0%Q) <$> seq 0 (h * w))
  | _ => a
  end.

(** [s * a] and [a + b], element by element. *)
Definition scale (s : Q) (a : ndarray Q) : ndarray Q :=
  NdArray (shape a) (Qmult s <$> data a).
Definition add (a b : ndarray Q) : ndarray Q :=
  NdArray (shape a) (zip_with Qplus (data a) (data b)).

(** [a.squeeze(-1)] where the last axis has length 1. *)
Definition squeeze_last {A} (a : ndarray A) : ndarray A :=
  NdArray (removelast (shape a)) (data a).

(** [a.reshape(s)]. *)
Definition reshape {A} (s : list nat) (a : ndarray A) : result (ndarray A) :=
  if decide (numel s = length (data a)) then Ok (NdArray s (data a))
  else Raise ReshapeError.

(** [a / 255.0]. *)
Definition div255 (a : ndarray Q) : ndarray Q :=
  NdArray (shape a) ((fun v => v / 255)%Q <$> data a).

Definition Qlt_bool (x y : Q) : bool := negb (Qle_bool y x).

(** [a.max()]. *)
Definition amax (a : ndarray Q) : result Q :=
  match data a with
  | [] => Raise ZeroSizeReduction
  | v :: vs => Ok (foldl (fun m x => if Qlt_bool m x then x else m) v vs)
  end.

(** [int(q)] of a float: truncation towards zero. *)
Definition Qint (q : Q) : Z := Z.quot (Qnum q) (Zpos (Qden q)).

(** [a.astype(np.uint8)]: the fraction is dropped and the integer is
    reduced modulo 256. *)
Definition astype_uint8 (a : ndarray Q) : ndarray Z :=
  NdArray (shape a) ((fun v => Qint v mod 256)%Z <$> data a).

(** [np.array(image, dtype=np.float32)] of a grey image. *)
Definition to_float (a : ndarray Z) : ndarray Q :=
  NdArray (shape a) (inject_Z <$> data a).

Definition is_uint8 (v : Z) : Prop := (0 <= v <= 255)%Z.
Definition in_unit (v : Q) : Prop := (0 <= v /\ v <= 1)%Q.

(** The shape every preprocessing function reshapes to. *)
Definition model_shape : list nat := [1; 28; 28; 1].

(** ** The stroke rasteriser ([utils.py], lines 130-199) *)

Definition point : Type := (Q * Q)%type.

(** Default arguments of the source. *)
Definition default_num_points : Z := 10.
Definition default_canvas_size : Z := 256.

(** The body of the loop of [_interpolate_points] at index [i]:
    [t = i / num_points], [x = x1 + t * (x2 - x1)], [y = y1 + t * (y2 - y1)]. *)
Definition interpolate_at (x1 y1 x2 y2 : Q) (num_points i : Z) : result point :=
  if (num_points =? 0)%Z then Raise ZeroDivisionError
  else
    let t := (inject_Z i / inject_Z num_points)%Q in
    Ok (x1 + t * (x2 - x1), y1 + t * (y2 - y1))%Q.

Definition _interpolate_points (x1 y1 x2 y2 : Q) (num_points : Z)
  : result (list point) :=
  mapM (interpolate_at x1 y1 x2 y2 num_points) (range (num_points + 1)).

(** [a[r, c] = v] on a 2-dimensional array. *)
Definition setitem2 {A} (a : ndarray A) (r c : nat) (v : A) : result (ndarray A) :=
  match shape a with
  | [h; w] =>
      if decide (r < h /\ c < w)
      then Ok (NdArray (shape a) (<[r * w + c := v]> (data a)))
      else Raise IndexOutOfBounds
  | _ => Raise IndexOutOfBounds
  end.

(** [a[r, c]]. *)
Definition getitem2 {A} (a : ndarray A) (r c : nat) : option A :=
  match shape a with
  | [h; w] => if decide (r < h /\ c < w) then data a !! (r * w + c) else None
  | _ => None
  end.

(** [0 <= x < canvas_size and 0 <= y < canvas_size]. *)
Definition on_canvas (canvas_size : Z) (p : point) : bool :=
  Qle_bool 0 (fst p) && Qlt_bool (fst p) (inject_Z canvas_size)
  && Qle_bool 0 (snd p) && Qlt_bool (snd p) (inject_Z canvas_size).

(** The body of [for x, y in points]: lines 161-162. *)
Definition plot (canvas_size : Z) (canvas : ndarray Z) (p : point)
  : result (ndarray Z) :=
  if on_canvas canvas_size p
  then setitem2 canvas (Z.to_nat (Qint (snd p))) (Z.to_nat (Qint (fst p))) 255%Z
  else Ok canvas.

(** Lines 159-162 for one pair of consecutive points. *)
Definition draw_segment (canvas_size : Z) (canvas : ndarray Z) (p1 p2 : point)
  : result (ndarray Z) :=
  points ← _interpolate_points (fst p1) (snd p1) (fst p2) (snd p2) default_num_points;
  for_each (plot canvas_size) points canvas.

(** Lines 149-162 for one stroke. *)
Definition draw_stroke (canvas_size : Z) (canvas : ndarray Z) (stroke : list point)
  : result (ndarray Z) :=
  if decide (length stroke < 2) then Ok canvas
  else
    for_each
      (fun cv i =>
         match stroke !! i, stroke !! (i + 1) with
         | Some p1, Some p2 => draw_segment canvas_size cv p1 p2
         | _, _ => Raise IndexOutOfBounds
         end)
      (seq 0 (length stroke - 1)) canvas.

(** Lines 145-162: the canvas before it is resized and normalised. *)
Definition rasterize (strokes : list (list point)) (canvas_size : Z)
  : result (ndarray Z) :=
  if (canvas_size <? 0)%Z then Raise NegativeDimension
  else
    for_each (draw_stroke canvas_size) strokes
      (zeros [Z.to_nat canvas_size; Z.to_nat canvas_size]).

(** *** What the rasteriser is expected to mark *)

(** The point at parameter [t] on the segment from [p1] to [p2]. *)
Definition lerp (p1 p2 : point) (t : Q) : point :=
  (fst p1 + t * (fst p2 - fst p1), snd p1 + t * (snd p2 - snd p1))%Q.

(** The [num_points + 1] evenly spaced parameters [0, 1/n, ..., 1]. *)
Definition parameters (num_points : Z) : list Q :=
  (fun i => inject_Z i / inject_Z num_points)%Q <$> range (num_points + 1).

Definition segment_points (p1 p2 : point) : list point :=
  lerp p1 p2 <$> parameters default_num_points.

(** Consecutive pairs of a stroke. *)
Definition segments (stroke : list point) : list (point * point) :=
  zip stroke (tail stroke).

(** [p] lies on the canvas and falls in the cell of row [r], column [c]. *)
Definition lands (canvas_size : Z) (r c : nat) (p : point) : bool :=
  on_canvas canvas_size p
  && bool_decide (Z.to_nat (Qint (snd p)) = r)
  && bool_decide (Z.to_nat (Qint (fst p)) = c).

Definition segment_marks (canvas_size : Z) (r c : nat) (s : point * point) : bool :=
  existsb (lands canvas_size r c) (segment_points (fst s) (snd s)).

Definition stroke_marks (canvas_size : Z) (r c : nat) (stroke : list point) : bool :=
  bool_decide (2 <= length stroke)
  && existsb (segment_marks canvas_size r c) (segments stroke).

(** ** Strings ([str] methods used by the decoders) *)

(** [c in s]. *)
Fixpoint contains (c : ascii) (s : string) : bool :=
  match s with
  | EmptyString => false
  | String a s' => Ascii.eqb a c || contains c s'
  end.

(** [s.startswith(p)]. *)
Definition startswith (p s : string) : bool := String.prefix p s.

(** [s.split(c, 1)]: at most one split, at the first [c]. *)
Fixpoint split1 (c : ascii) (s : string) : list string :=
  match s with
  | EmptyString => [EmptyString]
  | String a s' =>
      if Ascii.eqb a c then [EmptyString; s']
      else
        match split1 c s' with
        | before :: rest => String a before :: rest
        | [] => [String a EmptyString]
        end
  end.

Definition comma : ascii := ","%char.

(** ** The normalisation pipeline ([utils.py], lines 14-127) and the
       detector's decoder ([detector.py], lines 36-66) *)

Section Pipeline.

(** [Image.open(io.BytesIO(b)).convert('L')], as the array of its samples;
    [None] when Pillow raises. *)
Variable open_gray : list Byte.byte -> option (ndarray Z).

(** [Image.open(io.BytesIO(b))] converted to RGB when its mode is another
    one, as an array of shape [(height, width, 3)]. *)
Variable open_rgb : list Byte.byte -> option (ndarray Z).

(** [Image.fromarray(a).resize((28, 28), Image.Resampling.LANCZOS)] for a
    [uint8] array [a], and [image.resize(...)] for a grey image. *)
Variable resize28 : ndarray Z -> option (ndarray Z).

(** [base64.b64decode]. *)
Variable b64decode : string -> option (list Byte.byte).

Definition preprocess_image_from_bytes (image_bytes : list Byte.byte)
  : result (ndarray Q) :=
  try_except StageBytes (
    image ← or_raise ImagingError (open_gray image_bytes);
    image ← or_raise ImagingError (resize28 image);
    let image_array := to_float image in
    let image_array := div255 image_array in
    reshape model_shape image_array).

(** Lines 62-63: the string handed to [b64decode]. *)
Definition strip_data_uri (base64_string : string) : result string :=
  if contains comma base64_string && startswith "data:" base64_string
  then or_raise IndexOutOfBounds (split1 comma base64_string !! 1)
  else Ok base64_string.

Definition preprocess_image_from_base64 (base64_string : string)
  : result (ndarray Q) :=
  try_except StageBase64 (
    base64_string ← strip_data_uri base64_string;
    image_bytes ← or_raise Base64Error (b64decode base64_string);
    preprocess_image_from_bytes image_bytes).

(** Lines 92-94: the first image of a batch. *)
Definition take_first_image (a : ndarray Q) : result (ndarray Q) :=
  if decide (length (shape a) = 4) then getitem0 a else Ok a.

(** Lines 100-102: [0.299 * a[:,:,0] + 0.587 * a[:,:,1] + 0.114 * a[:,:,2]]. *)
Definition rgb_to_gray (a : ndarray Q) : ndarray Q :=
  add (add (scale (299 # 1000) (channel 0 a)) (scale (587 # 1000) (channel 1 a)))
      (scale (114 # 1000) (channel 2 a)).

(** Lines 96-104. *)
Definition reduce_channels (a : ndarray Q) : ndarray Q :=
  if decide (length (shape a) = 3) then
    if decide (shape a !! 2 = Some 3) then rgb_to_gray a
    else if decide (shape a !! 2 = Some 1) then squeeze_last a
    else a
  else a.

(** Lines 107-108. *)
Definition check_2d (a : ndarray Q) : result (ndarray Q) :=
  if decide (length (shape a) ≠ 2) then Raise (CannotProcessShape (shape a))
  else Ok a.

(** Lines 111-114. *)
Definition resize_if_needed (a : ndarray Q) : result (ndarray Q) :=
  if decide (shape a ≠ [28; 28]) then
    image_pil ← or_raise ImagingError (resize28 (astype_uint8 a));
    Ok (to_float image_pil)
  else Ok a.

(** Lines 117-118. *)
Definition normalize_if_needed (a : ndarray Q) : result (ndarray Q) :=
  m ← amax a;
  Ok (if Qlt_bool 1 m then div255 a else a).

(** [image_array.astype(np.float32)] of line 89 changes nothing here: the
    samples are rationals already. *)
Definition preprocess_image_from_array (image_array : ndarray Q)
  : result (ndarray Q) :=
  try_except StageArray (
    image_array ← take_first_image image_array;
    image_array ← check_2d (reduce_channels image_array);
    image_array ← resize_if_needed image_array;
    image_array ← normalize_if_needed image_array;
    reshape model_shape image_array).

Definition preprocess_stroke_data (strokes : list (list point)) (canvas_size : Z)
  : result (ndarray Q) :=
  try_except StageStroke (
    canvas ← rasterize strokes canvas_size;
    image ← or_raise ImagingError (resize28 canvas);
    let image_array := div255 (to_float image) in
    reshape model_shape image_array).

(** Lines 48-49 of [detector.py]. *)
Definition detector_strip (base64_string : string) : result string :=
  if contains comma base64_string
  then or_raise IndexOutOfBounds (split1 comma base64_string !! 1)
  else Ok base64_string.

(** [YOLODetector.decode_base64_image]: the image with its width and height. *)
Definition decode_base64_image (base64_string : string)
  : result (ndarray Z * nat * nat) :=
  try_except StageDetector (
    base64_string ← detector_strip base64_string;
    image_bytes ← or_raise Base64Error (b64decode base64_string);
    image ← or_raise ImagingError (open_rgb image_bytes);
    match shape image with
    | [height; width; _] => Ok (image, width, height)
    | _ => Raise ImagingError
    end).

End Pipeline.

(** ** Result ranking ([model.py], lines 14-101; [main.py], lines 64-67) *)

(** [self.class_names]. *)
Definition class_names : list string :=
  [ "cat"; "dog"; "bird"; "fish"; "bear"; "butterfly"; "bee"; "spider";
    "house"; "castle"; "barn"; "bridge"; "lighthouse"; "church";
    "car"; "airplane"; "bicycle"; "boat"; "train"; "truck"; "bus";
    "tree"; "flower"; "sun"; "moon"; "cloud"; "mountain"; "river";
    "apple"; "banana"; "book"; "chair"; "table"; "cup"; "umbrella";
    "face"; "eye"; "hand"; "foot";
    "circle"; "triangle"; "square"; "star"; "heart";
    "sword"; "axe"; "hammer"; "key"; "crown" ]%string.

(** One entry of the list [predict] returns. *)
Record prediction : Type := Prediction {
  class : string;
  confidence : Q;
  confidence_percent : string
}.

(** Rounding to the nearest integer, halves to the even neighbour. *)
Definition round_half_even (q : Q) : Z :=
  let f := Qfloor q in
  let r := (q - inject_Z f)%Q in
  if Qlt_bool r (1 # 2) then f
  else if Qlt_bool (1 # 2) r then (f + 1)%Z
  else if Z.even f then f else (f + 1)%Z.

Definition digits (n : Z) : string := NilZero.string_of_uint (N.to_uint (Z.to_N n)).

(** [f"{v:.2f}"]. *)
Definition format_2f (v : Q) : string :=
  let n := Z.abs (round_half_even (v * 100)) in
  let whole := digits (n / 100) in
  let cents := digits (n mod 100) in
  ((if Qlt_bool v 0 then "-" else "") ++ whole ++ "."
   ++ (if (n mod 100 <? 10)%Z then "0" else "") ++ cents)%string.

(** [f"{p * 100:.2f}%"]. *)
Definition format_percent (p : Q) : string :=
  (format_2f (p * 100) ++ "%")%string.

(** [np.argsort(v)]: the indices of [v] in ascending order of value.  numpy
    promises no order among equal values for its default sort kind; this is
    insertion sort, which numpy itself runs on short arrays and which keeps
    equal values in index order. *)
Fixpoint insert_index (v : list Q) (i : nat) (sorted : list nat) : list nat :=
  match sorted with
  | [] => [i]
  | j :: rest =>
      if Qle_bool (nth j v 0%Q) (nth i v 0%Q) then j :: insert_index v i rest
      else i :: j :: rest
  end.

Definition argsort (v : list Q) : list nat :=
  foldl (fun sorted i => insert_index v i sorted) [] (seq 0 (length v)).

(** [l[:k]] for a Python integer [k], or [l[:None]]. *)
Definition slice_to {A} (k : option Z) (l : list A) : list A :=
  match k with
  | None => l
  | Some k =>
      if (0 <=? k)%Z then take (Z.to_nat k) l
      else take (Z.to_nat (Z.of_nat (length l) + k)) l
  end.

(** Line 91: [np.argsort(predictions[0])[::-1][:top_k]]. *)
Definition top_indices (probabilities : list Q) (top_k : option Z) : list nat :=
  slice_to top_k (reverse (argsort probabilities)).

(** Lines 95-99: the entry appended for index [idx]. *)
Definition entry (probabilities : list Q) (idx : nat) : result prediction :=
  name ← or_raise IndexOutOfBounds (class_names !! idx);
  p ← or_raise IndexOutOfBounds (probabilities !! idx);
  Ok (Prediction name p (format_percent p)).

(** Lines 90-101: the ranking of one probability vector. *)
Definition rank (probabilities : list Q) (top_k : option Z)
  : result (list prediction) :=
  mapM (entry probabilities) (top_indices probabilities top_k).

(** The default of [top_k] in [predict], in [predict_from_file] and in
    [PredictionRequest]. *)
Definition default_top_k : option Z := Some 3%Z.

(** The body of a request to [/predict/base64]. *)
Record PredictionRequest : Type := {
  image_base64 : string;
  top_k : option Z
}.

(** A request that leaves [top_k] out. *)
Definition PredictionRequest_of (image : string) : PredictionRequest :=
  {| image_base64 := image; top_k := default_top_k |}.

Section Classifier.

(** [self.model.predict(image, verbose=0)[0]]: the network. *)
Variable model : ndarray Q -> list Q.

(** [SketchClassifier.predict]. *)
Definition predict (image : ndarray Q) (top_k : option Z)
  : result (list prediction) :=
  if decide (shape image ≠ model_shape) then Raise (InputShapeError (shape image))
  else rank (model image) top_k.

(** [predict(image)], with [top_k] left out. *)
Definition predict_default (image : ndarray Q) : result (list prediction) :=
  predict image default_top_k.

End Classifier.

(** ** Predicates used to state the properties *)

(** A square canvas of side [n] holding all of its cells. *)
Definition canvas_ok (n : nat) (cv : ndarray Z) : Prop :=
  shape cv = [n; n] /\ length (data cv) = n * n.



(** The probability at index [i]. *)
Definition value (v : list Q) (i : nat) : Q := nth i v 0%Q.

(** The order [argsort] leaves its indices in: ascending value, and
    ascending index among equal values. *)
Definition ascends (v : list Q) (a b : nat) : Prop :=
  (value v a < value v b)%Q \/ ((value v a == value v b)%Q /\ a < b).

(** Index [a] is ranked ahead of index [b]: greater value, or the same
    value and the greater index. *)
Definition ranks_before (v : list Q) (a b : nat) : Prop := ascends v b a.

(** The entry [predict] builds for index [idx]. *)
Definition entry_of (v : list Q) (idx : nat) : prediction :=
  Prediction (nth idx class_names ""%string) (value v idx)
    (format_percent (value v idx)).

(** The number of entries [l[:k]] keeps. *)
Definition slice_length (k : option Z) (n : nat) : nat :=
  match k with
  | None => n
  | Some k =>
      if (0 <=? k)%Z then min (Z.to_nat k) n else Z.to_nat (Z.of_nat n + k)
  end.

(** ** What the callers rely on from Pillow *)

(** A grey image: rows of [uint8] samples, at least one pixel. *)
Definition gray_image (a : ndarray Z) : Prop :=
  exists h w, shape a = [h; w] /\ 0 < h /\ 0 < w /\ Forall is_uint8 (data a).

(** An opened image is a grey image. *)
Definition decoder_contract (open_gray : list Byte.byte -> option (ndarray Z)) : Prop :=
  forall image_bytes image, open_gray image_bytes = Some image -> gray_image image.

(** A resized image has 28 rows of 28 [uint8] samples, and an image with at
    least one pixel can be resized. *)
Definition resampler_contract (resize28 : ndarray Z -> option (ndarray Z)) : Prop :=
  (forall a out, resize28 a = Some out ->
     shape out = [28; 28] /\ length (data out) = 784 /\ Forall is_uint8 (data out))
  /\ (forall a h w, shape a = [h; w] -> 0 < h -> 0 < w -> is_Some (resize28 a)).

(** The array can be reduced to 2 dimensions: it has 2 dimensions, or 3 with
    1 or 3 channels, or it is a batch with a first image of that kind. *)
Definition reducible_to_2d (s : list nat) : bool :=
  match s with
  | [_; _] => true
  | [_; _; c] => (c =? 1) || (c =? 3)
  | [b; _; _; c] => (0 <? b) && ((c =? 1) || (c =? 3))
  | _ => false
  end.

(** An array input with an image in it. *)
Definition valid_array (a : ndarray Q) : Prop :=
  well_shaped a /\ reducible_to_2d (shape a) = true
  /\ Forall (fun d => 0 < d) (shape a).

(** The failures of the array normaliser that its input's shape causes:
    the explicit check of line 108, and the index error of line 94 on a
    batch with no image. *)
Definition is_shape_error (e : exn) : bool :=
  match e with
  | Failed StageArray (CannotProcessShape _) => true
  | Failed StageArray IndexOutOfBounds => true
  | _ => false
  end.

(** *** Stand-ins for Pillow, to run the pipeline on examples *)

(** Nearest-neighbour resampling to 28 x 28, samples clipped to [uint8]. *)
Definition resize_nearest (a : ndarray Z) : option (ndarray Z) :=
  match shape a with
  | [h; w] =>
      if decide (0 < h /\ 0 < w) then
        Some (NdArray [28; 28]
                ((fun i =>
                    Z.max 0 (Z.min 255
                      (nth ((i / 28 * h / 28) * w + (i mod 28) * w / 28) (data a) 0%Z)))
                 <$> seq 0 784))
      else None
  | _ => None
  end.

(** A headerless format: every byte is one sample of a one-row image. *)
Definition open_raw (image_bytes : list Byte.byte) : option (ndarray Z) :=
  match image_bytes with
  | [] => None
  | _ => Some (NdArray [1; length image_bytes]
                 ((fun b => Z.of_N (Byte.to_N b)) <$> image_bytes))
  end.

(** Lines 110-121, after the check of line 107. *)
Definition after_check (resize28 : ndarray Z -> option (ndarray Z)) (a : ndarray Q)
  : result (ndarray Q) :=
  a ← resize_if_needed resize28 a;
  a ← normalize_if_needed a;
  reshape model_shape a.



(** [s] is [prefix], a comma, and [payload], and that comma is the first
    one of [s]. *)
Definition first_comma_split (s prefix payload : string) : Prop :=
  s = (prefix ++ String comma payload)%string /\ contains comma prefix = false.

(** What a decoder does to a string that meets its condition [strips], and
    to one that does not. *)
Definition strips_when (strips : bool) (s : string) (stripped : result string) : Prop :=
  if strips
  then exists prefix payload, first_comma_split s prefix payload /\ stripped = Ok payload
  else stripped = Ok s.

(** A sample on the scale of an 8-bit image. *)
Definition in_byte_range (v : Q) : Prop := (0 <= v /\ v <= 255)%Q.

(** ** Further predicates on the canvas *)

(** The number of cells of the canvas that hold 255. *)
Definition lit_cells (cv : ndarray Z) : nat :=
  length (filter (fun v => v = 255%Z) (data cv)).

(** The number of segments the rasteriser draws for a drawing. *)
Definition segment_count (strokes : list (list point)) : nat :=
  sum_list ((fun stroke => length stroke - 1) <$> strokes).


(** ** Batch prediction ([model.py], lines 103-132) *)

Section BatchClassifier.

(** [self.model.predict(images, verbose=0)]: one probability vector for
    each image of the batch. *)
Variable model_predict : ndarray Q -> list (list Q).

(** [SketchClassifier.predict_batch]: the ranking of lines 120-128, which
    is that of [predict], for every row. *)
Definition predict_batch (images : ndarray Q) (top_k : option Z)
  : result (list (list prediction)) :=
  mapM (fun pred => rank pred top_k) (model_predict images).

End BatchClassifier.

(** ** The object detector ([detector.py], lines 68-135; [dual_detector.py];
       [app/main.py], lines 105-152) *)

(** The loop [for x in xs: acc = body(acc, x)] for exceptions of any type. *)
Fixpoint for_each_or {E A S} (body : S -> A -> E + S) (xs : list A) (acc : S)
  : E + S :=
  match xs with
  | [] => inr acc
  | x :: xs' =>
      match body acc x with
      | inr acc' => for_each_or body xs' acc'
      | inl e => inl e
      end
  end.

(** [round(q, 2)]. *)
Definition round2 (q : Q) : Q := (inject_Z (round_half_even (q * 100)) / 100)%Q.

Module Detector.

(** One box of a YOLO result: [box.xyxy[0]], [box.conf[0]], [box.cls[0]]. *)
Record box : Type := Box {
  xyxy : Q * Q * Q * Q;
  conf : Q;
  cls : Q
}.

(** One entry of the list [detect_objects] returns. *)
Record detection : Type := Detection {
  class : string;
  confidence : Q;
  x1 : Z;
  y1 : Z;
  x2 : Z;
  y2 : Z
}.

(** What [process_base64_image] returns. *)
Record response : Type := Response {
  detections : list detection;
  image_width : nat;
  image_height : nat
}.

(** What can go wrong inside [detect_objects]: the network raises, or
    [names[class_id]] raises [KeyError]. *)
Inductive detection_error : Type :=
| ModelError
| KeyError (class_id : Z).

(** The exceptions that leave the methods of [YOLODetector]. *)
Inductive raised : Type :=
| ValueError (e : exn)                 (* detector.py:66 *)
| RuntimeError (c : detection_error).  (* detector.py:113 *)

Section YOLODetector.

Variable open_rgb : list Byte.byte -> option (ndarray Z).
Variable b64decode : string -> option (list Byte.byte).

(** [self.model(image, conf=..., verbose=False)]: for each result its
    boxes; [None] when the network raises. *)
Variable model : ndarray Z -> Q -> option (list (list box)).

(** [self.model.names]. *)
Variable names : gmap Z string.

(** [self.confidence_threshold]. *)
Variable confidence_threshold : Q.

(** Lines 89-106: the body of [for box in boxes]. *)
Definition add_detection (detections : list detection) (b : box)
  : detection_error + list detection :=
  let '(bx1, by1, bx2, by2) := xyxy b in
  let confidence := conf b in
  let class_id := Qint (cls b) in
  match names !! class_id with
  | None => inl (KeyError class_id)
  | Some class_name =>
      inr (detections
           ++ [Detection class_name (round2 confidence)
                 (Qint bx1) (Qint by1) (Qint bx2) (Qint by2)])
  end.

(** [YOLODetector.detect_objects]. *)
Definition detect_objects (image : ndarray Z) : raised + list detection :=
  match
    match model image confidence_threshold with
    | None => inl ModelError
    | Some results =>
        for_each_or (fun detections boxes => for_each_or add_detection boxes detections)
          results []
    end
  with
  | inr detections => inr detections
  | inl e => inl (RuntimeError e)
  end.

(** [YOLODetector.process_base64_image]. *)
Definition process_base64_image (base64_string : string) : raised + response :=
  match decode_base64_image open_rgb b64decode base64_string with
  | Raise e => inl (ValueError e)
  | Ok (image, width, height) =>
      match detect_objects image with
      | inl e => inl e
      | inr detections => inr (Response detections width height)
      end
  end.

End YOLODetector.

(** The [detail] of an [HTTPException] of the endpoint. *)
Inductive detail : Type :=
| NotInitialized                       (* "YOLO detector not initialized" *)
| InvalidImageData (e : exn)           (* "Invalid image data: ..." *)
| DetectionFailed (c : detection_error).  (* "Detection failed: ..." *)

(** The answer of [POST /detect]. *)
Inductive http : Type :=
| Returned (r : response)
| HTTPException (status_code : Z) (d : detail).

(** The endpoint [detect_objects] of [app/main.py], with the global
    [detector] a [YOLODetector] or [None]. Both exceptions of a
    [YOLODetector] are caught by the first two [except] clauses. *)
Definition detect_endpoint (detector : option (string -> raised + response))
  (image_base64 : string) : http :=
  match detector with
  | None => HTTPException 503 NotInitialized
  | Some process =>
      match process image_base64 with
      | inr result => Returned result
      | inl (ValueError e) => HTTPException 400 (InvalidImageData e)
      | inl (RuntimeError c) => HTTPException 500 (DetectionFailed c)
      end
  end.

End Detector.

Module Dual.

(** The exceptions of [DualYOLODetector]: nothing is caught, so they are
    those of the codec, of Pillow, of the networks and of [names[cls]]. *)
Inductive raised : Type :=
| Base64Failure
| ImageFailure
| CocoModelFailure
| CustomModelFailure
| KeyError (class_id : Z).

Section DualYOLODetector.

Variable open_rgb : list Byte.byte -> option (ndarray Z).
Variable b64decode : string -> option (list Byte.byte).
Variable coco_model custom_model : ndarray Z -> Q -> option (list (list Detector.box)).
Variable coco_names custom_names : gmap Z string.
Variable confidence : Q.

(** [DualYOLODetector.decode_base64_image]. *)
Definition decode_base64_image (base64_string : string) : raised + ndarray Z :=
  match b64decode base64_string with
  | None => inl Base64Failure
  | Some image_data =>
      match open_rgb image_data with
      | None => inl ImageFailure
      | Some image => inr image
      end
  end.

(** Lines 50-62 and 69-81: the body of [for box in boxes]. *)
Definition add_detection (names : gmap Z string)
  (detections : list Detector.detection) (b : Detector.box)
  : raised + list Detector.detection :=
  let '(bx1, by1, bx2, by2) := Detector.xyxy b in
  let conf := Detector.conf b in
  let cls := Qint (Detector.cls b) in
  match names !! cls with
  | None => inl (KeyError cls)
  | Some class_name =>
      inr (detections
           ++ [Detector.Detection class_name conf
                 (Qint bx1) (Qint by1) (Qint bx2) (Qint by2)])
  end.

(** [DualYOLODetector.detect_objects]. *)
Definition detect_objects (image : ndarray Z) : raised + list Detector.detection :=
  match coco_model image confidence with
  | None => inl CocoModelFailure
  | Some coco_results =>
      match
        for_each_or
          (fun detections boxes => for_each_or (add_detection coco_names) boxes detections)
          coco_results []
      with
      | inl e => inl e
      | inr detections =>
          match custom_model image confidence with
          | None => inl CustomModelFailure
          | Some custom_results =>
              for_each_or
                (fun detections boxes =>
                   for_each_or (add_detection custom_names) boxes detections)
                custom_results detections
          end
      end
  end.

(** [DualYOLODetector.process_base64_image]; [image.width] and
    [image.height] are read off the array of the image. *)
Definition process_base64_image (base64_string : string)
  : raised + Detector.response :=
  match decode_base64_image base64_string with
  | inl e => inl e
  | inr image =>
      match detect_objects image with
      | inl e => inl e
      | inr detections =>
          match shape image with
          | [height; width; _] => inr (Detector.Response detections width height)
          | _ => inl ImageFailure
          end
      end
  end.

End DualYOLODetector.

End Dual.

(** *** Predicates on detections *)

(** The class id [detect_objects] reads off a box. *)
Definition class_id (b : Detector.box) : Z := Qint (Detector.cls b).

(** The class of the box has a name. *)
Definition named (names : gmap Z string) (b : Detector.box) : Prop :=
  is_Some (names !! class_id b).

(** [z] is [x] with its fraction dropped: towards zero, less than one away. *)
Definition truncates (x : Q) (z : Z) : Prop :=
  ((0 <= x)%Q -> (inject_Z z <= x /\ x < inject_Z z + 1)%Q)
  /\ ((x <= 0)%Q -> (inject_Z z - 1 < x /\ x <= inject_Z z)%Q).

(** [d] is what the detectors report for box [b], up to the confidence. *)
Definition located (names : gmap Z string) (b : Detector.box) (d : Detector.detection)
  : Prop :=
  names !! class_id b = Some (Detector.class d)
  /\ truncates (Detector.xyxy b).1.1.1 (Detector.x1 d)
  /\ truncates (Detector.xyxy b).1.1.2 (Detector.y1 d)
  /\ truncates (Detector.xyxy b).1.2 (Detector.x2 d)
  /\ truncates (Detector.xyxy b).2 (Detector.y2 d).

(** [c] rounded to hundredths. *)
Definition hundredths (c r : Q) : Prop :=
  (c - (1 # 200) <= r /\ r <= c + (1 # 200))%Q
  /\ (exists n : Z, r = (inject_Z n / 100)%Q)
  /\ ((0 <= c /\ c <= 1)%Q -> (0 <= r /\ r <= 1)%Q).

(** What [YOLODetector] reports for a box whose class has a name. *)
Definition report (names : gmap Z string) (b : Detector.box) : Detector.detection :=
  Detector.Detection (default ""%string (names !! class_id b))
    (round2 (Detector.conf b))
    (Qint (Detector.xyxy b).1.1.1) (Qint (Detector.xyxy b).1.1.2)
    (Qint (Detector.xyxy b).1.2) (Qint (Detector.xyxy b).2).

(** What [DualYOLODetector] reports for it: the confidence as it is. *)
Definition report_unrounded (names : gmap Z string) (b : Detector.box)
  : Detector.detection :=
  Detector.Detection (default ""%string (names !! class_id b))
    (Detector.conf b)
    (Qint (Detector.xyxy b).1.1.1) (Qint (Detector.xyxy b).1.1.2)
    (Qint (Detector.xyxy b).1.2) (Qint (Detector.xyxy b).2).

(** A detection with its confidence rounded as [YOLODetector] rounds it. *)
Definition rounded (d : Detector.detection) : Detector.detection :=
  Detector.Detection (Detector.class d) (round2 (Detector.confidence d))
    (Detector.x1 d) (Detector.y1 d) (Detector.x2 d) (Detector.y2 d).

(** What the endpoint does with the outcome of the single decoder. *)
Definition wrapped (r : Dual.raised + ndarray Z) : result (ndarray Z * nat * nat) :=
  match r with
  | inr image =>
      match shape image with
      | [height; width; _] => Ok (image, width, height)
      | _ => Raise (Failed StageDetector ImagingError)
      end
  | inl Dual.Base64Failure => Raise (Failed StageDetector Base64Error)
  | inl _ => Raise (Failed StageDetector ImagingError)
  end.

(** *** Stand-ins for Pillow and the networks, to run the detectors on examples *)

(** A headerless format: every byte is one grey pixel of a one-row image,
    converted to RGB. *)
Definition open_raw_rgb (image_bytes : list Byte.byte) : option (ndarray Z) :=
  match image_bytes with
  | [] => None
  | _ => Some (NdArray [1; length image_bytes; 3]
                 (concat ((fun b => replicate 3 (Z.of_N (Byte.to_N b))) <$> image_bytes)))
  end.

(** A network that finds the same boxes in every image. *)
Definition fixed_results (results : list (list Detector.box))
  : ndarray Z -> Q -> option (list (list Detector.box)) :=
  fun _ _ => Some results.

Definition sample_names : gmap Z string :=
  <[0%Z := "person"%string]> (<[56%Z := "chair"%string]> ∅).

Definition sample_custom_names : gmap Z string := <[0%Z := "lamp"%string]> ∅.

Definition sample_results : list (list Detector.box) :=
  [[Detector.Box ((-37 # 10), (202 # 10), (1109 # 10), (2205 # 10))%Q (876 # 1000) 0;
    Detector.Box (5, 6, (155 # 2), 80)%Q (125 # 1000) 56]].

Definition sample_custom_results : list (list Detector.box) :=
  [[Detector.Box (1, 2, 3, 4)%Q (999 # 1000) 0]].

(** ** The endpoints of the sketch service ([main.py], lines 169-174 and
       247-252) *)

Section Endpoints.

Variable open_gray : list Byte.byte -> option (ndarray Z).
Variable resize28 : ndarray Z -> option (ndarray Z).
Variable b64decode : string -> option (list Byte.byte).
Variable model : ndarray Q -> list Q.

(** The value of [predictions] in [predict_from_file] (lines 169 and 174):
    the upload is preprocessed and classified. The copy of the upload saved
    before and the log lines are left out. *)
Definition predictions_from_file (image_bytes : list Byte.byte) (top_k : Z)
  : result (list prediction) :=
  processed_image ← preprocess_image_from_bytes open_gray resize28 image_bytes;
  predict model processed_image (Some top_k).

(** The value of [predictions] in [predict_from_base64] (lines 247 and
    252). *)
Definition predictions_from_base64 (request : PredictionRequest)
  : result (list prediction) :=
  processed_image ←
    preprocess_image_from_base64 open_gray resize28 b64decode (image_base64 request);
  predict model processed_image (top_k request).

End Endpoints.

(** ** The request logs ([main.py], lines 260-273 and 294-302) and their
       statistics ([view_logs.py], lines 122-148) *)

(** [s.endswith(suffix)]: some tail of [s] is [suffix]. *)
Fixpoint endswith (suffix s : string) : bool :=
  String.eqb s suffix
  || match s with
     | EmptyString => false
     | String _ s' => endswith suffix s'
     end.

Module Logs.

(** A value of a log, as [json.dump] writes it and [json.load] reads it
    back: the service writes strings, numbers, booleans, [None] and the
    list of predictions. *)
Inductive field : Type :=
| Null
| Flag (b : bool)
| Number (q : Q)
| Text (s : string)
| Predictions (results : list prediction).

(** The object of one log file. *)
Definition log : Type := gmap string field.

Definition of_option {A} (f : A -> field) (o : option A) : field :=
  match o with
  | Some a => f a
  | None => Null
  end.

(** [request_log] of [predict_from_base64], lines 260-271. *)
Definition request_log (request_id timestamp client_ip : string) (client_port : Z)
  (user_agent : string) (base64_length : nat) (image_file : option string)
  (top_k : option Z) (predictions : list prediction) : log :=
  list_to_map
    [ ("request_id", Text request_id);
      ("timestamp", Text timestamp);
      ("client_ip", Text client_ip);
      ("client_port", Number (inject_Z client_port));
      ("user_agent", Text user_agent);
      ("base64_length", Number (inject_Z (Z.of_nat base64_length)));
      ("image_file", of_option Text image_file);
      ("top_k", of_option (fun k => Number (inject_Z k)) top_k);
      ("predictions", Predictions predictions);
      ("success", Flag true) ]%string.

(** [error_log] of [predict_from_base64], lines 294-301. *)
Definition error_log (request_id timestamp error error_type : string)
  (base64_length : nat) : log :=
  list_to_map
    [ ("request_id", Text request_id);
      ("timestamp", Text timestamp);
      ("error", Text error);
      ("error_type", Text error_type);
      ("base64_length", Number (inject_Z (Z.of_nat base64_length)));
      ("success", Flag false) ]%string.

(** The names of the two files inside [LOG_DIR], lines 273 and 302. *)
Definition json_log_file (request_id : string) : string :=
  ("request_" ++ request_id ++ ".json")%string.

Definition error_log_file (request_id : string) : string :=
  ("request_" ++ request_id ++ "_ERROR.json")%string.

(** A name that [Path(LOG_DIR).glob("request_*.json")] yields. The two
    literal parts of the pattern cannot overlap in a name, so a name
    matches when it starts with the one and ends with the other. *)
Definition glob_request_json (name : string) : bool :=
  startswith "request_" name && endswith ".json" name.

(** A file of [LOG_DIR]: its name, its modification time and the object
    that [json.load] reads from it. *)
Record file : Type := File {
  name : string;
  st_mtime : Q;
  json : log
}.

(** The exceptions of the viewer. *)
Inductive raised : Type :=
| KeyError (key : string)
| IndexError
| TypeError
| ValueError.

(** The truth value of a Python object. *)
Definition truthy (v : field) : bool :=
  match v with
  | Null => false
  | Flag b => b
  | Number q => negb (Qeq_bool q 0)
  | Text s => negb (String.eqb s "")
  | Predictions [] => false
  | Predictions (_ :: _) => true
  end.

(** Lines 142-144: the body of the loop over the log files. Only a list has
    a first element with a ['class']. *)
Definition count_top_class (class_counts : gmap string nat) (data : log)
  : raised + gmap string nat :=
  match data !! "predictions"%string with
  | None => inl (KeyError "predictions")
  | Some predictions =>
      if truthy predictions then
        match predictions with
        | Predictions (first :: _) =>
            let top_class := class first in
            inr (<[top_class := default 0 (class_counts !! top_class) + 1]> class_counts)
        | _ => inl TypeError
        end
      else inr class_counts
  end.

(** What [show_statistics] prints: the number of requests and, unless
    there is none, the count of each top class (the lines of the
    distribution, without their order). *)
Inductive statistics : Type :=
| NoRequests
| Distribution (total : nat) (class_counts : gmap string nat).

(** [show_statistics], on the files of [LOG_DIR]. *)
Definition show_statistics (directory : list file) : raised + statistics :=
  let json_files := filter (fun f => Is_true (glob_request_json (name f))) directory in
  match json_files with
  | [] => inr NoRequests
  | _ =>
      match for_each_or count_top_class (json <$> json_files) ∅ with
      | inr class_counts => inr (Distribution (length json_files) class_counts)
      | inl e => inl e
      end
  end.

(** [sorted(..., key=lambda x: x.stat().st_mtime, reverse=True)]: a stable
    sort, files of equal time stay in their order. *)
Fixpoint insert_recent (f : file) (sorted : list file) : list file :=
  match sorted with
  | [] => [f]
  | g :: rest =>
      if Qle_bool (st_mtime f) (st_mtime g) then g :: insert_recent f rest
      else f :: g :: rest
  end.

Definition sorted_recent (files : list file) : list file :=
  foldl (fun sorted f => insert_recent f sorted) [] files.

(** [data[key]]. *)
Definition getitem (data : log) (key : string) : raised + field :=
  match data !! key with
  | Some v => inr v
  | None => inl (KeyError key)
  end.

Definition and_then {A B} (m : raised + A) (k : A -> raised + B) : raised + B :=
  match m with
  | inr a => k a
  | inl e => inl e
  end.

(** [predictions[0]['class']] and [predictions[0]['confidence_percent']]:
    the first prediction. A string has a first character, which has no
    ['class']. *)
Definition first_prediction (predictions : field) : raised + prediction :=
  match predictions with
  | Predictions (first :: _) => inr first
  | Predictions [] => inl IndexError
  | Text s => if String.eqb s "" then inl IndexError else inl TypeError
  | _ => inl TypeError
  end.

Section ListRecentRequests.

(** Whether [datetime.fromisoformat] accepts the string. *)
Variable fromisoformat : string -> bool.

(** Lines 34-46: what is read of one log, in the order of the reads; the
    result is the top prediction printed. *)
Definition list_request (data : log) : raised + prediction :=
  and_then (getitem data "timestamp") (fun timestamp =>
  and_then (match timestamp with
            | Text s => if fromisoformat s then inr tt else inl ValueError
            | _ => inl TypeError
            end) (fun _ =>
  and_then (getitem data "request_id") (fun _ =>
  and_then (getitem data "client_ip") (fun _ =>
  and_then (getitem data "client_port") (fun _ =>
  and_then (getitem data "base64_length") (fun _ =>
  and_then (getitem data "predictions") (fun predictions =>
  and_then (first_prediction predictions) (fun top =>
  and_then (getitem data "success") (fun _ =>
  inr top))))))))).

(** [list_recent_requests]: the top predictions it prints, one for each
    request listed. *)
Definition list_recent_requests (directory : list file) (limit : Z)
  : raised + list prediction :=
  let json_files :=
    sorted_recent (filter (fun f => Is_true (glob_request_json (name f))) directory) in
  for_each_or
    (fun printed json_file =>
       and_then (list_request (json json_file)) (fun top => inr (printed ++ [top])))
    (slice_to (Some limit) json_files) [].

End ListRecentRequests.

End Logs.

(** *** Predicates on logs *)

(** The class of the first prediction of a log. *)
Definition top_prediction (data : Logs.log) : option string :=
  match data !! "predictions"%string with
  | Some (Logs.Predictions (first :: _)) => Some (class first)
  | _ => None
  end.

(** A log of a request that was answered. *)
Definition answered (data : Logs.log) : Prop :=
  exists results, data !! "predictions"%string = Some (Logs.Predictions results).

(** The number of logs with top class [c]. *)
Definition occurrences (c : string) (logs : list Logs.log) : nat :=
  length (filter (fun data => top_prediction data = Some c) logs).

(** The logs that [show_statistics] reads. *)
Definition logs_of (directory : list Logs.file) : list Logs.log :=
  Logs.json <$> filter (fun f => Is_true (Logs.glob_request_json (Logs.name f))) directory.

(** The logs that [list_recent_requests] lists. *)
Definition listed (directory : list Logs.file) (limit : Z) : list Logs.file :=
  slice_to (Some limit)
    (Logs.sorted_recent
       (filter (fun f => Is_true (Logs.glob_request_json (Logs.name f))) directory)).

(** [f] is at least as recent as [g]. *)
Definition as_recent_as (f g : Logs.file) : Prop :=
  (Logs.st_mtime g <= Logs.st_mtime f)%Q.

(** The sum of the counts of a distribution. *)
Definition sum_counts (class_counts : gmap string nat) : nat :=
  map_fold (fun _ n acc => n + acc) 0 class_counts.

(** *** Example logs *)

Definition cat_log : Logs.log :=
  Logs.request_log "20251201_033338_661741" "2025-12-01T03:33:38.700000"
    "10.0.0.7" 51234 "UnityPlayer" 1200
    (Some "api_logs/received_images/request_20251201_033338_661741.png"%string)
    (Some 2%Z)
    [Prediction "cat" (7 # 10) "70.00%"; Prediction "dog" (2 # 10) "20.00%"].

Definition cat_again_log : Logs.log :=
  Logs.request_log "20251201_033412_120004" "2025-12-01T03:34:12.150000"
    "10.0.0.7" 51240 "UnityPlayer" 1180 None None
    [Prediction "cat" (6 # 10) "60.00%"].

(** The log of a request with [top_k = 0]. *)
Definition empty_log : Logs.log :=
  Logs.request_log "20251201_033500_000001" "2025-12-01T03:35:00.020000"
    "10.0.0.7" 51244 "UnityPlayer" 1180 None (Some 0%Z) [].

Definition failed_log : Logs.log :=
  Logs.error_log "20251201_033600_000002" "2025-12-01T03:36:00.010000"
    "Failed to process base64 image: Incorrect padding" "ValueError" 7.

Definition sample_directory : list Logs.file :=
  [ Logs.File (Logs.json_log_file "20251201_033338_661741") 1764560018 cat_log;
    Logs.File "request_20251201_033338_661741_base64.txt" 1764560018 ∅;
    Logs.File "api.log" 1764560200 ∅;
    Logs.File (Logs.json_log_file "20251201_033412_120004") 1764560052 cat_again_log;
    Logs.File (Logs.json_log_file "20251201_033500_000001") 1764560100 empty_log ].

Definition failed_file : Logs.file :=
  Logs.File (Logs.error_log_file "20251201_033600_000002") 1764560160 failed_log.

(** A log that [predict_from_base64] wrote. *)
Definition written (data : Logs.log) : Prop :=
  (exists request_id timestamp client_ip client_port user_agent base64_length
          image_file top_k predictions,
     data = Logs.request_log request_id timestamp client_ip client_port user_agent
              base64_length image_file top_k predictions)
  \/ (exists request_id timestamp error error_type base64_length,
        data = Logs.error_log request_id timestamp error error_type base64_length).

(** The first prediction of the log in [f] is [p]. *)
Definition tops (f : Logs.file) (p : prediction) : Prop :=
  exists rest,
    Logs.json f !! "predictions"%string = Some (Logs.Predictions (p :: rest)).

(** The timestamp of the log, if it has one, is one that
    [datetime.fromisoformat] accepts. *)
Definition dated (fromisoformat : string -> bool) (f : Logs.file) : Prop :=
  forall s, Logs.json f !! "timestamp"%string = Some (Logs.Text s) ->
            fromisoformat s = true.

(** * Properties *)

(** ** Loops and results *)

Lemma mapM_Ok {A B} (f : A -> result B) (g : A -> B) (l : list A) :
  (forall x, x ∈ l -> f x = Ok (g x)) -> mapM f l = Ok (g <$> l).
Proof.
  induction l as [|x l IH]; intros Hf; [reflexivity|].
  cbn. rewrite (Hf x) by constructor. cbn.
  rewrite IH; [reflexivity|]. intros y Hy. apply Hf. by constructor.
Qed.

Lemma for_each_fmap {A B S} (f : S -> B -> result S) (h : A -> B) xs acc :
  for_each f (h <$> xs) acc = for_each (fun s x => f s (h x)) xs acc.
Proof.
  revert acc. induction xs as [|x xs IH]; intros acc; [reflexivity|].
  cbn. destruct (f acc (h x)); [apply IH | reflexivity].
Qed.

Lemma for_each_skip {A S} (f : S -> A -> result S) xs acc :
  (forall s x, x ∈ xs -> f s x = Ok s) -> for_each f xs acc = Ok acc.
Proof.
  induction xs as [|x xs IH]; intros Hf; [reflexivity|].
  cbn. rewrite Hf by constructor. apply IH. intros s y Hy. apply Hf. by constructor.
Qed.

(** ** Rational comparisons *)

Lemma Qlt_bool_iff (x y : Q) : Qlt_bool x y = true <-> (x < y)%Q.
Proof.
  unfold Qlt_bool. rewrite negb_true_iff, <- not_true_iff_false, Qle_bool_iff.
  split; [apply Qnot_le_lt | apply Qlt_not_le].
Qed.

Lemma Qint_bounds (q : Q) (z : Z) :
  (0 <= q)%Q -> (q < inject_Z z)%Q -> (0 <= Qint q < z)%Z.
Proof.
  destruct q as [n d]. unfold Qle, Qlt, Qint. cbn. intros H0 Hz.
  assert (0 <= n)%Z by lia.
  rewrite Z.quot_div_nonneg by lia. split.
  - apply Z.div_pos; lia.
  - apply Z.div_lt_upper_bound; lia.
Qed.

Lemma on_canvas_bounds (canvas_size : Z) (p : point) :
  on_canvas canvas_size p = true ->
  Z.to_nat (Qint (snd p)) < Z.to_nat canvas_size
  /\ Z.to_nat (Qint (fst p)) < Z.to_nat canvas_size.
Proof.
  unfold on_canvas. rewrite !andb_true_iff, !Qlt_bool_iff, !Qle_bool_iff.
  intros [[[Hx0 Hx] Hy0] Hy].
  pose proof (Qint_bounds _ _ Hx0 Hx). pose proof (Qint_bounds _ _ Hy0 Hy). lia.
Qed.

(** ** The interpolation *)

Lemma interpolate_points_lerp (x1 y1 x2 y2 : Q) (num_points : Z) :
  num_points <> 0%Z ->
  _interpolate_points x1 y1 x2 y2 num_points
  = Ok (lerp (x1, y1) (x2, y2) <$> parameters num_points).
Proof.
  intros Hn. unfold _interpolate_points, parameters.
  rewrite <- list_fmap_compose. apply mapM_Ok. intros i _.
  unfold interpolate_at. destruct (Z.eqb_spec num_points 0); [contradiction|reflexivity].
Qed.

Lemma parameters_length (num_points : Z) :
  length (parameters num_points) = Z.to_nat (num_points + 1).
Proof. unfold parameters, range. by rewrite !length_fmap, length_seq. Qed.




(** ** The canvas *)

Lemma cell_index_inj (n r c r' c' : nat) :
  c < n -> c' < n -> r * n + c = r' * n + c' -> r = r' /\ c = c'.
Proof.
  intros Hc Hc' E. apply (Nat.div_mod_unique n); [done..|].
  rewrite !(Nat.mul_comm n). exact E.
Qed.

Lemma getitem2_canvas (n : nat) (cv : ndarray Z) (r c : nat) :
  canvas_ok n cv -> r < n -> c < n -> getitem2 cv r c = data cv !! (r * n + c).
Proof.
  intros [Hs _] Hr Hc. unfold getitem2. rewrite Hs.
  destruct (decide (r < n /\ c < n)); [reflexivity | tauto].
Qed.

Lemma zeros_canvas_ok (n : nat) : canvas_ok n (zeros [n; n]).
Proof. split; [reflexivity|]. cbn. rewrite length_replicate. lia. Qed.

Lemma zeros_getitem2 (n r c : nat) :
  r < n -> c < n -> getitem2 (zeros [n; n]) r c = Some 0%Z.
Proof.
  intros Hr Hc. rewrite (getitem2_canvas n) by auto using zeros_canvas_ok.
  cbn. apply lookup_replicate_2. nia.
Qed.

Section Canvas.

Variable canvas_size : Z.
Let n := Z.to_nat canvas_size.

Lemma plot_spec (cv : ndarray Z) (p : point) :
  canvas_ok n cv ->
  exists cv', plot canvas_size cv p = Ok cv' /\ canvas_ok n cv'
    /\ forall r c, r < n -> c < n ->
         getitem2 cv' r c
         = if lands canvas_size r c p then Some 255%Z else getitem2 cv r c.
Proof.
  intros Hcv. pose proof Hcv as [Hs Hl]. unfold plot, lands.
  destruct (on_canvas canvas_size p) eqn:Hon; cbn [andb].
  - destruct (on_canvas_bounds _ _ Hon) as [Hr0 Hc0]. fold n in Hr0, Hc0.
    set (r0 := Z.to_nat (Qint (snd p))) in *.
    set (c0 := Z.to_nat (Qint (fst p))) in *.
    unfold setitem2. rewrite Hs.
    destruct (decide (r0 < n /\ c0 < n)) as [_|]; [|tauto].
    eexists. split; [reflexivity|].
    assert (Hcv' : canvas_ok n (NdArray [n; n] (<[r0 * n + c0 := 255%Z]> (data cv)))).
    { split; [reflexivity|]. cbn. by rewrite length_insert. }
    split; [exact Hcv'|]. intros r c Hr Hc.
    rewrite !(getitem2_canvas n) by auto. cbn [data].
    destruct (decide (r0 = r)) as [->|Hne].
    + rewrite bool_decide_eq_true_2 by done. cbn [andb].
      destruct (decide (c0 = c)) as [->|Hne].
      * rewrite bool_decide_eq_true_2 by done.
        apply list_lookup_insert_eq. rewrite Hl. nia.
      * rewrite bool_decide_eq_false_2 by done.
        apply list_lookup_insert_ne. intros E.
        apply cell_index_inj in E; [tauto|done..].
    + rewrite bool_decide_eq_false_2 by done. cbn [andb].
      apply list_lookup_insert_ne. intros E.
      apply cell_index_inj in E; [tauto|done..].
  - exists cv. auto.
Qed.

Lemma plot_all_spec (pts : list point) (cv : ndarray Z) :
  canvas_ok n cv ->
  exists cv', for_each (plot canvas_size) pts cv = Ok cv' /\ canvas_ok n cv'
    /\ forall r c, r < n -> c < n ->
         getitem2 cv' r c
         = if existsb (lands canvas_size r c) pts then Some 255%Z
           else getitem2 cv r c.
Proof.
  revert cv. induction pts as [|p pts IH]; intros cv Hcv.
  - exists cv. auto.
  - destruct (plot_spec cv p Hcv) as (cv1 & E1 & Hcv1 & H1).
    destruct (IH cv1 Hcv1) as (cv2 & E2 & Hcv2 & H2).
    exists cv2. cbn. rewrite E1. split; [exact E2|]. split; [exact Hcv2|].
    intros r c Hr Hc. rewrite H2, H1 by done.
    destruct (lands canvas_size r c p), (existsb (lands canvas_size r c) pts);
      reflexivity.
Qed.

Lemma draw_segment_spec (cv : ndarray Z) (p1 p2 : point) :
  canvas_ok n cv ->
  exists cv', draw_segment canvas_size cv p1 p2 = Ok cv' /\ canvas_ok n cv'
    /\ forall r c, r < n -> c < n ->
         getitem2 cv' r c
         = if segment_marks canvas_size r c (p1, p2) then Some 255%Z
           else getitem2 cv r c.
Proof.
  intros Hcv. unfold draw_segment, segment_marks.
  rewrite interpolate_points_lerp by done.
  destruct p1 as [x1 y1], p2 as [x2 y2]. cbn [mbind result_bind fst snd].
  apply plot_all_spec, Hcv.
Qed.

(** The index loop of [draw_stroke] visits the consecutive pairs in order. *)
Lemma index_walk_segments (stroke : list point) (cv : ndarray Z) :
  for_each
    (fun cv i =>
       match stroke !! i, stroke !! (i + 1) with
       | Some p1, Some p2 => draw_segment canvas_size cv p1 p2
       | _, _ => Raise IndexOutOfBounds
       end)
    (seq 0 (length stroke - 1)) cv
  = for_each (fun cv s => draw_segment canvas_size cv (fst s) (snd s))
      (segments stroke) cv.
Proof.
  revert cv. induction stroke as [|p [|q rest] IH]; intros cv; [reflexivity..|].
  cbn [length Nat.sub seq for_each segments tail zip zip_with].
  cbn [lookup list_lookup Nat.add fst snd].
  destruct (draw_segment canvas_size cv p q) as [cv1|]; [|reflexivity].
  rewrite <- fmap_S_seq, for_each_fmap.
  specialize (IH cv1). cbn [length Nat.sub] in IH. rewrite Nat.sub_0_r in IH.
  exact IH.
Qed.

Lemma draw_segments_spec (segs : list (point * point)) (cv : ndarray Z) :
  canvas_ok n cv ->
  exists cv',
    for_each (fun cv s => draw_segment canvas_size cv (fst s) (snd s)) segs cv = Ok cv'
    /\ canvas_ok n cv'
    /\ forall r c, r < n -> c < n ->
         getitem2 cv' r c
         = if existsb (segment_marks canvas_size r c) segs then Some 255%Z
           else getitem2 cv r c.
Proof.
  revert cv. induction segs as [|[p1 p2] segs IH]; intros cv Hcv.
  - exists cv. auto.
  - destruct (draw_segment_spec cv p1 p2 Hcv) as (cv1 & E1 & Hcv1 & H1).
    destruct (IH cv1 Hcv1) as (cv2 & E2 & Hcv2 & H2).
    exists cv2. cbn [for_each fst snd]. rewrite E1.
    split; [exact E2|]. split; [exact Hcv2|].
    intros r c Hr Hc. rewrite H2, H1 by done. cbn [existsb].
    destruct (segment_marks canvas_size r c (p1, p2)),
      (existsb (segment_marks canvas_size r c) segs); reflexivity.
Qed.

Lemma draw_stroke_short (cv : ndarray Z) (stroke : list point) :
  length stroke < 2 -> draw_stroke canvas_size cv stroke = Ok cv.
Proof.
  intros Hlen. unfold draw_stroke.
  destruct (decide (length stroke < 2)); [reflexivity | contradiction].
Qed.

Lemma draw_stroke_walk (cv : ndarray Z) (stroke : list point) :
  2 <= length stroke ->
  draw_stroke canvas_size cv stroke
  = for_each (fun cv s => draw_segment canvas_size cv (fst s) (snd s))
      (segments stroke) cv.
Proof.
  intros Hlen. unfold draw_stroke.
  destruct (decide (length stroke < 2)); [lia|]. apply index_walk_segments.
Qed.

Lemma draw_stroke_spec (cv : ndarray Z) (stroke : list point) :
  canvas_ok n cv ->
  exists cv', draw_stroke canvas_size cv stroke = Ok cv' /\ canvas_ok n cv'
    /\ forall r c, r < n -> c < n ->
         getitem2 cv' r c
         = if stroke_marks canvas_size r c stroke then Some 255%Z
           else getitem2 cv r c.
Proof.
  intros Hcv. unfold stroke_marks.
  destruct (decide (length stroke < 2)) as [Hshort|Hlong].
  - exists cv. rewrite draw_stroke_short by done.
    rewrite bool_decide_eq_false_2 by lia. auto.
  - rewrite draw_stroke_walk by lia. rewrite bool_decide_eq_true_2 by lia.
    apply draw_segments_spec, Hcv.
Qed.

Lemma draw_strokes_spec (strokes : list (list point)) (cv : ndarray Z) :
  canvas_ok n cv ->
  exists cv', for_each (draw_stroke canvas_size) strokes cv = Ok cv'
    /\ canvas_ok n cv'
    /\ forall r c, r < n -> c < n ->
         getitem2 cv' r c
         = if existsb (stroke_marks canvas_size r c) strokes then Some 255%Z
           else getitem2 cv r c.
Proof.
  revert cv. induction strokes as [|s strokes IH]; intros cv Hcv.
  - exists cv. auto.
  - destruct (draw_stroke_spec cv s Hcv) as (cv1 & E1 & Hcv1 & H1).
    destruct (IH cv1 Hcv1) as (cv2 & E2 & Hcv2 & H2).
    exists cv2. cbn [for_each]. rewrite E1.
    split; [exact E2|]. split; [exact Hcv2|].
    intros r c Hr Hc. rewrite H2, H1 by done. cbn [existsb].
    destruct (stroke_marks canvas_size r c s),
      (existsb (stroke_marks canvas_size r c) strokes); reflexivity.
Qed.

End Canvas.

(** The canvas of [rasterize], cell by cell. *)
Lemma rasterize_spec (strokes : list (list point)) (canvas_size : Z) :
  (0 <= canvas_size)%Z ->
  exists cv, rasterize strokes canvas_size = Ok cv
    /\ canvas_ok (Z.to_nat canvas_size) cv
    /\ forall r c, r < Z.to_nat canvas_size -> c < Z.to_nat canvas_size ->
         getitem2 cv r c
         = Some (if existsb (stroke_marks canvas_size r c) strokes then 255%Z
                 else 0%Z).
Proof.
  intros Hsize. unfold rasterize.
  destruct (Z.ltb_spec canvas_size 0) as [Hneg|_]; [lia|].
  destruct (draw_strokes_spec canvas_size strokes _ (zeros_canvas_ok _))
    as (cv & E & Hcv & Hcells).
  exists cv. split; [exact E|]. split; [exact Hcv|].
  intros r c Hr Hc. rewrite Hcells, zeros_getitem2 by done.
  by destruct (existsb _ _).
Qed.

Lemma for_each_app {A S} (f : S -> A -> result S) xs ys acc :
  for_each f (xs ++ ys) acc
  = match for_each f xs acc with
    | Ok acc' => for_each f ys acc'
    | Raise e => Raise e
    end.
Proof.
  revert acc. induction xs as [|x xs IH]; intros acc; [reflexivity|].
  cbn. destruct (f acc x); [apply IH | reflexivity].
Qed.


Lemma segments_length (stroke : list point) :
  length (segments stroke) = length stroke - 1.
Proof.
  unfold segments. rewrite length_zip_with.
  destruct stroke; cbn [tail length]; lia.
Qed.


(** C5. A stroke with fewer than 2 points leaves the canvas as it is: the
    rasteriser gives the same canvas with or without it, and a drawing made
    only of such strokes (the empty drawing included) gives the all-zero
    canvas. *)
Theorem short_strokes_contribute_nothing
  (before after drawing : list (list point)) (stroke : list point)
  (canvas_size : Z) :
  (0 <= canvas_size)%Z ->
  length stroke < 2 ->
  Forall (fun s => length s < 2) drawing ->
  rasterize (before ++ stroke :: after) canvas_size
  = rasterize (before ++ after) canvas_size
  /\ rasterize drawing canvas_size
     = Ok (zeros [Z.to_nat canvas_size; Z.to_nat canvas_size]).
Proof.
  intros Hsize Hshort Hall. unfold rasterize.
  destruct (Z.ltb_spec canvas_size 0) as [Hneg|_]; [lia|]. split.
  - rewrite !for_each_app.
    destruct (for_each (draw_stroke canvas_size) before _) as [cv|]; [|reflexivity].
    cbn [for_each]. by rewrite draw_stroke_short.
  - apply for_each_skip. intros cv s Hs. apply draw_stroke_short.
    rewrite Forall_forall in Hall. by apply Hall.
Qed.

Lemma short_strokes_contribute_nothing_witness :
  (0 <= 28)%Z
  /\ length [(3, 3)%Q] < 2
  /\ Forall (fun s : list point => length s < 2) [[(5, 5)%Q]; []]
  /\ rasterize ([[(0, 0); (27, 27)]%Q] ++ [(3, 3)%Q] :: []) 28
     = rasterize ([[(0, 0); (27, 27)]%Q] ++ []) 28
  /\ rasterize [[(5, 5)%Q]; []] 28 = Ok (zeros [Z.to_nat 28; Z.to_nat 28]).
Proof.
  assert (H0 : (0 <= 28)%Z) by lia.
  assert (H1 : length [(3, 3)%Q] < 2) by (cbn; lia).
  assert (H2 : Forall (fun s : list point => length s < 2) [[(5, 5)%Q]; []])
    by (repeat constructor; cbn; lia).
  split; [exact H0|]. split; [exact H1|]. split; [exact H2|].
  exact (short_strokes_contribute_nothing
           [[(0, 0); (27, 27)]%Q] [] [[(5, 5)%Q]; []] [(3, 3)%Q] 28 H0 H1 H2).
Defined.



(** ** The ranking *)

Lemma StronglySorted_lookup {A} (R : relation A) (l : list A) i j x y :
  StronglySorted R l -> i < j -> l !! i = Some x -> l !! j = Some y -> R x y.
Proof.
  intros Hl. revert i j. induction Hl as [|a l Hl IH Ha]; intros i j Hij Hi Hj.
  - by rewrite lookup_nil in Hi.
  - destruct j as [|j]; [lia|]. cbn in Hj. destruct i as [|i].
    + cbn in Hi. inversion Hi; subst. rewrite Forall_forall in Ha.
      apply Ha. by eapply list_elem_of_lookup_2.
    + cbn in Hi. apply (IH i j); [lia|done..].
Qed.

Lemma StronglySorted_reverse {A} (R : relation A) (l : list A) :
  StronglySorted R l -> StronglySorted (flip R) (reverse l).
Proof.
  induction 1 as [|a l Hl IH Ha]; [constructor|].
  rewrite reverse_cons. apply StronglySorted_app_2; [|exact IH|repeat constructor].
  intros x y Hx Hy. apply list_elem_of_singleton in Hy as ->.
  rewrite Forall_forall in Ha. apply Ha. by apply elem_of_reverse.
Qed.

Lemma insert_index_perm (v : list Q) (i : nat) (l : list nat) :
  insert_index v i l ≡ₚ i :: l.
Proof.
  induction l as [|j l IH]; [reflexivity|]. cbn.
  destruct (Qle_bool _ _); [|reflexivity].
  rewrite IH. apply Permutation_swap.
Qed.

Lemma insert_index_sorted (v : list Q) (i : nat) (l : list nat) :
  StronglySorted (ascends v) l -> Forall (fun j => j < i) l ->
  StronglySorted (ascends v) (insert_index v i l).
Proof.
  induction 1 as [|j l Hl IH Hj]; intros Hlt; [repeat constructor|].
  apply Forall_cons in Hlt as [Hji Hlt]. cbn.
  fold (value v j). fold (value v i).
  destruct (Qle_bool (value v j) (value v i)) eqn:Hle.
  - apply Qle_bool_iff in Hle. constructor; [by apply IH|].
    rewrite insert_index_perm. constructor; [|exact Hj].
    unfold ascends. destruct (Qle_lt_or_eq _ _ Hle); auto.
  - assert (Hij : (value v i < value v j)%Q).
    { apply Qnot_le_lt. intros Hc. apply Qle_bool_iff in Hc. congruence. }
    constructor; [by constructor|].
    constructor; [by left|].
    eapply Forall_impl; [exact Hj|]. intros k [Hk|[Hk _]]; left.
    + exact (Qlt_trans _ _ _ Hij Hk).
    + by rewrite <- Hk.
Qed.

Lemma argsort_prefix (v : list Q) (k : nat) :
  let sorted := foldl (fun sorted i => insert_index v i sorted) [] (seq 0 k) in
  StronglySorted (ascends v) sorted /\ sorted ≡ₚ seq 0 k.
Proof.
  induction k as [|k [Hs Hp]]; [split; [constructor | reflexivity]|].
  rewrite seq_S, foldl_app. cbn [foldl Nat.add]. split.
  - apply insert_index_sorted; [exact Hs|]. rewrite Hp.
    apply Forall_forall. intros j Hj. apply elem_of_seq in Hj. lia.
  - rewrite insert_index_perm, Hp. by rewrite Permutation_cons_append.
Qed.

Lemma argsort_sorted (v : list Q) : StronglySorted (ascends v) (argsort v).
Proof. apply argsort_prefix. Qed.

Lemma argsort_perm (v : list Q) : argsort v ≡ₚ seq 0 (length v).
Proof. apply argsort_prefix. Qed.

(** The whole ranking, before it is cut to [top_k] entries. *)
Lemma ranking_sorted (v : list Q) :
  StronglySorted (ranks_before v) (reverse (argsort v)).
Proof. apply (StronglySorted_reverse (ascends v)), argsort_sorted. Qed.

Lemma ranking_perm (v : list Q) : reverse (argsort v) ≡ₚ seq 0 (length v).
Proof. by rewrite reverse_Permutation, argsort_perm. Qed.


(** What a prefix of the ranking looks like. *)
Lemma ranking_prefix (v : list Q) (m : nat) (idxs := take m (reverse (argsort v))) :
  length idxs = min m (length v)
  /\ NoDup idxs
  /\ (forall a, a ∈ idxs -> a < length v)
  /\ (forall i j a b, i < j -> idxs !! i = Some a -> idxs !! j = Some b ->
        ranks_before v a b)
  /\ (forall a b, a ∈ idxs -> b < length v -> b ∉ idxs -> ranks_before v a b).
Proof.
  pose proof (ranking_sorted v) as Hs. pose proof (ranking_perm v) as Hp.
  rewrite <- (take_drop m (reverse (argsort v))) in Hs.
  apply StronglySorted_app in Hs as (Hcross & Hs1 & _).
  assert (Hnd : NoDup (reverse (argsort v))) by (rewrite Hp; apply NoDup_seq).
  assert (Hin : forall a, a ∈ reverse (argsort v) <-> a < length v).
  { intros a. rewrite Hp, elem_of_seq. lia. }
  subst idxs. split; [|split; [|split; [|split]]].
  - by rewrite length_take, length_reverse, (Permutation_length (argsort_perm v)),
      length_seq.
  - rewrite <- (take_drop m) in Hnd. by apply NoDup_app in Hnd as [? _].
  - intros a Ha. apply Hin. rewrite <- (take_drop m). apply elem_of_app. by left.
  - intros i j a b Hij Hi Hj. by apply (StronglySorted_lookup _ _ i j a b Hs1).
  - intros a b Ha Hb Hnb. apply Hcross; [exact Ha|].
    apply Hin in Hb. rewrite <- (take_drop m) in Hb.
    apply elem_of_app in Hb as [Hb|Hb]; [contradiction | exact Hb].
Qed.

(** The same cut of the ranking for any order of the indices that sorts the
    values ascending, whatever it does with equal values: numpy fixes no
    order among them for its default sort kind. The length, the descending
    order and the choice of the largest values do not depend on it; only
    the order among equal values does. *)
Section AnyArgsort.

Variable v : list Q.
Variable order : list nat.
Hypothesis order_perm : order ≡ₚ seq 0 (length v).
Hypothesis order_sorted :
  StronglySorted (fun a b => (value v a <= value v b)%Q) order.

Lemma any_argsort_prefix (m : nat) (idxs := take m (reverse order)) :
  length idxs = min m (length v)
  /\ NoDup idxs
  /\ (forall i j a b, i < j -> idxs !! i = Some a -> idxs !! j = Some b ->
        (value v b <= value v a)%Q)
  /\ (forall a b, a ∈ idxs -> b < length v -> b ∉ idxs ->
        (value v b <= value v a)%Q).
Proof.
  pose proof (StronglySorted_reverse _ _ order_sorted) as Hs.
  assert (Hp : reverse order ≡ₚ seq 0 (length v))
    by (by rewrite reverse_Permutation).
  rewrite <- (take_drop m (reverse order)) in Hs.
  apply StronglySorted_app in Hs as (Hcross & Hs1 & _).
  assert (Hnd : NoDup (reverse order)) by (rewrite Hp; apply NoDup_seq).
  subst idxs. split; [|split; [|split]].
  - by rewrite length_take, length_reverse, (Permutation_length order_perm),
      length_seq.
  - rewrite <- (take_drop m) in Hnd. by apply NoDup_app in Hnd as [? _].
  - intros i j a b Hij Hi Hj.
    exact (StronglySorted_lookup _ _ i j a b Hs1 Hij Hi Hj).
  - intros a b Ha Hb Hnb. apply (Hcross a b Ha).
    assert (Hin : b ∈ reverse order) by (rewrite Hp, elem_of_seq; lia).
    rewrite <- (take_drop m) in Hin.
    apply elem_of_app in Hin as [Hin|Hin]; [contradiction | exact Hin].
Qed.

End AnyArgsort.

Lemma entry_in_range (v : list Q) (idx : nat) :
  idx < length v -> length v <= length class_names ->
  entry v idx = Ok (entry_of v idx).
Proof.
  intros Hidx Hn. unfold entry, entry_of, value.
  destruct (lookup_lt_is_Some_2 class_names idx) as [name Hname]; [lia|].
  destruct (lookup_lt_is_Some_2 v idx Hidx) as [p Hp].
  rewrite (nth_lookup_Some _ _ _ _ Hname), (nth_lookup_Some _ _ _ _ Hp).
  rewrite Hname, Hp. reflexivity.
Qed.

Lemma rank_prefix_ok (v : list Q) (idxs : list nat) :
  (forall a, a ∈ idxs -> a < length v) -> length v <= length class_names ->
  mapM (entry v) idxs = Ok (entry_of v <$> idxs).
Proof.
  intros Hin Hn. apply mapM_Ok. intros a Ha. apply entry_in_range; auto.
Qed.

Lemma slice_to_take {A} (k : option Z) (l : list A) :
  slice_to k l = take (slice_length k (length l)) l.
Proof.
  destruct k as [k|]; cbn.
  - destruct (0 <=? k)%Z; [|reflexivity].
    destruct (Nat.le_gt_cases (Z.to_nat k) (length l)).
    + by rewrite Nat.min_l.
    + rewrite Nat.min_r by lia. by rewrite !take_ge by lia.
  - by rewrite take_ge.
Qed.

(** The example of the ranking contract: three probabilities, the best two. *)
Example rank_example :
  rank [1 # 10; 7 # 10; 2 # 10]%Q (Some 2%Z)
  = Ok [Prediction "dog" (7 # 10) "70.00%"; Prediction "bird" (2 # 10) "20.00%"].
Proof. reflexivity. Qed.

Lemma ranking_length (v : list Q) : length (reverse (argsort v)) = length v.
Proof. by rewrite (Permutation_length (ranking_perm v)), length_seq. Qed.

Lemma rank_take (v : list Q) (k : option Z) :
  length v <= length class_names ->
  rank v k
  = Ok (entry_of v <$> take (slice_length k (length v)) (reverse (argsort v))).
Proof.
  intros Hn. unfold rank, top_indices. rewrite slice_to_take, ranking_length.
  apply rank_prefix_ok; [|exact Hn].
  intros a Ha. by apply (ranking_prefix v (slice_length k (length v))).
Qed.

Lemma predict_rank (model : ndarray Q -> list Q) (image : ndarray Q) (k : option Z) :
  shape image = model_shape -> predict model image k = rank (model image) k.
Proof.
  intros Hs. unfold predict. destruct (decide (shape image ≠ model_shape)); done.
Qed.




(** C9, as amended. [top_k] defaults to 3 in [predict] and in
    [PredictionRequest], and [predict] checks no range of it: for every
    integer K and every probability vector over at most 49 labels it returns
    a list and raises nothing. For K >= 1 the list has [min(K, n)] entries;
    for K = 0 it is empty; for K < 0 the slice drops the last |K| entries of
    the ranking. *)
Theorem top_k_default_and_range
  (model : ndarray Q -> list Q) (image : ndarray Q) (request_image : string)
  (k : Z) :
  shape image = model_shape ->
  length (model image) <= length class_names ->
  default_top_k = Some 3%Z
  /\ top_k (PredictionRequest_of request_image) = Some 3%Z
  /\ predict_default model image = predict model image (Some 3%Z)
  /\ exists ranked,
       predict model image (Some k) = Ok ranked
       /\ ((1 <= k)%Z -> length ranked = min (Z.to_nat k) (length (model image)))
       /\ (k = 0%Z -> ranked = [])
       /\ ((k < 0)%Z ->
             length ranked = Z.to_nat (Z.of_nat (length (model image)) + k)).
Proof.
  intros Hshape Hn. split; [reflexivity|]. split; [reflexivity|].
  split; [reflexivity|].
  rewrite predict_rank, rank_take by done. eexists. split; [reflexivity|].
  pose proof (ranking_prefix (model image) (slice_length (Some k) (length (model image))))
    as (Hlen & _).
  rewrite length_fmap, Hlen. cbn [slice_length]. split; [|split].
  - intros Hk. destruct (Z.leb_spec 0 k); lia.
  - intros ->. reflexivity.
  - intros Hk. destruct (Z.leb_spec 0 k); lia.
Qed.

Lemma top_k_default_and_range_witness :
  shape (full model_shape 0%Q) = model_shape
  /\ length ((fun _ : ndarray Q => [1 # 10; 7 # 10; 2 # 10]%Q) (full model_shape 0%Q))
     <= length class_names
  /\ predict_default (fun _ => [1 # 10; 7 # 10; 2 # 10]%Q) (full model_shape 0%Q)
     = predict (fun _ => [1 # 10; 7 # 10; 2 # 10]%Q) (full model_shape 0%Q) (Some 3%Z)
  /\ exists ranked,
       predict (fun _ => [1 # 10; 7 # 10; 2 # 10]%Q) (full model_shape 0%Q)
         (Some (-1)%Z) = Ok ranked
       /\ length ranked = 2.
Proof.
  assert (H0 : shape (full model_shape 0%Q) = model_shape) by reflexivity.
  assert (H1 : length ((fun _ : ndarray Q => [1 # 10; 7 # 10; 2 # 10]%Q)
                         (full model_shape 0%Q)) <= length class_names)
    by (cbn; lia).
  split; [exact H0|]. split; [exact H1|].
  destruct (top_k_default_and_range (fun _ => [1 # 10; 7 # 10; 2 # 10]%Q)
              (full model_shape 0%Q) "" (-1)%Z H0 H1)
    as (_ & _ & Hd & ranked & E & _ & _ & Hneg).
  split; [exact Hd|]. exists ranked. split; [exact E|].
  rewrite Hneg by lia. reflexivity.
Defined.

(** C9 as stated fails for K < 1: no error is raised. With K = 0 the result
    is the empty list, with K = -1 it is the ranking without its last
    entry. *)
Lemma predict_accepts_top_k_below_one :
  predict (fun _ => [1 # 10; 7 # 10; 2 # 10]%Q) (full model_shape 0%Q) (Some 0%Z)
  = Ok []
  /\ predict (fun _ => [1 # 10; 7 # 10; 2 # 10]%Q) (full model_shape 0%Q) (Some (-1)%Z)
     = Ok [Prediction "dog" (7 # 10) "70.00%"; Prediction "bird" (2 # 10) "20.00%"].
Proof. split; reflexivity. Qed.

(** ** The normalisation pipeline *)

Lemma reshape_shape {A} (s : list nat) (a out : ndarray A) :
  reshape s a = Ok out -> shape out = s /\ well_shaped out /\ data out = data a.
Proof.
  unfold reshape. destruct (decide (numel s = length (data a))) as [E|]; [|done].
  intros [= <-]. unfold well_shaped. cbn. auto.
Qed.

Lemma reshape_ok {A} (s : list nat) (a : ndarray A) :
  numel s = length (data a) -> reshape s a = Ok (NdArray s (data a)).
Proof. intros E. unfold reshape. by destruct (decide _). Qed.

Lemma try_except_Ok {A} (st : stage) (body : result A) (a : A) :
  try_except st body = Ok a <-> body = Ok a.
Proof. destruct body; cbn; split; congruence. Qed.

Lemma bind_Ok {A B} (m : result A) (f : A -> result B) (b : B) :
  m ≫= f = Ok b <-> exists a, m = Ok a /\ f a = Ok b.
Proof.
  destruct m as [a|e]; cbn; split.
  - intros H. exists a. auto.
  - intros [a' [Ha H]]. by inversion Ha; subst.
  - discriminate.
  - intros [a' [Ha _]]. discriminate.
Qed.

(** From [body = Ok out], where [body] is a chain of binds, to the last
    step of the chain. *)
Ltac last_step H :=
  apply try_except_Ok in H;
  repeat (let x := fresh "x" in apply bind_Ok in H as (x & _ & H)).

Section PipelineFacts.

Variable open_gray : list Byte.byte -> option (ndarray Z).
Variable resize28 : ndarray Z -> option (ndarray Z).
Variable b64decode : string -> option (list Byte.byte).

Lemma bytes_shape (image_bytes : list Byte.byte) (out : ndarray Q) :
  preprocess_image_from_bytes open_gray resize28 image_bytes = Ok out ->
  shape out = model_shape /\ well_shaped out.
Proof.
  unfold preprocess_image_from_bytes. intros Hr. last_step Hr.
  apply reshape_shape in Hr. tauto.
Qed.

Lemma base64_shape (s : string) (out : ndarray Q) :
  preprocess_image_from_base64 open_gray resize28 b64decode s = Ok out ->
  shape out = model_shape /\ well_shaped out.
Proof.
  unfold preprocess_image_from_base64. intros Hb. last_step Hb.
  by apply bytes_shape in Hb.
Qed.

Lemma array_shape (a out : ndarray Q) :
  preprocess_image_from_array resize28 a = Ok out ->
  shape out = model_shape /\ well_shaped out.
Proof.
  unfold preprocess_image_from_array. intros Hr. last_step Hr.
  apply reshape_shape in Hr. tauto.
Qed.

Lemma stroke_shape (strokes : list (list point)) (canvas_size : Z) (out : ndarray Q) :
  preprocess_stroke_data resize28 strokes canvas_size = Ok out ->
  shape out = model_shape /\ well_shaped out.
Proof.
  unfold preprocess_stroke_data. intros Hr. last_step Hr.
  apply reshape_shape in Hr. tauto.
Qed.

Hypothesis decoder_ok : decoder_contract open_gray.
Hypothesis resampler_ok : resampler_contract resize28.

Lemma resized_ok (a : ndarray Z) (h w : nat) :
  shape a = [h; w] -> 0 < h -> 0 < w ->
  exists out, resize28 a = Some out /\ shape out = [28; 28]
    /\ length (data out) = 784 /\ Forall is_uint8 (data out).
Proof.
  intros Hs Hh Hw. destruct resampler_ok as [Hout Htotal].
  destruct (Htotal a h w Hs Hh Hw) as [out E]. exists out.
  split; [exact E|]. by apply (Hout a).
Qed.

Lemma bytes_total (image_bytes : list Byte.byte) (image : ndarray Z) :
  open_gray image_bytes = Some image ->
  exists out, preprocess_image_from_bytes open_gray resize28 image_bytes = Ok out.
Proof.
  intros Hopen. destruct (decoder_ok _ _ Hopen) as (h & w & Hs & Hh & Hw & _).
  destruct (resized_ok image h w Hs Hh Hw) as (small & E & _ & Hlen & _).
  unfold preprocess_image_from_bytes. rewrite Hopen. cbn. rewrite E. cbn.
  rewrite reshape_ok; [by eexists|]. cbn. by rewrite !length_fmap.
Qed.

Lemma stroke_total (strokes : list (list point)) (canvas_size : Z) :
  (0 < canvas_size)%Z ->
  exists out, preprocess_stroke_data resize28 strokes canvas_size = Ok out.
Proof.
  intros Hsize.
  destruct (rasterize_spec strokes canvas_size) as (cv & E & [Hs _] & _); [lia|].
  destruct (resized_ok cv _ _ Hs) as (small & Er & _ & Hlen & _); [lia..|].
  unfold preprocess_stroke_data. rewrite E. cbn. rewrite Er. cbn.
  rewrite reshape_ok; [by eexists|]. cbn. by rewrite !length_fmap.
Qed.

End PipelineFacts.

(** *** The stages of the array normaliser *)

Lemma numel_2 (h w : nat) : numel [h; w] = h * w.
Proof. cbn. by rewrite Nat.mul_1_r. Qed.

Lemma take_first_image_batch (a : ndarray Q) (b h w c : nat) :
  shape a = [S b; h; w; c] ->
  take_first_image a = Ok (NdArray [h; w; c] (take (numel [h; w; c]) (data a))).
Proof.
  intros Hs. unfold take_first_image, getitem0. rewrite Hs.
  destruct (decide _) as [_|Hn]; [reflexivity | by contradiction Hn].
Qed.

Lemma take_first_image_empty_batch (a : ndarray Q) (h w c : nat) :
  shape a = [0; h; w; c] -> take_first_image a = Raise IndexOutOfBounds.
Proof.
  intros Hs. unfold take_first_image, getitem0. rewrite Hs.
  destruct (decide _) as [_|Hn]; [reflexivity | by contradiction Hn].
Qed.

Lemma take_first_image_other (a : ndarray Q) :
  length (shape a) <> 4 -> take_first_image a = Ok a.
Proof. intros Hn. unfold take_first_image. by destruct (decide _). Qed.

Lemma reduce_channels_shape (a : ndarray Q) :
  shape (reduce_channels a)
  = match shape a with
    | [h; w; c] => if decide (c = 3 \/ c = 1) then [h; w] else [h; w; c]
    | s => s
    end.
Proof.
  unfold reduce_channels, rgb_to_gray, squeeze_last, add, scale, channel.
  destruct a as [[|h [|w [|c [|d s]]]] xs]; cbn [shape length]; try reflexivity.
  destruct (decide (3 = 3)) as [_|]; [|done]. cbn [lookup list_lookup].
  destruct (decide (Some c = Some 3)) as [[= ->]|H3]; [reflexivity|].
  destruct (decide (Some c = Some 1)) as [[= ->]|H1]; [reflexivity|].
  cbn [shape]. destruct (decide (c = 3 \/ c = 1)) as [[->| ->]|]; done.
Qed.

Lemma reduce_channels_length (a : ndarray Q) (h w c : nat) :
  shape a = [h; w; c] -> c = 3 \/ c = 1 -> well_shaped a ->
  length (data (reduce_channels a)) = h * w.
Proof.
  unfold well_shaped. destruct a as [s xs]. cbn [shape data]. intros -> Hc Hl.
  unfold reduce_channels, rgb_to_gray, squeeze_last, add, scale, channel.
  cbn [shape length lookup list_lookup].
  destruct (decide (3 = 3)) as [_|]; [|done].
  destruct Hc as [-> | ->].
  - destruct (decide (Some 3 = Some 3)) as [_|]; [|done]. cbn [data shape].
    rewrite !length_zip_with, !length_fmap, !length_seq. lia.
  - destruct (decide (Some 1 = Some 3)) as [|_]; [done|].
    destruct (decide (Some 1 = Some 1)) as [_|]; [|done]. cbn [data].
    rewrite Hl. cbn. lia.
Qed.

Lemma reduce_channels_2d (a : ndarray Q) :
  length (shape a) = 2 -> reduce_channels a = a.
Proof.
  intros H2. unfold reduce_channels. destruct (decide _) as [H3|_]; [lia|done].
Qed.

Lemma amax_ok (a : ndarray Q) :
  0 < length (data a) -> exists m, amax a = Ok m.
Proof.
  unfold amax. destruct (data a); cbn; [lia|]. eauto.
Qed.

Section ArrayFacts.

Variable resize28 : ndarray Z -> option (ndarray Z).
Hypothesis resampler_ok : resampler_contract resize28.

(** From a 2-dimensional image with at least one pixel to the output. *)
Lemma finish_2d (a : ndarray Q) (h w : nat) :
  shape a = [h; w] -> 0 < h -> 0 < w -> length (data a) = h * w ->
  exists a1 a2,
    resize_if_needed resize28 a = Ok a1 /\ normalize_if_needed a1 = Ok a2
    /\ reshape model_shape a2 = Ok (NdArray model_shape (data a2)).
Proof.
  intros Hs Hh Hw Hl.
  assert (exists a1, resize_if_needed resize28 a = Ok a1 /\ length (data a1) = 784)
    as (a1 & E1 & Hl1).
  { unfold resize_if_needed. destruct (decide (shape a ≠ [28; 28])) as [_|He].
    - destruct (resized_ok resize28 resampler_ok (astype_uint8 a) h w)
        as (small & E & _ & Hlen & _); [done..|].
      rewrite E. cbn. eexists. split; [reflexivity|]. cbn. by rewrite length_fmap.
    - apply dec_stable in He. rewrite Hs in He. inversion He; subst.
      exists a. split; [reflexivity | exact Hl]. }
  destruct (amax_ok a1) as [m Em]; [lia|].
  exists a1. eexists. split; [exact E1|].
  split; [unfold normalize_if_needed; rewrite Em; reflexivity|].
  apply reshape_ok.
  destruct (Qlt_bool 1 m); cbn; rewrite ?length_fmap; lia.
Qed.

Lemma array_total (a : ndarray Q) :
  valid_array a -> exists out, preprocess_image_from_array resize28 a = Ok out.
Proof.
  intros (Hwf & Hred & Hpos).
  assert (exists a1 h w, take_first_image a = Ok a1
            /\ check_2d (reduce_channels a1) = Ok (reduce_channels a1)
            /\ shape (reduce_channels a1) = [h; w] /\ 0 < h /\ 0 < w
            /\ length (data (reduce_channels a1)) = h * w)
    as (a1 & h & w & E1 & E2 & Hs & Hh & Hw & Hl).
  { unfold well_shaped in Hwf.
    destruct a as [[|d1 [|d2 [|d3 [|d4 [|d5 s]]]]] xs]; cbn [shape data] in *;
      try discriminate.
    - (* (h, w) *)
      exists (NdArray [d1; d2] xs), d1, d2.
      apply Forall_cons in Hpos as [? Hpos]. apply Forall_cons in Hpos as [? _].
      rewrite take_first_image_other, reduce_channels_2d by (cbn; lia).
      repeat split; try done. cbn [data]. by rewrite Hwf, numel_2.
    - (* (h, w, c) *)
      exists (NdArray [d1; d2; d3] xs), d1, d2.
      apply Forall_cons in Hpos as [? Hpos]. apply Forall_cons in Hpos as [? _].
      assert (Hc : d3 = 3 \/ d3 = 1).
      { cbn in Hred. apply orb_true_iff in Hred as [Hc|Hc];
          apply Nat.eqb_eq in Hc; auto. }
      rewrite take_first_image_other by (cbn; lia).
      assert (Hs2 : shape (reduce_channels (NdArray [d1; d2; d3] xs)) = [d1; d2]).
      { rewrite reduce_channels_shape. cbn. by destruct (decide _). }
      unfold check_2d. rewrite Hs2. destruct (decide _) as [Hn|_]; [by contradiction Hn|].
      repeat split; try done. by apply (reduce_channels_length _ d1 d2 d3).
    - (* (batch, h, w, c) *)
      destruct d1 as [|b]; [discriminate|].
      assert (Hc0 : (d4 =? 1) || (d4 =? 3) = true) by exact Hred.
      apply Forall_cons in Hpos as [_ Hpos].
      apply Forall_cons in Hpos as [? Hpos]. apply Forall_cons in Hpos as [? _].
      assert (Hc : d4 = 3 \/ d4 = 1).
      { apply orb_true_iff in Hc0 as [Hc|Hc]; apply Nat.eqb_eq in Hc; auto. }
      eexists _, d2, d3.
      rewrite (take_first_image_batch _ b d2 d3 d4) by reflexivity.
      split; [reflexivity|].
      set (a1 := NdArray [d2; d3; d4] _).
      assert (Hs2 : shape (reduce_channels a1) = [d2; d3]).
      { rewrite reduce_channels_shape. cbn. by destruct (decide _). }
      unfold check_2d. rewrite Hs2. destruct (decide _) as [Hn|_]; [by contradiction Hn|].
      repeat split; try done. apply (reduce_channels_length _ d2 d3 d4); [done..|].
      unfold well_shaped, a1. cbn [data shape]. rewrite length_take.
      cbn in Hwf |- *. nia. }
  destruct (finish_2d _ h w Hs Hh Hw Hl) as (a2 & a3 & E3 & E4 & E5).
  unfold preprocess_image_from_array.
  rewrite E1. cbn [mbind result_bind]. rewrite E2. cbn [mbind result_bind].
  rewrite E3. cbn [mbind result_bind]. rewrite E4. cbn [mbind result_bind].
  rewrite E5. by eexists.
Qed.

End ArrayFacts.

(** *** The stand-ins keep the contracts *)

Lemma resize_nearest_contract : resampler_contract resize_nearest.
Proof.
  split.
  - intros a out. unfold resize_nearest.
    destruct (shape a) as [|h [|w [|]]]; try discriminate.
    destruct (decide _); [|discriminate]. intros E.
    assert (E' : out = NdArray [28; 28]
      ((fun i => Z.max 0 (Z.min 255
           (nth ((i / 28 * h / 28) * w + (i mod 28) * w / 28) (data a) 0%Z)))
       <$> seq 0 784)) by congruence.
    clear E. subst out. cbn [shape data].
    split; [reflexivity|]. split; [by rewrite length_fmap, length_seq|].
    apply Forall_fmap, Forall_forall. intros i _. unfold compose, is_uint8. lia.
  - intros a h w Hs Hh Hw. unfold resize_nearest. rewrite Hs.
    destruct (decide (0 < h /\ 0 < w)); [by eexists | tauto].
Qed.

Lemma open_raw_contract : decoder_contract open_raw.
Proof.
  intros image_bytes image. unfold open_raw.
  destruct image_bytes as [|b bs]; [discriminate|]. intros E.
  assert (E' : image = NdArray [1; length (b :: bs)]
    ((fun b => Z.of_N (Byte.to_N b)) <$> (b :: bs))) by congruence.
  clear E. subst image.
  exists 1, (length (b :: bs)). cbn [shape data].
  split; [reflexivity|]. split; [lia|]. split; [cbn; lia|].
  apply Forall_fmap, Forall_forall. intros x _. unfold compose, is_uint8.
  pose proof (Byte.to_N_bounded x). lia.
Qed.

Section Shape.

Variable open_gray : list Byte.byte -> option (ndarray Z).
Variable resize28 : ndarray Z -> option (ndarray Z).
Variable b64decode : string -> option (list Byte.byte).

Lemma base64_total (s payload : string) (image_bytes : list Byte.byte) :
  decoder_contract open_gray -> resampler_contract resize28 ->
  strip_data_uri s = Ok payload -> b64decode payload = Some image_bytes ->
  is_Some (open_gray image_bytes) ->
  exists out, preprocess_image_from_base64 open_gray resize28 b64decode s = Ok out.
Proof.
  intros Hd Hr Hs Hb [image Hi].
  destruct (bytes_total open_gray resize28 Hd Hr image_bytes image Hi) as [out E].
  exists out. unfold preprocess_image_from_base64.
  rewrite Hs. cbn. rewrite Hb. cbn. by rewrite E.
Qed.

(** C2. Whenever a preprocessing function returns, from raw bytes, from a
    base64 string, from an array or from strokes, its output has shape
    (1, 28, 28, 1) and holds 784 samples; and it does return on every valid
    input: bytes that Pillow opens, a base64 string whose payload decodes to
    such bytes, an array that reduces to a 2-dimensional image with at
    least one pixel, and any drawing on a canvas of positive size. *)
Theorem output_shape :
  decoder_contract open_gray ->
  resampler_contract resize28 ->
  (forall image_bytes,
     (forall out, preprocess_image_from_bytes open_gray resize28 image_bytes = Ok out ->
        shape out = [1; 28; 28; 1] /\ well_shaped out)
     /\ (is_Some (open_gray image_bytes) ->
         exists out, preprocess_image_from_bytes open_gray resize28 image_bytes = Ok out))
  /\ (forall s,
        (forall out,
           preprocess_image_from_base64 open_gray resize28 b64decode s = Ok out ->
           shape out = [1; 28; 28; 1] /\ well_shaped out)
        /\ (forall payload image_bytes,
              strip_data_uri s = Ok payload ->
              b64decode payload = Some image_bytes ->
              is_Some (open_gray image_bytes) ->
              exists out,
                preprocess_image_from_base64 open_gray resize28 b64decode s = Ok out))
  /\ (forall a,
        (forall out, preprocess_image_from_array resize28 a = Ok out ->
           shape out = [1; 28; 28; 1] /\ well_shaped out)
        /\ (valid_array a ->
            exists out, preprocess_image_from_array resize28 a = Ok out))
  /\ (forall strokes canvas_size,
        (forall out, preprocess_stroke_data resize28 strokes canvas_size = Ok out ->
           shape out = [1; 28; 28; 1] /\ well_shaped out)
        /\ ((0 < canvas_size)%Z ->
            exists out, preprocess_stroke_data resize28 strokes canvas_size = Ok out)).
Proof.
  intros Hd Hr. split; [|split; [|split]].
  - intros image_bytes. split; [apply bytes_shape|].
    intros [image Hi]. by eapply bytes_total.
  - intros s. split; [apply base64_shape|]. intros payload image_bytes.
    by apply base64_total.
  - intros a. split; [apply array_shape | by apply array_total].
  - intros strokes canvas_size. split; [apply stroke_shape | by apply stroke_total].
Qed.

End Shape.

Lemma output_shape_witness :
  decoder_contract open_raw
  /\ resampler_contract resize_nearest
  /\ (exists out,
        preprocess_image_from_array resize_nearest (full [2; 2; 3] 128%Q) = Ok out
        /\ shape out = [1; 28; 28; 1])
  /\ (exists out,
        preprocess_stroke_data resize_nearest [[(0, 0); (27, 27)]%Q] 28 = Ok out
        /\ shape out = [1; 28; 28; 1])
  /\ (exists out,
        preprocess_image_from_base64 open_raw resize_nearest
          (fun s => Some (list_byte_of_string s)) "data:image/png;base64,iVBORw0KG"
        = Ok out
        /\ shape out = [1; 28; 28; 1]).
Proof.
  pose proof (output_shape open_raw resize_nearest
                (fun s => Some (list_byte_of_string s))
                open_raw_contract resize_nearest_contract)
    as (_ & Hbase64 & Harray & Hstroke).
  split; [exact open_raw_contract|]. split; [exact resize_nearest_contract|].
  split; [|split].
  - destruct (Harray (full [2; 2; 3] 128%Q)) as [Hshape Htotal].
    destruct Htotal as [out E].
    { split; [reflexivity|]. split; [reflexivity|]. repeat constructor. }
    exists out. split; [exact E|]. by apply Hshape.
  - destruct (Hstroke [[(0, 0); (27, 27)]%Q] 28%Z) as [Hshape Htotal].
    destruct Htotal as [out E]; [lia|].
    exists out. split; [exact E|]. by apply Hshape.
  - destruct (Hbase64 "data:image/png;base64,iVBORw0KG"%string) as [Hshape Htotal].
    destruct (Htotal "iVBORw0KG"%string (list_byte_of_string "iVBORw0KG"))
      as [out E]; [reflexivity | reflexivity | by eexists |].
    exists out. split; [exact E|]. by apply Hshape.
Defined.

(** *** Which inputs the shape check refuses *)

Section ShapeCheck.

Variable resize28 : ndarray Z -> option (ndarray Z).

Lemma preprocess_image_from_array_stages (a : ndarray Q) :
  preprocess_image_from_array resize28 a
  = try_except StageArray (
      (take_first_image a ≫= fun a1 => check_2d (reduce_channels a1))
      ≫= after_check resize28).
Proof.
  unfold preprocess_image_from_array. by destruct (take_first_image a).
Qed.

Lemma after_check_errors (a : ndarray Q) (e : exn) :
  after_check resize28 a = Raise e ->
  e = ImagingError \/ e = ZeroSizeReduction \/ e = ReshapeError.
Proof.
  unfold after_check, resize_if_needed, normalize_if_needed, amax, reshape.
  destruct (decide (shape a ≠ [28; 28])).
  - destruct (resize28 (astype_uint8 a)) as [img|]; cbn; [|intros [= <-]; auto].
    destruct (inject_Z <$> data img); cbn; [intros [= <-]; auto|].
    destruct (decide _); [discriminate | intros [= <-]; auto].
  - cbn. destruct (data a); cbn; [intros [= <-]; auto|].
    destruct (decide _); [discriminate | intros [= <-]; auto].
Qed.

Lemma check_reduced_3d (a : ndarray Q) (h w c : nat) :
  shape a = [h; w; c] ->
  check_2d (reduce_channels a)
  = if decide (c = 3 \/ c = 1) then Ok (reduce_channels a)
    else Raise (CannotProcessShape [h; w; c]).
Proof.
  intros Hs. unfold check_2d. rewrite reduce_channels_shape, Hs.
  destruct (decide (c = 3 \/ c = 1)); cbn [length].
  - destruct (decide (2 ≠ 2)); done.
  - destruct (decide (3 ≠ 2)); [reflexivity | lia].
Qed.

Lemma check_reduced_other (a : ndarray Q) :
  length (shape a) <> 2 -> length (shape a) <> 3 ->
  check_2d (reduce_channels a) = Raise (CannotProcessShape (shape a)).
Proof.
  intros H2 H3. unfold check_2d, reduce_channels.
  destruct (decide (length (shape a) = 3)); [done|].
  destruct (decide (length (shape a) ≠ 2)); [reflexivity | lia].
Qed.

Lemma check_reduced_2d (a : ndarray Q) :
  length (shape a) = 2 -> check_2d (reduce_channels a) = Ok a.
Proof.
  intros H2. rewrite reduce_channels_2d by done. unfold check_2d.
  destruct (decide _); [lia | reflexivity].
Qed.

(** The outcome of lines 92-108, shape by shape. *)
Lemma reduction_outcome (a : ndarray Q) :
  let reduced := take_first_image a ≫= fun a1 => check_2d (reduce_channels a1) in
  match shape a with
  | [_; _] => reduced = Ok a
  | [h; w; c] =>
      if decide (c = 3 \/ c = 1) then exists a2, reduced = Ok a2
      else reduced = Raise (CannotProcessShape [h; w; c])
  | [b; h; w; c] =>
      match b with
      | 0 => reduced = Raise IndexOutOfBounds
      | S _ =>
          if decide (c = 3 \/ c = 1) then exists a2, reduced = Ok a2
          else reduced = Raise (CannotProcessShape [h; w; c])
      end
  | s => reduced = Raise (CannotProcessShape s)
  end.
Proof.
  cbv zeta.
  destruct (shape a) as [|d1 [|d2 [|d3 [|d4 [|d5 s]]]]] eqn:Hs; lazy beta iota.
  - rewrite take_first_image_other by (rewrite Hs; cbn; lia). cbn [mbind result_bind].
    rewrite check_reduced_other by (rewrite Hs; cbn; lia). rewrite Hs. reflexivity.
  - rewrite take_first_image_other by (rewrite Hs; cbn; lia). cbn [mbind result_bind].
    rewrite check_reduced_other by (rewrite Hs; cbn; lia). rewrite Hs. reflexivity.
  - rewrite take_first_image_other by (rewrite Hs; cbn; lia). cbn [mbind result_bind].
    apply check_reduced_2d. by rewrite Hs.
  - rewrite take_first_image_other by (rewrite Hs; cbn; lia). cbn [mbind result_bind].
    rewrite (check_reduced_3d a d1 d2 d3 Hs). destruct (decide _); eauto.
  - destruct d1 as [|b].
    + by rewrite (take_first_image_empty_batch a d2 d3 d4).
    + rewrite (take_first_image_batch a b d2 d3 d4 Hs). cbn [mbind result_bind].
      rewrite (check_reduced_3d _ d2 d3 d4) by reflexivity.
      destruct (decide _); eauto.
  - rewrite take_first_image_other by (rewrite Hs; cbn; lia). cbn [mbind result_bind].
    rewrite check_reduced_other by (rewrite Hs; cbn; lia). rewrite Hs. reflexivity.
Qed.

Lemma channels_dec (c : nat) :
  (c =? 1) || (c =? 3) = bool_decide (c = 3 \/ c = 1).
Proof.
  destruct (decide (c = 3 \/ c = 1)) as [H|H].
  - rewrite bool_decide_eq_true_2 by done. destruct H as [-> | ->]; reflexivity.
  - rewrite bool_decide_eq_false_2 by done.
    apply orb_false_iff. split; apply Nat.eqb_neq; lia.
Qed.

(** C8. The array normaliser fails because of the shape of its input (the
    explicit check "Cannot process image with shape ...", or the index
    error on a batch that holds no image) exactly when the input cannot be
    reduced to 2 dimensions: it has neither 2 dimensions, nor 3 dimensions
    with a last one of 1 or 3, nor 4 dimensions with a first image of that
    kind. An input that can be reduced never fails in this way. *)
Theorem shape_error_iff_not_reducible (a : ndarray Q) :
  (exists e, preprocess_image_from_array resize28 a = Raise e
             /\ is_shape_error e = true)
  <-> reducible_to_2d (shape a) = false.
Proof.
  rewrite preprocess_image_from_array_stages.
  pose proof (reduction_outcome a) as Hred. cbv zeta in Hred.
  assert (Hgood : forall a2,
    ~ exists e, try_except StageArray (Ok a2 ≫= after_check resize28) = Raise e
                /\ is_shape_error e = true).
  { intros a2 (e & He & Hse). cbn [mbind result_bind] in He.
    destruct (after_check resize28 a2) as [|e'] eqn:Ha; [discriminate|].
    cbn in He. inversion He; subst.
    apply after_check_errors in Ha as [-> | [-> | ->]]; discriminate. }
  assert (Hbad : forall e', is_shape_error (Failed StageArray e') = true ->
    exists e, try_except StageArray (Raise e' ≫= after_check resize28) = Raise e
              /\ is_shape_error e = true) by (intros e' He'; eexists; eauto).
  destruct (shape a) as [|d1 [|d2 [|d3 [|d4 [|d5 s]]]]] eqn:Hs; cbn [reducible_to_2d].
  - rewrite Hred. split; [done | intros _; by apply Hbad].
  - rewrite Hred. split; [done | intros _; by apply Hbad].
  - rewrite Hred. split; [intros H; by apply Hgood in H | done].
  - rewrite channels_dec. destruct (decide (d3 = 3 \/ d3 = 1)) as [Hc|Hc].
    + destruct Hred as [a2 ->]. rewrite bool_decide_eq_true_2 by done.
      split; [intros H; by apply Hgood in H | done].
    + rewrite Hred, bool_decide_eq_false_2 by done.
      split; [done | intros _; by apply Hbad].
  - destruct d1 as [|b].
    + rewrite Hred. cbn. split; [done | intros _; by apply Hbad].
    + cbn [Nat.ltb Nat.leb andb]. rewrite channels_dec.
      destruct (decide (d4 = 3 \/ d4 = 1)) as [Hc|Hc].
      * destruct Hred as [a2 ->]. rewrite bool_decide_eq_true_2 by done.
        split; [intros H; by apply Hgood in H | done].
      * rewrite Hred, bool_decide_eq_false_2 by done.
        split; [done | intros _; by apply Hbad].
  - rewrite Hred. split; [done | intros _; by apply Hbad].
Qed.


Lemma getitem0_rank (x first : ndarray Q) :
  length (shape x) = 4 -> getitem0 x = Ok first -> length (shape first) = 3.
Proof.
  unfold getitem0. destruct (shape x) as [|[|n] rest]; try discriminate.
  intros Hl E. inversion E; subst. cbn in Hl |- *. lia.
Qed.

Lemma preprocess_batch (x : ndarray Q) :
  length (shape x) = 4 ->
  preprocess_image_from_array resize28 x
  = match getitem0 x with
    | Ok first => preprocess_image_from_array resize28 first
    | Raise e => Raise (Failed StageArray e)
    end.
Proof.
  intros Hl. rewrite preprocess_image_from_array_stages.
  unfold take_first_image at 1. destruct (decide _) as [_|]; [|done].
  destruct (getitem0 x) as [first|e] eqn:E; [|reflexivity].
  rewrite preprocess_image_from_array_stages.
  rewrite (take_first_image_other first); [reflexivity|].
  rewrite (getitem0_rank x first Hl E). lia.
Qed.

(** C10. Of a 4-dimensional input only the first image is used: the output
    is the output for the sub-array at batch index 0 (and the index error
    of that sub-array when the batch holds no image), and two batches with
    the same first image have the same output. *)
Theorem first_image_of_batch (a : ndarray Q) :
  length (shape a) = 4 ->
  preprocess_image_from_array resize28 a
  = match getitem0 a with
    | Ok first => preprocess_image_from_array resize28 first
    | Raise e => Raise (Failed StageArray e)
    end
  /\ (forall b h w c,
        shape a = [S b; h; w; c] ->
        getitem0 a = Ok (NdArray [h; w; c] (take (h * (w * (c * 1))) (data a))))
  /\ (forall a',
        length (shape a') = 4 -> getitem0 a' = getitem0 a ->
        preprocess_image_from_array resize28 a'
        = preprocess_image_from_array resize28 a).
Proof.
  intros Hl. split; [by apply preprocess_batch|]. split.
  - intros b h w c Hs. unfold getitem0. by rewrite Hs.
  - intros a' Hl' E. rewrite (preprocess_batch a' Hl'), (preprocess_batch a Hl).
    by rewrite E.
Qed.

End ShapeCheck.

Lemma first_image_of_batch_witness :
  length (shape (NdArray [2; 1; 1; 1] [7; 9]%Q)) = 4
  /\ preprocess_image_from_array resize_nearest (NdArray [2; 1; 1; 1] [7; 9]%Q)
     = preprocess_image_from_array resize_nearest (NdArray [1; 1; 1] [7]%Q)
  /\ preprocess_image_from_array resize_nearest (NdArray [3; 1; 1; 1] [7; 1; 2]%Q)
     = preprocess_image_from_array resize_nearest (NdArray [2; 1; 1; 1] [7; 9]%Q).
Proof.
  assert (H0 : length (shape (NdArray [2; 1; 1; 1] [7; 9]%Q)) = 4) by reflexivity.
  destruct (first_image_of_batch resize_nearest _ H0) as (H1 & _ & H2).
  split; [exact H0|]. split; [exact H1|].
  exact (H2 (NdArray [3; 1; 1; 1] [7; 1; 2]%Q) eq_refl eq_refl).
Defined.

(** *** The range of the samples *)



Section Range.

Variable resize28 : ndarray Z -> option (ndarray Z).

(** A 28 x 28 raster goes through lines 110-121 without being resized, and
    is divided by 255 exactly when its maximum exceeds 1. *)
Lemma after_check_28 (a : ndarray Q) (m : Q) :
  shape a = [28; 28] -> well_shaped a -> amax a = Ok m ->
  after_check resize28 a
  = Ok (NdArray model_shape
          (if Qlt_bool 1 m then (fun v => v / 255)%Q <$> data a else data a)).
Proof.
  intros Hs Hwf Em. unfold after_check, resize_if_needed.
  destruct (decide (shape a ≠ [28; 28])); [done|]. cbn [mbind result_bind].
  unfold normalize_if_needed. rewrite Em. cbn [mbind result_bind].
  unfold well_shaped in Hwf. rewrite Hs in Hwf.
  rewrite reshape_ok; destruct (Qlt_bool 1 m); cbn [data div255];
    rewrite ?length_fmap; done.
Qed.


Lemma preprocess_28 (a : ndarray Q) :
  shape a = [28; 28] ->
  preprocess_image_from_array resize28 a
  = try_except StageArray (after_check resize28 a).
Proof.
  intros Hs. rewrite preprocess_image_from_array_stages.
  rewrite take_first_image_other by (rewrite Hs; cbn; lia). cbn [mbind result_bind].
  rewrite check_reduced_2d by (by rewrite Hs). reflexivity.
Qed.



(** C4 fails on the array route. A 28 x 28 array with every sample 300 is
    not resized, its maximum exceeds 1, and each sample of the output is
    300 / 255, which is greater than 1. *)
Theorem array_output_above_one :
  preprocess_image_from_array resize28 (full [28; 28] 300%Q)
  = Ok (full [1; 28; 28; 1] (300 # 255)%Q)
  /\ (1 < 300 # 255)%Q.
Proof.
  split; [|reflexivity].
  rewrite preprocess_28 by reflexivity.
  rewrite (after_check_28 _ 300%Q) by reflexivity.
  vm_compute. reflexivity.
Qed.

End Range.



(** ** The data-URI prefix *)

Lemma split1_first_comma (s : string) :
  contains comma s = true ->
  exists prefix payload,
    split1 comma s = [prefix; payload] /\ first_comma_split s prefix payload.
Proof.
  unfold first_comma_split.
  induction s as [|a s IH]; cbn [contains split1]; [discriminate|].
  destruct (Ascii.eqb a comma) eqn:Ea.
  - intros _. apply Ascii.eqb_eq in Ea as ->. exists EmptyString, s. auto.
  - cbn [orb]. intros Hs. destruct (IH Hs) as (prefix & payload & E & -> & Hp).
    exists (String a prefix), payload. rewrite E. cbn [contains String.append].
    rewrite Ea, Hp. auto.
Qed.

Lemma strip_data_uri_spec (s : string) :
  strips_when (contains comma s && startswith "data:" s) s (strip_data_uri s).
Proof.
  unfold strips_when, strip_data_uri.
  destruct (contains comma s) eqn:Hc; cbn [andb]; [|reflexivity].
  destruct (startswith "data:" s); [|reflexivity].
  destruct (split1_first_comma s Hc) as (prefix & payload & E & Hsplit).
  exists prefix, payload. by rewrite E.
Qed.

Lemma detector_strip_spec (s : string) :
  strips_when (contains comma s) s (detector_strip s).
Proof.
  unfold strips_when, detector_strip.
  destruct (contains comma s) eqn:Hc; [|reflexivity].
  destruct (split1_first_comma s Hc) as (prefix & payload & E & Hsplit).
  exists prefix, payload. by rewrite E.
Qed.

(** C7, as amended. In the sketch service a string that starts with
    "data:" and contains a comma is cut after its first comma, and every
    other string is left as it is; the base64 decoder is then run on the
    result, and the bytes it gives are preprocessed. In the detector every
    string that contains a comma is cut after its first comma, whether or
    not it starts with a data-URI prefix, and a string without a comma is
    left as it is; the decoder is run on the result. *)
Theorem data_uri_prefix_stripping
  (open_gray open_rgb : list Byte.byte -> option (ndarray Z))
  (resize28 : ndarray Z -> option (ndarray Z))
  (b64decode : string -> option (list Byte.byte)) (s : string) :
  strips_when (contains comma s && startswith "data:" s) s (strip_data_uri s)
  /\ (forall payload,
        strip_data_uri s = Ok payload ->
        preprocess_image_from_base64 open_gray resize28 b64decode s
        = match b64decode payload with
          | Some image_bytes =>
              try_except StageBase64
                (preprocess_image_from_bytes open_gray resize28 image_bytes)
          | None => Raise (Failed StageBase64 Base64Error)
          end)
  /\ strips_when (contains comma s) s (detector_strip s)
  /\ (forall payload,
        detector_strip s = Ok payload ->
        decode_base64_image open_rgb b64decode s
        = match b64decode payload with
          | Some image_bytes =>
              try_except StageDetector (
                image ← or_raise ImagingError (open_rgb image_bytes);
                match shape image with
                | [height; width; _] => Ok (image, width, height)
                | _ => Raise ImagingError
                end)
          | None => Raise (Failed StageDetector Base64Error)
          end).
Proof.
  split; [apply strip_data_uri_spec|]. split.
  - intros payload E. unfold preprocess_image_from_base64. rewrite E.
    cbn [mbind result_bind]. by destruct (b64decode payload).
  - split; [apply detector_strip_spec|].
    intros payload E. unfold decode_base64_image. rewrite E.
    cbn [mbind result_bind]. by destruct (b64decode payload).
Qed.

(** C7 as stated fails in the detector: a string with a comma and without
    any data-URI prefix is not decoded unchanged, it is cut after the
    comma. The sketch service leaves the same string as it is. *)
Lemma detector_strips_without_prefix :
  startswith "data:" "QUJD,REVG" = false
  /\ contains ":"%char "QUJD,REVG" = false
  /\ detector_strip "QUJD,REVG" = Ok "REVG"%string
  /\ strip_data_uri "QUJD,REVG" = Ok "QUJD,REVG"%string.
Proof. repeat split. Qed.

(** *** Where the output does stay in [0, 1] *)

Lemma amax_upper (a : ndarray Q) (m : Q) :
  amax a = Ok m -> Forall (fun v => (v <= m)%Q) (data a).
Proof.
  unfold amax. destruct (data a) as [|v vs]; [discriminate|].
  intros E. inversion E as [Em]. clear E Em.
  assert (H : forall vs v,
    (v <= foldl (fun m x => if Qlt_bool m x then x else m) v vs)%Q
    /\ Forall (fun x => (x <= foldl (fun m x => if Qlt_bool m x then x else m) v vs)%Q) vs).
  { clear. induction vs as [|x vs IH]; intros v; cbn [foldl].
    - split; [apply Qle_refl | constructor].
    - destruct (IH (if Qlt_bool v x then x else v)) as [H1 H2].
      assert (Hv : (v <= (if Qlt_bool v x then x else v))%Q
                   /\ (x <= (if Qlt_bool v x then x else v))%Q).
      { destruct (Qlt_bool v x) eqn:E.
        - apply Qlt_bool_iff in E. split; [by apply Qlt_le_weak | apply Qle_refl].
        - split; [apply Qle_refl|]. apply Qnot_lt_le. intros Hlt.
          apply Qlt_bool_iff in Hlt. congruence. }
      destruct Hv as [Hv Hx]. split; [by eapply Qle_trans|].
      constructor; [by eapply Qle_trans | exact H2]. }
  destruct (H vs v) as [H1 H2]. by constructor.
Qed.

Lemma div255_in_unit (v : Q) : in_byte_range v -> in_unit (v / 255).
Proof.
  unfold in_byte_range, in_unit, Qdiv. intros [H0 H1].
  change (/ 255)%Q with (1 # 255)%Q. split; lra.
Qed.

Lemma to_float_in_byte_range (zs : list Z) :
  Forall is_uint8 zs -> Forall in_byte_range (inject_Z <$> zs).
Proof.
  intros H. apply Forall_fmap. eapply Forall_impl; [exact H|].
  intros z [Hz0 Hz1]. unfold compose, in_byte_range.
  split; [change 0%Q with (inject_Z 0) | change 255%Q with (inject_Z 255)];
    by rewrite <- Zle_Qle.
Qed.

Lemma scaled_image_in_unit (image : ndarray Z) :
  Forall is_uint8 (data image) -> Forall in_unit (data (div255 (to_float image))).
Proof.
  intros H. cbn [div255 to_float data]. apply Forall_fmap.
  eapply Forall_impl; [exact (to_float_in_byte_range _ H)|].
  intros v Hv. by apply div255_in_unit.
Qed.

Lemma normalize_in_unit (a out : ndarray Q) :
  Forall in_byte_range (data a) -> normalize_if_needed a = Ok out ->
  Forall in_unit (data out).
Proof.
  intros Hr. unfold normalize_if_needed. intros H.
  apply bind_Ok in H as (m & Em & H). inversion H; subst. clear H.
  destruct (Qlt_bool 1 m) eqn:Hm.
  - cbn [div255 data]. apply Forall_fmap.
    eapply Forall_impl; [exact Hr|]. intros v Hv. by apply div255_in_unit.
  - assert (Hm1 : (m <= 1)%Q).
    { apply Qnot_lt_le. intros Hlt. apply Qlt_bool_iff in Hlt. congruence. }
    pose proof (amax_upper a m Em) as Hup.
    rewrite Forall_forall in Hr, Hup. apply Forall_forall. intros v Hv.
    destruct (Hr v Hv) as [H0 _]. split; [exact H0|].
    eapply Qle_trans; [by apply Hup | exact Hm1].
Qed.

Lemma nth_in_byte_range (xs : list Q) (i : nat) :
  Forall in_byte_range xs -> in_byte_range (nth i xs 0%Q).
Proof.
  intros H. destruct (nth_in_or_default i xs 0%Q) as [Hin | ->].
  - rewrite Forall_forall in H. apply H. by apply list_elem_of_In.
  - split; [apply Qle_refl | discriminate].
Qed.

Lemma rgb_to_gray_in_byte_range (a : ndarray Q) (h w : nat) :
  shape a = [h; w; 3] -> Forall in_byte_range (data a) ->
  Forall in_byte_range (data (rgb_to_gray a)).
Proof.
  intros Hs Hr. unfold rgb_to_gray, add, scale, channel. rewrite Hs.
  cbn [data shape].
  rewrite <- !list_fmap_compose.
  repeat first [rewrite zip_with_fmap_l | rewrite zip_with_fmap_r
               | rewrite zip_with_diag].
  apply Forall_fmap, Forall_forall. intros i _. unfold compose.
  pose proof (nth_in_byte_range (data a) (i * 3 + 0) Hr) as [? ?].
  pose proof (nth_in_byte_range (data a) (i * 3 + 1) Hr) as [? ?].
  pose proof (nth_in_byte_range (data a) (i * 3 + 2) Hr) as [? ?].
  split; lra.
Qed.

Lemma reduce_channels_in_byte_range (a : ndarray Q) :
  Forall in_byte_range (data a) -> Forall in_byte_range (data (reduce_channels a)).
Proof.
  intros Hr. unfold reduce_channels.
  destruct (decide (length (shape a) = 3)) as [H3|]; [|exact Hr].
  destruct (decide (shape a !! 2 = Some 3)) as [Hc|].
  - destruct (shape a) as [|h [|w [|c [|]]]] eqn:Hs; try discriminate.
    cbn in Hc. inversion Hc; subst. by apply (rgb_to_gray_in_byte_range a h w).
  - destruct (decide _); exact Hr.
Qed.

Section UnitRange.

Variable open_gray : list Byte.byte -> option (ndarray Z).
Variable resize28 : ndarray Z -> option (ndarray Z).
Variable b64decode : string -> option (list Byte.byte).
Hypothesis resampler_ok : resampler_contract resize28.

Lemma resized_uint8 (a out : ndarray Z) :
  resize28 a = Some out -> Forall is_uint8 (data out).
Proof. intros E. destruct resampler_ok as [H _]. by apply (H a out E). Qed.

(** The bytes route divides [uint8] samples by 255. *)
Lemma bytes_in_unit (image_bytes : list Byte.byte) (out : ndarray Q) :
  preprocess_image_from_bytes open_gray resize28 image_bytes = Ok out ->
  Forall in_unit (data out).
Proof.
  unfold preprocess_image_from_bytes. intros H. apply try_except_Ok in H.
  apply bind_Ok in H as (image & _ & H). apply bind_Ok in H as (small & Es & H).
  apply reshape_shape in H as (_ & _ & ->).
  apply scaled_image_in_unit. destruct (resize28 image) eqn:E; [|discriminate].
  inversion Es; subst. by apply (resized_uint8 image).
Qed.

Lemma base64_in_unit (s : string) (out : ndarray Q) :
  preprocess_image_from_base64 open_gray resize28 b64decode s = Ok out ->
  Forall in_unit (data out).
Proof.
  unfold preprocess_image_from_base64. intros H. apply try_except_Ok in H.
  apply bind_Ok in H as (payload & _ & H). apply bind_Ok in H as (bs & _ & H).
  by apply bytes_in_unit in H.
Qed.

Lemma stroke_in_unit (strokes : list (list point)) (canvas_size : Z) (out : ndarray Q) :
  preprocess_stroke_data resize28 strokes canvas_size = Ok out ->
  Forall in_unit (data out).
Proof.
  unfold preprocess_stroke_data. intros H. apply try_except_Ok in H.
  apply bind_Ok in H as (canvas & _ & H). apply bind_Ok in H as (small & Es & H).
  apply reshape_shape in H as (_ & _ & ->).
  apply scaled_image_in_unit. destruct (resize28 canvas) eqn:E; [|discriminate].
  inversion Es; subst. by apply (resized_uint8 canvas).
Qed.

(** The array route keeps [0, 1] for an input on the 8-bit scale. *)
Lemma array_in_unit (a out : ndarray Q) :
  Forall in_byte_range (data a) ->
  preprocess_image_from_array resize28 a = Ok out ->
  Forall in_unit (data out).
Proof.
  intros Hr. unfold preprocess_image_from_array. intros H.
  apply try_except_Ok in H.
  apply bind_Ok in H as (a1 & E1 & H). apply bind_Ok in H as (a2 & E2 & H).
  apply bind_Ok in H as (a3 & E3 & H). apply bind_Ok in H as (a4 & E4 & H).
  apply reshape_shape in H as (_ & _ & ->).
  assert (Hr1 : Forall in_byte_range (data a1)).
  { unfold take_first_image, getitem0 in E1.
    destruct (decide _); [|by inversion E1; subst].
    destruct (shape a) as [|[|b] rest]; try discriminate.
    inversion E1; subst. cbn [data]. by apply Forall_take. }
  assert (Hr2 : Forall in_byte_range (data a2)).
  { unfold check_2d in E2. destruct (decide _); [discriminate|].
    inversion E2; subst. by apply reduce_channels_in_byte_range. }
  assert (Hr3 : Forall in_byte_range (data a3)).
  { unfold resize_if_needed in E3. destruct (decide _); [|by inversion E3; subst].
    destruct (resize28 (astype_uint8 a2)) as [small|] eqn:E; [|discriminate].
    inversion E3; subst. apply to_float_in_byte_range.
    by apply (resized_uint8 (astype_uint8 a2)). }
  by apply (normalize_in_unit a3).
Qed.

End UnitRange.

(** ** The canvas of a whole drawing *)

Lemma existsb_Permutation {A} (f : A -> bool) (l k : list A) :
  l ≡ₚ k -> existsb f l = existsb f k.
Proof.
  induction 1 as [|x l k _ IH|x y l|l k m _ IH1 _ IH2]; cbn.
  - reflexivity.
  - by rewrite IH.
  - by destruct (f x), (f y).
  - by rewrite IH1.
Qed.

Lemma existsb_app_idemp {A} (f : A -> bool) (l : list A) :
  existsb f (l ++ l) = existsb f l.
Proof. rewrite existsb_app. by destruct (existsb f l). Qed.

(** Two canvases of side [n] with the same cells are the same array. *)
Lemma canvas_ext (n : nat) (cv cv' : ndarray Z) :
  canvas_ok n cv -> canvas_ok n cv' ->
  (forall r c, r < n -> c < n -> getitem2 cv r c = getitem2 cv' r c) ->
  cv = cv'.
Proof.
  intros Hcv Hcv' Hcells. pose proof Hcv as [Hs Hl]. pose proof Hcv' as [Hs' Hl'].
  destruct cv as [s xs], cv' as [s' xs']. cbn [shape data] in *. subst s s'.
  f_equal. apply list_eq. intros i.
  destruct (decide (i < n * n)) as [Hi|Hi].
  - assert (Hn : 0 < n) by (destruct n; lia).
    assert (Hc : i mod n < n) by (apply Nat.mod_upper_bound; lia).
    assert (Hr : i / n < n) by (apply Nat.Div0.div_lt_upper_bound; lia).
    specialize (Hcells (i / n) (i mod n) Hr Hc).
    rewrite !(getitem2_canvas n) in Hcells by done. cbn [data] in Hcells.
    replace (i / n * n + i mod n) with i in Hcells; [exact Hcells|].
    rewrite (Nat.div_mod_eq i n) at 1. lia.
  - rewrite !lookup_ge_None_2 by lia. reflexivity.
Qed.




Lemma rasterize_same_marks (strokes strokes' : list (list point)) (canvas_size : Z) :
  (forall r c, existsb (stroke_marks canvas_size r c) strokes
               = existsb (stroke_marks canvas_size r c) strokes') ->
  rasterize strokes canvas_size = rasterize strokes' canvas_size.
Proof.
  intros Hmarks. destruct (Z.lt_ge_cases canvas_size 0) as [Hneg|Hpos].
  - unfold rasterize. by destruct (Z.ltb_spec canvas_size 0); [|lia].
  - destruct (rasterize_spec strokes canvas_size) as (cv & E & Hcv & Hc); [lia|].
    destruct (rasterize_spec strokes' canvas_size) as (cv' & E' & Hcv' & Hc'); [lia|].
    rewrite E, E'. f_equal. apply (canvas_ext _ cv cv' Hcv Hcv').
    intros r c Hr Hcol. by rewrite Hc, Hc', Hmarks.
Qed.

(** X2. The canvas depends on which strokes are drawn, not on their order
    nor on how often one is drawn: a drawing and any reordering of it give
    the same canvas (or the same failure), and so does a drawing drawn
    twice. *)
Theorem rasterize_order_irrelevant
  (strokes strokes' : list (list point)) (canvas_size : Z) :
  strokes ≡ₚ strokes' ->
  rasterize strokes canvas_size = rasterize strokes' canvas_size
  /\ rasterize (strokes ++ strokes) canvas_size = rasterize strokes canvas_size.
Proof.
  intros Hp. split; apply rasterize_same_marks; intros r c.
  - by apply existsb_Permutation.
  - apply existsb_app_idemp.
Qed.

Lemma rasterize_order_irrelevant_witness :
  [[(0, 0); (27, 27)]; [(3, 9); (5, 1); (20, 2)]]%Q
    ≡ₚ [[(3, 9); (5, 1); (20, 2)]; [(0, 0); (27, 27)]]%Q
  /\ rasterize [[(0, 0); (27, 27)]; [(3, 9); (5, 1); (20, 2)]]%Q 28
     = rasterize [[(3, 9); (5, 1); (20, 2)]; [(0, 0); (27, 27)]]%Q 28.
Proof.
  assert (Hp : [[(0, 0); (27, 27)]; [(3, 9); (5, 1); (20, 2)]]%Q
                 ≡ₚ [[(3, 9); (5, 1); (20, 2)]; [(0, 0); (27, 27)]]%Q)
    by apply Permutation_swap.
  split; [exact Hp|].
  exact (proj1 (rasterize_order_irrelevant _ _ 28 Hp)).
Defined.

(** X3. [_interpolate_points] outside its intended range: with
    [num_points = 0] the first division raises [ZeroDivisionError]; with a
    negative [num_points] the loop does not run and the list is empty,
    whatever the end points. *)
Theorem interpolate_points_degenerate (x1 y1 x2 y2 : Q) (num_points : Z) :
  (num_points < 0)%Z ->
  _interpolate_points x1 y1 x2 y2 num_points = Ok []
  /\ _interpolate_points x1 y1 x2 y2 0 = Raise ZeroDivisionError.
Proof.
  intros Hn. split; [|reflexivity].
  unfold _interpolate_points, range.
  replace (Z.to_nat (num_points + 1)) with 0 by lia. reflexivity.
Qed.

Lemma interpolate_points_degenerate_witness :
  (-3 < 0)%Z
  /\ _interpolate_points 0 0 27 27 (-3) = Ok []
  /\ _interpolate_points 0 0 27 27 0 = Raise ZeroDivisionError.
Proof.
  assert (H : (-3 < 0)%Z) by lia. split; [exact H|].
  exact (interpolate_points_degenerate 0 0 27 27 (-3) H).
Defined.

(** *** How many cells a drawing can mark *)

Lemma filter_insert_length {A} (P : A -> Prop) `{forall x, Decision (P x)}
  (l : list A) (i : nat) (x : A) :
  length (filter P (<[i:=x]> l)) <= S (length (filter P l)).
Proof.
  revert i. induction l as [|y l IH]; intros i.
  { replace (<[i:=x]> []) with (@nil A) by (by destruct i).
    rewrite filter_nil. cbn. lia. }
  destruct i as [|i]; cbn [list_insert insert];
    rewrite !filter_cons.
  - destruct (decide (P x)), (decide (P y)); cbn [length]; lia.
  - specialize (IH i).
    destruct (decide (P y)); cbn [length]; [apply le_n_S|]; exact IH.
Qed.

Lemma plot_lit (canvas_size : Z) (cv cv' : ndarray Z) (p : point) :
  plot canvas_size cv p = Ok cv' -> lit_cells cv' <= S (lit_cells cv).
Proof.
  unfold plot, setitem2, lit_cells. destruct (on_canvas canvas_size p).
  - destruct (shape cv) as [|h [|w [|]]]; try discriminate.
    destruct (decide _); [|discriminate]. intros E.
    inversion E; subst cv'. cbn [data]. apply filter_insert_length.
  - intros E. assert (cv' = cv) by congruence. subst. lia.
Qed.

Lemma plot_all_lit (canvas_size : Z) (pts : list point) (cv cv' : ndarray Z) :
  for_each (plot canvas_size) pts cv = Ok cv' ->
  lit_cells cv' <= lit_cells cv + length pts.
Proof.
  revert cv. induction pts as [|p pts IH]; intros cv; cbn [for_each length].
  - intros E. assert (cv' = cv) by congruence. subst. lia.
  - destruct (plot canvas_size cv p) as [cv1|] eqn:E1; [|discriminate].
    intros E. apply IH in E. apply plot_lit in E1. lia.
Qed.

Lemma draw_segment_lit (canvas_size : Z) (cv cv' : ndarray Z) (p1 p2 : point) :
  draw_segment canvas_size cv p1 p2 = Ok cv' ->
  lit_cells cv' <= lit_cells cv + 11.
Proof.
  unfold draw_segment. rewrite interpolate_points_lerp by done.
  cbn [mbind result_bind]. intros E. apply plot_all_lit in E.
  rewrite length_fmap, parameters_length in E. exact E.
Qed.

Lemma draw_segments_lit (canvas_size : Z) (segs : list (point * point))
  (cv cv' : ndarray Z) :
  for_each (fun cv s => draw_segment canvas_size cv (fst s) (snd s)) segs cv = Ok cv' ->
  lit_cells cv' <= lit_cells cv + 11 * length segs.
Proof.
  revert cv. induction segs as [|s segs IH]; intros cv; cbn [for_each length].
  - intros E. assert (cv' = cv) by congruence. subst. lia.
  - destruct (draw_segment canvas_size cv (fst s) (snd s)) as [cv1|] eqn:E1;
      [|discriminate].
    intros E. apply IH in E. apply draw_segment_lit in E1. lia.
Qed.

Lemma draw_stroke_lit (canvas_size : Z) (cv cv' : ndarray Z) (stroke : list point) :
  draw_stroke canvas_size cv stroke = Ok cv' ->
  lit_cells cv' <= lit_cells cv + 11 * (length stroke - 1).
Proof.
  destruct (decide (length stroke < 2)) as [Hs|Hl].
  - rewrite draw_stroke_short by done. intros E.
    assert (cv' = cv) by congruence. subst. lia.
  - rewrite draw_stroke_walk by lia. intros E.
    apply draw_segments_lit in E. by rewrite segments_length in E.
Qed.

Lemma segment_count_cons (s : list point) (strokes : list (list point)) :
  segment_count (s :: strokes) = (length s - 1) + segment_count strokes.
Proof. reflexivity. Qed.

Lemma draw_strokes_lit (canvas_size : Z) (strokes : list (list point))
  (cv cv' : ndarray Z) :
  for_each (draw_stroke canvas_size) strokes cv = Ok cv' ->
  lit_cells cv' <= lit_cells cv + 11 * segment_count strokes.
Proof.
  revert cv. induction strokes as [|s strokes IH]; intros cv; cbn [for_each].
  - intros E. assert (cv' = cv) by congruence. subst. lia.
  - destruct (draw_stroke canvas_size cv s) as [cv1|] eqn:E1; [|discriminate].
    intros E. apply IH in E. apply draw_stroke_lit in E1.
    rewrite segment_count_cons. lia.
Qed.

(** X4. A segment marks at most 11 cells however long it is, so a drawing
    marks at most 11 cells for each pair of consecutive points: the number
    of cells that hold 255 is at most 11 times the number of segments. *)
Theorem rasterize_marks_bounded
  (strokes : list (list point)) (canvas_size : Z) (cv : ndarray Z) :
  rasterize strokes canvas_size = Ok cv ->
  lit_cells cv <= 11 * segment_count strokes.
Proof.
  unfold rasterize. destruct (canvas_size <? 0)%Z; [discriminate|].
  intros E. apply draw_strokes_lit in E.
  assert (Hz : lit_cells (zeros [Z.to_nat canvas_size; Z.to_nat canvas_size]) = 0).
  { unfold lit_cells, zeros. cbn [data].
    generalize (numel [Z.to_nat canvas_size; Z.to_nat canvas_size]).
    induction n as [|n IH]; [reflexivity|]. cbn [replicate].
    rewrite filter_cons. destruct (decide (0%Z = 255%Z)); [discriminate | exact IH]. }
  lia.
Qed.

Lemma rasterize_marks_bounded_witness :
  exists cv,
    rasterize [[(0, 0); (200, 200)]%Q] 256 = Ok cv
    /\ lit_cells cv <= 11 * segment_count [[(0, 0); (200, 200)]%Q].
Proof.
  destruct (rasterize_spec [[(0, 0); (200, 200)]%Q] 256) as (cv & E & _);
    [lia|].
  exists cv. split; [exact E|].
  exact (rasterize_marks_bounded _ _ cv E).
Defined.

(** ** More on the normalisation pipeline *)

Section Routes.

Variable open_gray : list Byte.byte -> option (ndarray Z).
Variable resize28 : ndarray Z -> option (ndarray Z).
Variable b64decode : string -> option (list Byte.byte).

(** X5. On the bytes, base64 and stroke routes every sample of an output
    lies in [0, 1]: these routes divide the [uint8] samples of the resized
    image by 255. *)
Theorem image_routes_in_unit_range :
  resampler_contract resize28 ->
  (forall image_bytes out,
     preprocess_image_from_bytes open_gray resize28 image_bytes = Ok out ->
     Forall in_unit (data out))
  /\ (forall s out,
        preprocess_image_from_base64 open_gray resize28 b64decode s = Ok out ->
        Forall in_unit (data out))
  /\ (forall strokes canvas_size out,
        preprocess_stroke_data resize28 strokes canvas_size = Ok out ->
        Forall in_unit (data out)).
Proof.
  intros Hr. split; [|split].
  - intros image_bytes out. by apply bytes_in_unit.
  - intros s out. by apply (base64_in_unit open_gray resize28 b64decode).
  - intros strokes canvas_size out. by apply stroke_in_unit.
Qed.

(** X6. The array route keeps its output in [0, 1] when every sample of
    the input lies in [0, 255], whatever the shape of the input. *)
Theorem array_route_in_unit_range (a out : ndarray Q) :
  resampler_contract resize28 ->
  Forall in_byte_range (data a) ->
  preprocess_image_from_array resize28 a = Ok out ->
  Forall in_unit (data out).
Proof. intros Hr Ha E. by apply (array_in_unit resize28 Hr a out). Qed.

(** X7. The base64 route succeeds exactly when the stripped string decodes
    and Pillow opens the bytes. When the decoding fails the failure is the
    base64 stage's wrapping of the codec's error; when Pillow does not open
    the bytes it is the base64 stage's wrapping of the bytes stage's own
    failure, so the message carries both prefixes. *)
Theorem base64_route_outcome (s : string) :
  decoder_contract open_gray ->
  resampler_contract resize28 ->
  exists payload,
    strip_data_uri s = Ok payload
    /\ ((exists out,
           preprocess_image_from_base64 open_gray resize28 b64decode s = Ok out)
        <-> exists image_bytes,
              b64decode payload = Some image_bytes
              /\ is_Some (open_gray image_bytes))
    /\ (b64decode payload = None ->
        preprocess_image_from_base64 open_gray resize28 b64decode s
        = Raise (Failed StageBase64 Base64Error))
    /\ (forall image_bytes,
          b64decode payload = Some image_bytes ->
          open_gray image_bytes = None ->
          preprocess_image_from_base64 open_gray resize28 b64decode s
          = Raise (Failed StageBase64 (Failed StageBytes ImagingError))).
Proof.
  intros Hd Hr.
  assert (exists payload, strip_data_uri s = Ok payload) as [payload Hp].
  { pose proof (strip_data_uri_spec s) as H. unfold strips_when in H.
    destruct (_ && _); [destruct H as (? & p & _ & ->)|]; eauto. }
  exists payload. split; [exact Hp|].
  unfold preprocess_image_from_base64. rewrite Hp. cbn [mbind result_bind].
  split; [|split].
  - split.
    + intros [out E]. destruct (b64decode payload) as [bs|]; [|discriminate].
      exists bs. split; [reflexivity|]. cbn [or_raise mbind result_bind] in E.
      apply try_except_Ok in E. unfold preprocess_image_from_bytes in E.
      destruct (open_gray bs); [by eexists | discriminate].
    + intros (bs & Hb & Ho). rewrite Hb. cbn [or_raise mbind result_bind].
      destruct Ho as [image Hi].
      destruct (bytes_total open_gray resize28 Hd Hr bs image Hi) as [out E].
      exists out. by rewrite E.
  - intros ->. reflexivity.
  - intros bs -> Ho. cbn [or_raise mbind result_bind].
    unfold preprocess_image_from_bytes. by rewrite Ho.
Qed.


End Routes.

Lemma image_routes_in_unit_range_witness :
  resampler_contract resize_nearest
  /\ exists out,
       preprocess_stroke_data resize_nearest [[(0, 0); (27, 27)]%Q] 28 = Ok out
       /\ Forall in_unit (data out).
Proof.
  pose proof (image_routes_in_unit_range open_raw resize_nearest
                (fun s => Some (list_byte_of_string s)) resize_nearest_contract)
    as (_ & _ & Hstroke).
  split; [exact resize_nearest_contract|].
  destruct (stroke_total resize_nearest resize_nearest_contract
              [[(0, 0); (27, 27)]%Q] 28) as [out E]; [lia|].
  exists out. split; [exact E|]. exact (Hstroke _ _ out E).
Defined.

Lemma array_route_in_unit_range_witness :
  resampler_contract resize_nearest
  /\ Forall in_byte_range (data (full [2; 2; 3] 128%Q))
  /\ exists out,
       preprocess_image_from_array resize_nearest (full [2; 2; 3] 128%Q) = Ok out
       /\ Forall in_unit (data out).
Proof.
  assert (Ha : Forall in_byte_range (data (full [2; 2; 3] 128%Q))).
  { unfold full. cbn [data]. apply Forall_replicate. split; discriminate. }
  split; [exact resize_nearest_contract|]. split; [exact Ha|].
  destruct (array_total resize_nearest resize_nearest_contract (full [2; 2; 3] 128%Q))
    as [out E].
  { split; [reflexivity|]. split; [reflexivity|]. repeat constructor. }
  exists out. split; [exact E|].
  exact (array_route_in_unit_range resize_nearest _ out
           resize_nearest_contract Ha E).
Defined.

Lemma base64_route_outcome_witness :
  decoder_contract open_raw
  /\ resampler_contract resize_nearest
  /\ exists payload,
       strip_data_uri "data:image/png;base64,iVBORw0KG" = Ok payload
       /\ ((exists out,
              preprocess_image_from_base64 open_raw resize_nearest
                (fun s => Some (list_byte_of_string s))
                "data:image/png;base64,iVBORw0KG" = Ok out)
           <-> exists image_bytes,
                 (fun s => Some (list_byte_of_string s)) payload = Some image_bytes
                 /\ is_Some (open_raw image_bytes)).
Proof.
  split; [exact open_raw_contract|]. split; [exact resize_nearest_contract|].
  destruct (base64_route_outcome open_raw resize_nearest
              (fun s => Some (list_byte_of_string s))
              "data:image/png;base64,iVBORw0KG"
              open_raw_contract resize_nearest_contract)
    as (payload & Hp & Hiff & _).
  exists payload. split; [exact Hp | exact Hiff].
Defined.


(** ** Failures of the ranking, and the batch *)

Lemma mapM_cons {A B} (f : A -> result B) (x : A) (l : list A) :
  mapM f (x :: l)
  = match f x with
    | Ok y => match mapM f l with
              | Ok k => Ok (y :: k)
              | Raise e => Raise e
              end
    | Raise e => Raise e
    end.
Proof. cbn. destruct (f x); [|reflexivity]. cbn. by destruct (mapM f l). Qed.

Lemma mapM_Ok_Forall2 {A B} (f : A -> result B) (l : list A) (k : list B) :
  mapM f l = Ok k <-> Forall2 (fun x y => f x = Ok y) l k.
Proof.
  revert k. induction l as [|x l IH]; intros k.
  - split.
    + intros E. inversion E. constructor.
    + intros H. by inversion H.
  - rewrite mapM_cons. split.
    + destruct (f x) as [y|e] eqn:Ex; [|discriminate].
      destruct (mapM f l) as [k'|e'] eqn:El; [|discriminate].
      intros E. inversion E; subst. constructor; [exact Ex|]. by apply IH.
    + intros H. inversion H as [|? y ? k' Hy Hk]; subst.
      apply IH in Hk. by rewrite Hy, Hk.
Qed.

Lemma mapM_one_error {A B} (f : A -> result B) (l : list A) (e e' : exn) :
  (forall x e0, f x = Raise e0 -> e0 = e) -> mapM f l = Raise e' -> e' = e.
Proof.
  intros Hf. induction l as [|x l IH]; [discriminate|].
  rewrite mapM_cons. destruct (f x) as [y|e0] eqn:Ex.
  - destruct (mapM f l) as [k|e1]; [discriminate|].
    intros E. inversion E; subst. by apply IH.
  - intros E. inversion E; subst. by apply (Hf x).
Qed.

Lemma entry_error (v : list Q) (idx : nat) (e : exn) :
  entry v idx = Raise e -> e = IndexOutOfBounds.
Proof.
  unfold entry. destruct (class_names !! idx); cbn; [|congruence].
  destruct (v !! idx); cbn; congruence.
Qed.

Lemma entry_Ok_iff (v : list Q) (idx : nat) :
  idx < length v ->
  (exists p, entry v idx = Ok p) <-> idx < length class_names.
Proof.
  intros Hidx. unfold entry.
  destruct (lookup_lt_is_Some_2 v idx Hidx) as [p Hp]. rewrite Hp. split.
  - intros [q E]. apply lookup_lt_is_Some.
    destruct (class_names !! idx); [by eexists | discriminate].
  - intros Hn. destruct (lookup_lt_is_Some_2 class_names idx Hn) as [name ->].
    by eexists.
Qed.

Lemma top_indices_in_range (v : list Q) (k : option Z) (idx : nat) :
  idx ∈ top_indices v k -> idx < length v.
Proof.
  unfold top_indices. rewrite slice_to_take. intros Hin.
  by apply (ranking_prefix v (slice_length k (length (reverse (argsort v))))).
Qed.

Lemma rank_Ok_iff (v : list Q) (k : option Z) :
  (exists ranked, rank v k = Ok ranked)
  <-> Forall (fun idx => idx < length class_names) (top_indices v k).
Proof.
  unfold rank. split.
  - intros [ranked E]. apply mapM_Ok_Forall2 in E.
    apply Forall_forall. intros idx Hin.
    apply list_elem_of_lookup in Hin as [i Hi].
    destruct (Forall2_lookup_l _ _ _ _ _ E Hi) as (p & _ & Hp).
    apply (entry_Ok_iff v idx); [|by eexists].
    apply (top_indices_in_range v k). by eapply list_elem_of_lookup_2.
  - intros Hall. exists (entry_of v <$> top_indices v k).
    apply mapM_Ok. intros idx Hin.
    pose proof (top_indices_in_range v k idx Hin) as Hlt.
    rewrite Forall_forall in Hall. specialize (Hall idx Hin).
    unfold entry, entry_of, value.
    destruct (lookup_lt_is_Some_2 class_names idx Hall) as [name Hname].
    destruct (lookup_lt_is_Some_2 v idx Hlt) as [p Hp].
    rewrite (nth_lookup_Some _ _ _ _ Hname), (nth_lookup_Some _ _ _ _ Hp).
    rewrite Hname, Hp. reflexivity.
Qed.

Lemma rank_error (v : list Q) (k : option Z) (e : exn) :
  rank v k = Raise e -> e = IndexOutOfBounds.
Proof. unfold rank. apply mapM_one_error. apply entry_error. Qed.

(** X9. When [predict] fails. It raises the shape error exactly when the
    image is not of shape (1, 28, 28, 1), whatever the network and
    [top_k]. Otherwise it fails only with an index error, and exactly when
    one of the [top_k] best indices has no class name: a network with more
    outputs than the 49 names is served as long as none of the outputs
    past the 49th ranks among the best [top_k]. *)
Theorem predict_failures
  (model : ndarray Q -> list Q) (image : ndarray Q) (k : option Z) :
  (shape image <> [1; 28; 28; 1] ->
   predict model image k = Raise (InputShapeError (shape image)))
  /\ (shape image = [1; 28; 28; 1] ->
      ((exists ranked, predict model image k = Ok ranked)
       <-> Forall (fun idx => idx < 49) (top_indices (model image) k))
      /\ forall e, predict model image k = Raise e -> e = IndexOutOfBounds).
Proof.
  split.
  - intros Hs. unfold predict. by destruct (decide _).
  - intros Hs. rewrite (predict_rank model image k Hs). split.
    + apply rank_Ok_iff.
    + apply rank_error.
Qed.

Section Batch.

Variable model_predict : ndarray Q -> list (list Q).

(** X10. [predict_batch] returns one ranking for each row of the network's
    output, in the order of the rows, and each is the ranking of that row
    alone; it succeeds exactly when every row can be ranked. It checks the
    shape of nothing: the images matter only through the network's
    output. *)
Theorem predict_batch_rows (images : ndarray Q) (k : option Z) :
  (forall rankings,
     predict_batch model_predict images k = Ok rankings
     <-> Forall2 (fun row ranked => rank row k = Ok ranked)
           (model_predict images) rankings)
  /\ (forall rankings,
        predict_batch model_predict images k = Ok rankings ->
        length rankings = length (model_predict images))
  /\ (forall images',
        model_predict images' = model_predict images ->
        predict_batch model_predict images' k
        = predict_batch model_predict images k)
  /\ (Forall (fun row => length row <= 49) (model_predict images) ->
      predict_batch model_predict images k
      = Ok ((fun row =>
               entry_of row
               <$> take (slice_length k (length row)) (reverse (argsort row)))
            <$> model_predict images)).
Proof.
  split; [|split; [|split]].
  - intros rankings. apply mapM_Ok_Forall2.
  - intros rankings E. apply mapM_Ok_Forall2 in E.
    symmetry. by eapply Forall2_length.
  - intros images' E. unfold predict_batch. by rewrite E.
  - intros Hall. apply mapM_Ok. intros row Hrow.
    rewrite Forall_forall in Hall. by apply rank_take, Hall.
Qed.

(** X11. For one image of shape (1, 28, 28, 1), for which the network
    gives one row, [predict_batch] returns the one-element list of what
    [predict] returns, and fails as [predict] fails. *)
Theorem predict_batch_single (image : ndarray Q) (v : list Q) (k : option Z) :
  shape image = [1; 28; 28; 1] ->
  model_predict image = [v] ->
  predict_batch model_predict image k
  = match predict (fun _ => v) image k with
    | Ok ranked => Ok [ranked]
    | Raise e => Raise e
    end.
Proof.
  intros Hs Hv. rewrite (predict_rank _ image k Hs).
  unfold predict_batch. rewrite Hv. cbn. by destruct (rank v k).
Qed.

End Batch.

Lemma predict_batch_single_witness :
  shape (full model_shape 0%Q) = [1; 28; 28; 1]
  /\ (fun _ : ndarray Q => [[1 # 10; 7 # 10; 2 # 10]%Q]) (full model_shape 0%Q)
     = [[1 # 10; 7 # 10; 2 # 10]%Q]
  /\ predict_batch (fun _ => [[1 # 10; 7 # 10; 2 # 10]%Q]) (full model_shape 0%Q)
       (Some 2%Z)
     = Ok [[Prediction "dog" (7 # 10) "70.00%"; Prediction "bird" (2 # 10) "20.00%"]].
Proof.
  assert (H0 : shape (full model_shape 0%Q) = [1; 28; 28; 1]) by reflexivity.
  assert (H1 : (fun _ : ndarray Q => [[1 # 10; 7 # 10; 2 # 10]%Q]) (full model_shape 0%Q)
               = [[1 # 10; 7 # 10; 2 # 10]%Q]) by reflexivity.
  split; [exact H0|]. split; [exact H1|].
  rewrite (predict_batch_single (fun _ => [[1 # 10; 7 # 10; 2 # 10]%Q])
             (full model_shape 0%Q) _ (Some 2%Z) H0 H1).
  reflexivity.
Defined.

(** A network with 50 outputs: served while the 50th output is not among
    the best [top_k], refused with the index error of [class_names] when it
    is. *)
Example predict_fifty_outputs :
  predict (fun _ => replicate 49 (1 # 100)%Q ++ [0%Q]) (full model_shape 0%Q)
    (Some 1%Z)
  = Ok [Prediction "crown" (1 # 100) "1.00%"]
  /\ predict (fun _ => replicate 49 (1 # 100)%Q ++ [(1 # 2)%Q]) (full model_shape 0%Q)
       (Some 1%Z)
     = Raise IndexOutOfBounds.
Proof. split; vm_compute; reflexivity. Qed.

(** ** The object detector *)

Lemma for_each_or_app {E A S} (f : S -> A -> E + S) (xs ys : list A) (acc : S) :
  for_each_or f (xs ++ ys) acc
  = match for_each_or f xs acc with
    | inr acc' => for_each_or f ys acc'
    | inl e => inl e
    end.
Proof.
  revert acc. induction xs as [|x xs IH]; intros acc; [reflexivity|].
  cbn. destruct (f acc x); [reflexivity | apply IH].
Qed.

Lemma for_each_or_concat {E A S} (f : S -> A -> E + S) (xss : list (list A)) (acc : S) :
  for_each_or (fun acc xs => for_each_or f xs acc) xss acc
  = for_each_or f (concat xss) acc.
Proof.
  revert acc. induction xss as [|xs xss IH]; intros acc; [reflexivity|].
  cbn [for_each_or concat]. rewrite for_each_or_app.
  destruct (for_each_or f xs acc); [reflexivity | apply IH].
Qed.

Lemma Qint_truncates (x : Q) : truncates x (Qint x).
Proof.
  destruct x as [n d]. unfold truncates, Qint, Qle, Qlt, Qminus, Qplus, Qopp.
  cbn [Qnum Qden inject_Z].
  pose proof (Z.quot_rem' n (Z.pos d)) as Hqr.
  split; intros Hx.
  - assert (Hn : (0 <= n)%Z) by lia.
    pose proof (Z.rem_bound_pos n (Z.pos d) Hn ltac:(lia)). nia.
  - assert (Hn : (n <= 0)%Z) by lia.
    destruct (Z.eq_dec n 0%Z) as [->|Hne].
    + rewrite Z.quot_0_l by lia. lia.
    + pose proof (Z.rem_bound_pos (- n) (Z.pos d) ltac:(lia) ltac:(lia)) as Hb.
      rewrite Z.rem_opp_l in Hb by lia. nia.
Qed.

Lemma round_half_even_close (q : Q) :
  (q - (1 # 2) <= inject_Z (round_half_even q)
   /\ inject_Z (round_half_even q) <= q + (1 # 2))%Q.
Proof.
  unfold round_half_even.
  pose proof (Qfloor_le q) as Hlo. pose proof (Qlt_floor q) as Hhi.
  rewrite inject_Z_plus in Hhi. change (inject_Z 1) with 1%Q in Hhi.
  set (f := Qfloor q) in *.
  destruct (Qlt_bool (q - inject_Z f) (1 # 2)) eqn:E1.
  - apply Qlt_bool_iff in E1. split; lra.
  - assert (H1 : ((1 # 2) <= q - inject_Z f)%Q).
    { apply Qnot_lt_le. intros Hlt. apply Qlt_bool_iff in Hlt. congruence. }
    destruct (Qlt_bool (1 # 2) (q - inject_Z f)) eqn:E2.
    + rewrite inject_Z_plus. change (inject_Z 1) with 1%Q. split; lra.
    + assert (H2 : (q - inject_Z f <= 1 # 2)%Q).
      { apply Qnot_lt_le. intros Hlt. apply Qlt_bool_iff in Hlt. congruence. }
      destruct (Z.even f).
      * split; lra.
      * rewrite inject_Z_plus. change (inject_Z 1) with 1%Q. split; lra.
Qed.

Lemma round2_hundredths (c : Q) : hundredths c (round2 c).
Proof.
  unfold hundredths, round2.
  pose proof (round_half_even_close (c * 100)) as [Hlo Hhi].
  set (z := round_half_even (c * 100)) in *.
  unfold Qdiv. change (/ 100)%Q with (1 # 100)%Q.
  split; [split; lra|]. split; [by exists z|].
  intros [H0 H1].
  assert (Hz0 : (0 <= z)%Z).
  { assert (H : (- (1 # 2) <= inject_Z z)%Q) by lra.
    unfold Qle in H. cbn in H. lia. }
  assert (Hz1 : (z <= 100)%Z).
  { assert (H : (inject_Z z <= 100 + (1 # 2))%Q) by lra.
    unfold Qle in H. cbn in H. lia. }
  assert (H0' : (0 <= inject_Z z)%Q) by (change 0%Q with (inject_Z 0); by rewrite <- Zle_Qle).
  assert (H1' : (inject_Z z <= 100)%Q) by (change 100%Q with (inject_Z 100); by rewrite <- Zle_Qle).
  split; lra.
Qed.

Section DetectionLoop.

Variable names : gmap Z string.

Lemma add_detection_named (acc : list Detector.detection) (b : Detector.box) :
  named names b ->
  Detector.add_detection names acc b = inr (acc ++ [report names b]).
Proof.
  intros [name Hn]. unfold Detector.add_detection, report.
  destruct b as [[[[bx1 by1] bx2] by2] c k]. cbn [Detector.xyxy Detector.conf Detector.cls].
  unfold class_id in *. cbn [Detector.cls] in *. by rewrite Hn.
Qed.

Lemma add_detection_unnamed (acc : list Detector.detection) (b : Detector.box) :
  names !! class_id b = None ->
  Detector.add_detection names acc b = inl (Detector.KeyError (class_id b)).
Proof.
  intros Hn. unfold Detector.add_detection.
  destruct b as [[[[bx1 by1] bx2] by2] c k]. cbn [Detector.xyxy Detector.conf Detector.cls].
  unfold class_id in *. cbn [Detector.cls] in *. by rewrite Hn.
Qed.

Lemma add_detections_named (boxes : list Detector.box) (acc : list Detector.detection) :
  Forall (named names) boxes ->
  for_each_or (Detector.add_detection names) boxes acc
  = inr (acc ++ (report names <$> boxes)).
Proof.
  intros Hall. revert acc. induction Hall as [|b boxes Hb _ IH]; intros acc.
  - cbn. by rewrite app_nil_r.
  - cbn [for_each_or]. rewrite add_detection_named by done.
    rewrite IH. by rewrite <- app_assoc.
Qed.

Lemma add_detections_unnamed
  (before after : list Detector.box) (b : Detector.box) (acc : list Detector.detection) :
  Forall (named names) before -> names !! class_id b = None ->
  for_each_or (Detector.add_detection names) (before ++ b :: after) acc
  = inl (Detector.KeyError (class_id b)).
Proof.
  intros Hall Hb. rewrite for_each_or_app, add_detections_named by done.
  cbn [for_each_or]. by rewrite add_detection_unnamed.
Qed.

Lemma dual_add_detections_named (boxes : list Detector.box) (acc : list Detector.detection) :
  Forall (named names) boxes ->
  for_each_or (Dual.add_detection names) boxes acc
  = inr (acc ++ (report_unrounded names <$> boxes)).
Proof.
  intros Hall. revert acc. induction Hall as [|b boxes Hb _ IH]; intros acc.
  - cbn. by rewrite app_nil_r.
  - cbn [for_each_or]. destruct Hb as [name Hn].
    assert (E : Dual.add_detection names acc b = inr (acc ++ [report_unrounded names b])).
    { unfold Dual.add_detection, report_unrounded.
      destruct b as [[[[bx1 by1] bx2] by2] c k].
      cbn [Detector.xyxy Detector.conf Detector.cls].
      unfold class_id in *. cbn [Detector.cls] in *. by rewrite Hn. }
    rewrite E, IH. by rewrite <- app_assoc.
Qed.

Lemma report_located (b : Detector.box) :
  named names b -> located names b (report names b).
Proof.
  intros [name Hn]. unfold located, report.
  cbn [Detector.class Detector.x1 Detector.y1 Detector.x2 Detector.y2].
  rewrite Hn. cbn [default].
  split; [reflexivity|]. split; [apply Qint_truncates|].
  split; [apply Qint_truncates|]. split; apply Qint_truncates.
Qed.

End DetectionLoop.

Section YOLO.

Variable open_rgb : list Byte.byte -> option (ndarray Z).
Variable b64decode : string -> option (list Byte.byte).
Variable model : ndarray Z -> Q -> option (list (list Detector.box)).
Variable names : gmap Z string.
Variable threshold : Q.

Lemma detect_objects_results (image : ndarray Z) (results : list (list Detector.box)) :
  model image threshold = Some results ->
  Detector.detect_objects model names threshold image
  = match for_each_or (Detector.add_detection names) (concat results) [] with
    | inr detections => inr detections
    | inl e => inl (Detector.RuntimeError e)
    end.
Proof.
  intros E. unfold Detector.detect_objects. by rewrite E, for_each_or_concat.
Qed.

(** X12. The outcome of [detect_objects]. When the network answers and the
    class of every box has a name, there is one detection for each box,
    in the order of the results and of their boxes. When the network
    raises, or as soon as the class of one box has no name, the whole call
    raises the [RuntimeError] of line 113: no detection of the other boxes
    is returned. *)
Theorem detect_objects_outcome (image : ndarray Z) :
  (model image threshold = None ->
   Detector.detect_objects model names threshold image
   = inl (Detector.RuntimeError Detector.ModelError))
  /\ forall results,
       model image threshold = Some results ->
       (Forall (named names) (concat results) ->
        Detector.detect_objects model names threshold image
        = inr (report names <$> concat results))
       /\ (forall before b after,
             concat results = before ++ b :: after ->
             Forall (named names) before ->
             names !! class_id b = None ->
             Detector.detect_objects model names threshold image
             = inl (Detector.RuntimeError (Detector.KeyError (class_id b)))).
Proof.
  split.
  - intros E. unfold Detector.detect_objects. by rewrite E.
  - intros results E. rewrite (detect_objects_results image results E). split.
    + intros Hall. by rewrite add_detections_named.
    + intros before b after Hc Hall Hb. rewrite Hc.
      by rewrite add_detections_unnamed.
Qed.

(** X13. How close a detection is to its box. Every detection returned
    names the class of its box; its confidence is the confidence of the
    box rounded to hundredths, at most 0.005 away from it and within [0, 1]
    when the box's is; each coordinate is the coordinate of the box with
    its fraction dropped, towards zero and less than one pixel away. *)
Theorem detections_accurate
  (image : ndarray Z) (results : list (list Detector.box))
  (detections : list Detector.detection) :
  model image threshold = Some results ->
  Detector.detect_objects model names threshold image = inr detections ->
  Forall2
    (fun b d =>
       located names b d /\ hundredths (Detector.conf b) (Detector.confidence d))
    (concat results) detections.
Proof.
  intros E Hd. rewrite (detect_objects_results image results E) in Hd.
  assert (Hall : Forall (named names) (concat results)).
  { apply Forall_forall. intros b Hb.
    destruct (names !! class_id b) as [name|] eqn:Hn; [by exists name|].
    exfalso. apply list_elem_of_split in Hb as (l1 & l2 & Hsplit).
    assert (Hex : exists before b' after,
      concat results = before ++ b' :: after
      /\ Forall (named names) before /\ names !! class_id b' = None).
    { clear Hd. rewrite Hsplit. clear Hsplit.
      induction l1 as [|x l1 IH].
      - exists [], b, l2. auto.
      - destruct (names !! class_id x) as [nx|] eqn:Hx.
        + destruct IH as (before & b' & after & Eq & Hbf & Hb').
          exists (x :: before), b', after. cbn. rewrite Eq.
          split; [reflexivity|]. split; [|exact Hb'].
          constructor; [by exists nx | exact Hbf].
        + exists [], x, (l1 ++ b :: l2). auto. }
    destruct Hex as (before & b' & after & Eq & Hbf & Hb').
    rewrite Eq, add_detections_unnamed in Hd by done. discriminate. }
  rewrite add_detections_named in Hd by done. inversion Hd; subst. cbn [app].
  apply Forall2_fmap_r, Forall_Forall2_diag.
  eapply Forall_impl; [exact Hall|]. intros b Hb.
  split; [by apply report_located | apply round2_hundredths].
Qed.

(** X14. The answers of [POST /detect] with a [YOLODetector]. Without a
    detector the answer is 503. An image that the codec or Pillow refuses
    gives 400; a failure of the network or a class without a name gives
    500; otherwise the detections are returned with the width and the
    height of the decoded image. *)
Theorem detect_endpoint_answers (image_base64 payload : string) :
  detector_strip image_base64 = Ok payload ->
  Detector.detect_endpoint None image_base64
  = Detector.HTTPException 503 Detector.NotInitialized
  /\ (b64decode payload = None ->
      Detector.detect_endpoint
        (Some (Detector.process_base64_image open_rgb b64decode model names threshold))
        image_base64
      = Detector.HTTPException 400
          (Detector.InvalidImageData (Failed StageDetector Base64Error)))
  /\ (forall image_bytes,
        b64decode payload = Some image_bytes ->
        open_rgb image_bytes = None ->
        Detector.detect_endpoint
          (Some (Detector.process_base64_image open_rgb b64decode model names threshold))
          image_base64
        = Detector.HTTPException 400
            (Detector.InvalidImageData (Failed StageDetector ImagingError)))
  /\ (forall image_bytes image height width channels,
        b64decode payload = Some image_bytes ->
        open_rgb image_bytes = Some image ->
        shape image = [height; width; channels] ->
        Detector.detect_endpoint
          (Some (Detector.process_base64_image open_rgb b64decode model names threshold))
          image_base64
        = match model image threshold with
          | None => Detector.HTTPException 500
                      (Detector.DetectionFailed Detector.ModelError)
          | Some results =>
              match for_each_or (Detector.add_detection names) (concat results) [] with
              | inr detections =>
                  Detector.Returned (Detector.Response detections width height)
              | inl e => Detector.HTTPException 500 (Detector.DetectionFailed e)
              end
          end).
Proof.
  intros Hp. split; [reflexivity|].
  unfold Detector.detect_endpoint, Detector.process_base64_image, decode_base64_image.
  rewrite Hp. cbn [mbind result_bind]. split; [|split].
  - intros ->. reflexivity.
  - intros image_bytes -> Ho. cbn [or_raise mbind result_bind]. by rewrite Ho.
  - intros image_bytes image height width channels -> Ho Hs.
    cbn [or_raise mbind result_bind]. rewrite Ho. cbn [or_raise mbind result_bind].
    rewrite Hs. cbn [try_except].
    destruct (model image threshold) as [results|] eqn:Em.
    + rewrite (detect_objects_results image results Em).
      by destruct (for_each_or _ _ _).
    + unfold Detector.detect_objects. by rewrite Em.
Qed.

End YOLO.

Section DualFacts.

Variable open_rgb : list Byte.byte -> option (ndarray Z).
Variable b64decode : string -> option (list Byte.byte).
Variable coco_model custom_model : ndarray Z -> Q -> option (list (list Detector.box)).
Variable coco_names custom_names : gmap Z string.
Variable confidence : Q.

Lemma report_unrounded_located (names : gmap Z string) (b : Detector.box) :
  named names b ->
  located names b (report_unrounded names b)
  /\ Detector.confidence (report_unrounded names b) = Detector.conf b.
Proof.
  intros [name Hn]. split; [|reflexivity]. unfold located, report_unrounded.
  cbn [Detector.class Detector.x1 Detector.y1 Detector.x2 Detector.y2].
  rewrite Hn. cbn [default].
  split; [reflexivity|]. split; [apply Qint_truncates|].
  split; [apply Qint_truncates|]. split; apply Qint_truncates.
Qed.

Lemma reports_unrounded_located (names : gmap Z string) (boxes : list Detector.box) :
  Forall (named names) boxes ->
  Forall2 (fun b d => located names b d /\ Detector.confidence d = Detector.conf b)
    boxes (report_unrounded names <$> boxes).
Proof.
  intros Hall. apply Forall2_fmap_r, Forall_Forall2_diag.
  eapply Forall_impl; [exact Hall|]. intros b Hb. by apply report_unrounded_located.
Qed.

(** X15. [DualYOLODetector.detect_objects] puts the detections of the COCO
    network first and those of the custom network after them, one for each
    box, merging and dropping nothing. Each names the class of its box in
    the names of its own network and has the confidence of the box as it
    is, not rounded. What a [YOLODetector] with the COCO network returns
    for the same image is the first part with the confidences rounded to
    hundredths. *)
Theorem dual_detect_objects_concatenates
  (image : ndarray Z) (coco_results custom_results : list (list Detector.box)) :
  coco_model image confidence = Some coco_results ->
  custom_model image confidence = Some custom_results ->
  Forall (named coco_names) (concat coco_results) ->
  Forall (named custom_names) (concat custom_results) ->
  exists coco_detections custom_detections,
    Dual.detect_objects coco_model custom_model coco_names custom_names confidence image
    = inr (coco_detections ++ custom_detections)
    /\ Forall2
         (fun b d => located coco_names b d /\ Detector.confidence d = Detector.conf b)
         (concat coco_results) coco_detections
    /\ Forall2
         (fun b d => located custom_names b d /\ Detector.confidence d = Detector.conf b)
         (concat custom_results) custom_detections
    /\ Detector.detect_objects coco_model coco_names confidence image
       = inr (rounded <$> coco_detections).
Proof.
  intros Ec Ek Hc Hk.
  exists (report_unrounded coco_names <$> concat coco_results),
         (report_unrounded custom_names <$> concat custom_results).
  split; [|split; [|split]].
  - unfold Dual.detect_objects. rewrite Ec, for_each_or_concat.
    rewrite dual_add_detections_named by done. cbn [app].
    rewrite Ek, for_each_or_concat. by rewrite dual_add_detections_named.
  - by apply reports_unrounded_located.
  - by apply reports_unrounded_located.
  - unfold Detector.detect_objects. rewrite Ec, for_each_or_concat.
    rewrite add_detections_named by done. cbn [app].
    by rewrite <- list_fmap_compose.
Qed.

(** X16. The two decoders. [YOLODetector] reads the image that
    [DualYOLODetector] reads from the stripped string, so the two agree on
    a string without a comma; the dual detector strips nothing, and hands a
    string with a data-URI prefix to the codec whole. *)
Theorem decoders_differ_by_stripping (s payload : string) :
  detector_strip s = Ok payload ->
  decode_base64_image open_rgb b64decode s
  = wrapped (Dual.decode_base64_image open_rgb b64decode payload)
  /\ (contains comma s = false ->
      decode_base64_image open_rgb b64decode s
      = wrapped (Dual.decode_base64_image open_rgb b64decode s))
  /\ (contains comma s = true ->
      forall image_data,
        b64decode s = Some image_data ->
        Dual.decode_base64_image open_rgb b64decode s
        = match open_rgb image_data with
          | Some image => inr image
          | None => inl Dual.ImageFailure
          end).
Proof.
  intros Hp.
  assert (E : decode_base64_image open_rgb b64decode s
              = wrapped (Dual.decode_base64_image open_rgb b64decode payload)).
  { unfold decode_base64_image, Dual.decode_base64_image, wrapped. rewrite Hp.
    cbn [mbind result_bind]. destruct (b64decode payload) as [bs|]; [|reflexivity].
    cbn [or_raise mbind result_bind]. destruct (open_rgb bs) as [image|]; [|reflexivity].
    cbn [or_raise mbind result_bind].
    by destruct (shape image) as [|h [|w [|c [|]]]]. }
  split; [exact E|]. split.
  - intros Hc. rewrite E. unfold detector_strip in Hp. rewrite Hc in Hp.
    by inversion Hp.
  - intros _ image_data Hd. unfold Dual.decode_base64_image. by rewrite Hd.
Qed.

End DualFacts.

Lemma detections_accurate_witness :
  Forall2
    (fun b d =>
       located sample_names b d /\ hundredths (Detector.conf b) (Detector.confidence d))
    (concat sample_results)
    [Detector.Detection "person" (88 # 100) (-3) 20 110 220;
     Detector.Detection "chair" (12 # 100) 5 6 77 80].
Proof.
  apply (detections_accurate (fixed_results sample_results) sample_names (2 # 5)
           (NdArray [1; 1; 3] [0; 0; 0]%Z) sample_results).
  - reflexivity.
  - vm_compute. reflexivity.
Defined.

Lemma detect_endpoint_answers_witness :
  detector_strip "data:image/jpeg;base64,/9j/4AAQ" = Ok "/9j/4AAQ"%string
  /\ Detector.detect_endpoint
       (Some (Detector.process_base64_image open_raw_rgb
                (fun s => Some (list_byte_of_string s))
                (fixed_results sample_results) sample_names (2 # 5)))
       "data:image/jpeg;base64,/9j/4AAQ"
     = Detector.Returned
         (Detector.Response
            [Detector.Detection "person" (88 # 100) (-3) 20 110 220;
             Detector.Detection "chair" (12 # 100) 5 6 77 80] 8 1).
Proof.
  split; [reflexivity|].
  destruct (detect_endpoint_answers open_raw_rgb
              (fun s => Some (list_byte_of_string s))
              (fixed_results sample_results) sample_names (2 # 5)
              "data:image/jpeg;base64,/9j/4AAQ" "/9j/4AAQ" eq_refl)
    as (_ & _ & _ & H).
  rewrite (H (list_byte_of_string "/9j/4AAQ")
             (NdArray [1; 8; 3]
                (concat ((fun b => replicate 3 (Z.of_N (Byte.to_N b)))
                         <$> list_byte_of_string "/9j/4AAQ")))
             1 8 3 eq_refl eq_refl eq_refl).
  vm_compute. reflexivity.
Defined.

Lemma dual_detect_objects_concatenates_witness :
  exists coco_detections custom_detections,
    Dual.detect_objects (fixed_results sample_results)
      (fixed_results sample_custom_results) sample_names sample_custom_names
      (2 # 5) (NdArray [1; 1; 3] [0; 0; 0]%Z)
    = inr (coco_detections ++ custom_detections)
    /\ length coco_detections = 2 /\ length custom_detections = 1.
Proof.
  destruct (dual_detect_objects_concatenates
              (fixed_results sample_results) (fixed_results sample_custom_results)
              sample_names sample_custom_names (2 # 5)
              (NdArray [1; 1; 3] [0; 0; 0]%Z) sample_results sample_custom_results
              eq_refl eq_refl)
    as (cd & kd & E & Hc & Hk & _).
  - vm_compute. repeat constructor; by eexists.
  - vm_compute. repeat constructor; by eexists.
  - exists cd, kd. split; [exact E|].
    apply Forall2_length in Hc, Hk. split; [by rewrite <- Hc | by rewrite <- Hk].
Defined.

Lemma decoders_differ_by_stripping_witness :
  detector_strip "data:image/jpeg;base64,/9j/4AAQ" = Ok "/9j/4AAQ"%string
  /\ decode_base64_image open_raw_rgb (fun s => Some (list_byte_of_string s))
       "data:image/jpeg;base64,/9j/4AAQ"
     = wrapped (Dual.decode_base64_image open_raw_rgb
                  (fun s => Some (list_byte_of_string s)) "/9j/4AAQ").
Proof.
  split; [reflexivity|].
  exact (proj1 (decoders_differ_by_stripping open_raw_rgb
                  (fun s => Some (list_byte_of_string s))
                  "data:image/jpeg;base64,/9j/4AAQ" "/9j/4AAQ" eq_refl)).
Defined.

(** The detector on an example: one detection for each box, and a box of a
    class without a name fails the whole call. *)
Example detect_objects_example :
  Detector.detect_objects (fixed_results sample_results) sample_names (2 # 5)
    (NdArray [1; 1; 3] [0; 0; 0]%Z)
  = inr [Detector.Detection "person" (88 # 100) (-3) 20 110 220;
         Detector.Detection "chair" (12 # 100) 5 6 77 80]
  /\ Detector.detect_objects (fixed_results sample_results) sample_custom_names (2 # 5)
       (NdArray [1; 1; 3] [0; 0; 0]%Z)
     = inl (Detector.RuntimeError (Detector.KeyError 56)).
Proof. split; vm_compute; reflexivity. Qed.

(** ** The endpoints of the sketch service *)

Lemma try_except_Raise {A} (st : stage) (body : result A) (e : exn) :
  try_except st body = Raise e -> exists cause, e = Failed st cause.
Proof. destruct body as [a|c]; [discriminate|]. intros [= <-]. by exists c. Qed.

Section EndpointFacts.

Variable open_gray : list Byte.byte -> option (ndarray Z).
Variable resize28 : ndarray Z -> option (ndarray Z).
Variable b64decode : string -> option (list Byte.byte).
Variable model : ndarray Q -> list Q.

Lemma predictions_from_file_rank (image_bytes : list Byte.byte) (k : Z)
  (processed : ndarray Q) :
  preprocess_image_from_bytes open_gray resize28 image_bytes = Ok processed ->
  predictions_from_file open_gray resize28 model image_bytes k
  = rank (model processed) (Some k).
Proof.
  intros E. unfold predictions_from_file. rewrite E. cbn [mbind result_bind].
  apply predict_rank. by apply (bytes_shape open_gray resize28 image_bytes).
Qed.

Lemma predictions_from_base64_rank (request : PredictionRequest)
  (processed : ndarray Q) :
  preprocess_image_from_base64 open_gray resize28 b64decode (image_base64 request)
  = Ok processed ->
  predictions_from_base64 open_gray resize28 b64decode model request
  = rank (model processed) (top_k request).
Proof.
  intros E. unfold predictions_from_base64. rewrite E. cbn [mbind result_bind].
  apply predict_rank.
  by apply (base64_shape open_gray resize28 b64decode (image_base64 request)).
Qed.

(** X17. The two prediction endpoints never meet the shape check of
    [predict]: what they hand to it always has the shape (1, 28, 28, 1), so
    their predictions are the ranking of the network's output for the
    preprocessed image, and the only failures are those of the
    preprocessing and the index error of a network with more outputs than
    class names. With a network of at most 49 outputs, an upload that
    Pillow opens gets [min(top_k, n)] predictions for every [top_k >= 0]. *)
Theorem endpoint_predictions :
  decoder_contract open_gray ->
  resampler_contract resize28 ->
  (forall image_bytes k,
     open_gray image_bytes = None ->
     predictions_from_file open_gray resize28 model image_bytes k
     = Raise (Failed StageBytes ImagingError))
  /\ (forall image_bytes image k,
        open_gray image_bytes = Some image ->
        exists processed,
          preprocess_image_from_bytes open_gray resize28 image_bytes = Ok processed
          /\ predictions_from_file open_gray resize28 model image_bytes k
             = rank (model processed) (Some k)
          /\ ((0 <= k)%Z -> length (model processed) <= 49 ->
              exists ranked,
                predictions_from_file open_gray resize28 model image_bytes k
                = Ok ranked
                /\ length ranked = min (Z.to_nat k) (length (model processed))))
  /\ (forall request,
        match
          preprocess_image_from_base64 open_gray resize28 b64decode
            (image_base64 request)
        with
        | Ok processed =>
            predictions_from_base64 open_gray resize28 b64decode model request
            = rank (model processed) (top_k request)
        | Raise e =>
            predictions_from_base64 open_gray resize28 b64decode model request
            = Raise e
        end)
  /\ (forall image_bytes k e,
        predictions_from_file open_gray resize28 model image_bytes k = Raise e ->
        e = IndexOutOfBounds \/ exists cause, e = Failed StageBytes cause)
  /\ (forall request e,
        predictions_from_base64 open_gray resize28 b64decode model request = Raise e ->
        e = IndexOutOfBounds \/ exists cause, e = Failed StageBase64 cause).
Proof.
  intros Hd Hr. split; [|split; [|split; [|split]]].
  - intros image_bytes k Ho. unfold predictions_from_file, preprocess_image_from_bytes.
    by rewrite Ho.
  - intros image_bytes image k Ho.
    destruct (bytes_total open_gray resize28 Hd Hr image_bytes image Ho)
      as [processed E].
    exists processed. split; [exact E|].
    rewrite (predictions_from_file_rank image_bytes k processed E).
    split; [reflexivity|]. intros Hk Hn.
    rewrite rank_take by exact Hn. eexists. split; [reflexivity|].
    rewrite length_fmap, length_take, ranking_length. cbn [slice_length].
    destruct (0 <=? k)%Z eqn:Ek; [lia|]. apply Z.leb_gt in Ek. lia.
  - intros request.
    destruct (preprocess_image_from_base64 _ _ _ _) as [processed|e] eqn:E.
    + by apply predictions_from_base64_rank.
    + unfold predictions_from_base64. by rewrite E.
  - intros image_bytes k e.
    destruct (preprocess_image_from_bytes open_gray resize28 image_bytes)
      as [processed|c] eqn:E.
    + rewrite (predictions_from_file_rank image_bytes k processed E).
      intros Hrk. left. by apply rank_error in Hrk.
    + unfold predictions_from_file. rewrite E. cbn [mbind result_bind].
      intros [= <-]. right. unfold preprocess_image_from_bytes in E.
      by apply try_except_Raise in E.
  - intros request e.
    destruct (preprocess_image_from_base64 open_gray resize28 b64decode
                (image_base64 request)) as [processed|c] eqn:E.
    + rewrite (predictions_from_base64_rank request processed E).
      intros Hrk. left. by apply rank_error in Hrk.
    + unfold predictions_from_base64. rewrite E. cbn [mbind result_bind].
      intros [= <-]. right. unfold preprocess_image_from_base64 in E.
      by apply try_except_Raise in E.
Qed.

End EndpointFacts.

Lemma endpoint_predictions_witness :
  decoder_contract open_raw
  /\ resampler_contract resize_nearest
  /\ predictions_from_file open_raw resize_nearest
       (fun _ => [1 # 10; 7 # 10; 2 # 10]%Q) [] 3
     = Raise (Failed StageBytes ImagingError).
Proof.
  split; [exact open_raw_contract|]. split; [exact resize_nearest_contract|].
  exact (proj1 (endpoint_predictions open_raw resize_nearest
                  (fun s => Some (list_byte_of_string s))
                  (fun _ => [1 # 10; 7 # 10; 2 # 10]%Q)
                  open_raw_contract resize_nearest_contract) [] 3%Z eq_refl).
Defined.

(** An upload of three bytes, classified by a network of three outputs. *)
Example predictions_from_file_example :
  predictions_from_file open_raw resize_nearest
    (fun _ => [1 # 10; 7 # 10; 2 # 10]%Q) (list_byte_of_string "abc") 2
  = Ok [Prediction "dog" (7 # 10) "70.00%"; Prediction "bird" (2 # 10) "20.00%"].
Proof. vm_compute. reflexivity. Qed.

(** ** The request logs *)

Lemma endswith_refl (s : string) : endswith s s = true.
Proof. destruct s; cbn [endswith]; by rewrite String.eqb_refl. Qed.

Lemma endswith_app (suffix s : string) : endswith suffix (s ++ suffix)%string = true.
Proof.
  induction s as [|a s IH]; [apply endswith_refl|].
  change (String a s ++ suffix)%string with (String a (s ++ suffix))%string.
  cbn [endswith]. rewrite IH. apply orb_true_r.
Qed.

Lemma string_app_assoc (a b c : string) :
  (a ++ (b ++ c))%string = ((a ++ b) ++ c)%string.
Proof.
  induction a as [|x a IH]; [reflexivity|].
  change (String x a ++ (b ++ c))%string with (String x (a ++ (b ++ c)))%string.
  change ((String x a ++ b) ++ c)%string with (String x ((a ++ b) ++ c))%string.
  by rewrite IH.
Qed.

Lemma startswith_app (p s : string) : startswith p (p ++ s)%string = true.
Proof.
  unfold startswith. induction p as [|a p IH]; [by destruct s|].
  change (String a p ++ s)%string with (String a (p ++ s))%string.
  cbn [String.prefix]. by destruct (ascii_dec a a).
Qed.

Lemma glob_yields_both_logs (request_id : string) :
  Logs.glob_request_json (Logs.json_log_file request_id) = true
  /\ Logs.glob_request_json (Logs.error_log_file request_id) = true.
Proof.
  unfold Logs.glob_request_json, Logs.json_log_file, Logs.error_log_file. split.
  - apply andb_true_iff. split; [apply startswith_app|].
    rewrite string_app_assoc. apply endswith_app.
  - apply andb_true_iff. split; [apply startswith_app|].
    change ("request_" ++ request_id ++ "_ERROR.json")%string
      with ("request_" ++ request_id ++ "_ERROR" ++ ".json")%string.
    rewrite !string_app_assoc. apply endswith_app.
Qed.

Lemma sum_counts_insert (m : gmap string nat) (c : string) (n : nat) :
  m !! c = None -> sum_counts (<[c := n]> m) = n + sum_counts m.
Proof.
  intros Hc. unfold sum_counts. apply (map_fold_insert_L (fun _ n acc => n + acc)).
  - intros. lia.
  - exact Hc.
Qed.

Lemma sum_counts_incr (m : gmap string nat) (c : string) :
  sum_counts (<[c := default 0 (m !! c) + 1]> m) = sum_counts m + 1.
Proof.
  destruct (m !! c) as [n|] eqn:Hc; cbn [default].
  - rewrite <- (insert_delete_id m c n Hc).
    rewrite insert_insert_eq.
    rewrite !sum_counts_insert by apply lookup_delete_eq.
    unfold id. lia.
  - rewrite sum_counts_insert by exact Hc. lia.
Qed.

Lemma count_top_class_answered (m : gmap string nat) (data : Logs.log) :
  answered data ->
  Logs.count_top_class m data
  = inr (match top_prediction data with
         | Some c => <[c := default 0 (m !! c) + 1]> m
         | None => m
         end).
Proof.
  intros [results E]. unfold Logs.count_top_class, top_prediction. rewrite E.
  by destruct results.
Qed.

Lemma occurrences_cons (c : string) (data : Logs.log) (logs : list Logs.log) :
  occurrences c (data :: logs)
  = (if decide (top_prediction data = Some c) then 1 else 0) + occurrences c logs.
Proof.
  unfold occurrences. rewrite filter_cons. by destruct (decide _).
Qed.

Lemma count_loop (logs : list Logs.log) (m : gmap string nat) :
  Forall answered logs ->
  exists m',
    for_each_or Logs.count_top_class logs m = inr m'
    /\ (forall c, m' !! c = match occurrences c logs with
                           | 0 => m !! c
                           | S k => Some (default 0 (m !! c) + S k)
                           end)
    /\ sum_counts m'
       = sum_counts m + length (filter (fun data => is_Some (top_prediction data)) logs).
Proof.
  intros Hall. revert m. induction Hall as [|data logs Hd _ IH]; intros m.
  - exists m. split; [reflexivity|]. split; [by intros c|]. cbn. lia.
  - cbn [for_each_or]. rewrite (count_top_class_answered m data Hd).
    destruct (top_prediction data) as [c0|] eqn:Et.
    + destruct (IH (<[c0 := default 0 (m !! c0) + 1]> m)) as (m' & E & Hl & Hs).
      exists m'. split; [exact E|]. split.
      * intros c. rewrite Hl, occurrences_cons, Et.
        destruct (decide (Some c0 = Some c)) as [[= ->]|Hne].
        -- rewrite lookup_insert_eq. cbn [default].
           destruct (occurrences c logs); cbn; f_equal; lia.
        -- rewrite lookup_insert_ne by congruence. by destruct (occurrences c logs).
      * rewrite Hs, sum_counts_incr, filter_cons, Et.
        destruct (decide (is_Some (Some c0))) as [_|Hno]; [cbn; lia|].
        by destruct Hno.
    + destruct (IH m) as (m' & E & Hl & Hs).
      exists m'. split; [exact E|]. split.
      * intros c. rewrite Hl, occurrences_cons, Et.
        by destruct (decide (None = Some c)).
      * rewrite Hs, filter_cons, Et.
        destruct (decide (is_Some (@None string))) as [Hyes|_]; [|reflexivity].
        by destruct Hyes.
Qed.

Lemma show_statistics_loop (directory : list Logs.file) :
  Logs.show_statistics directory
  = match logs_of directory with
    | [] => inr Logs.NoRequests
    | _ =>
        match for_each_or Logs.count_top_class (logs_of directory) ∅ with
        | inr class_counts =>
            inr (Logs.Distribution (length (logs_of directory)) class_counts)
        | inl e => inl e
        end
    end.
Proof.
  unfold Logs.show_statistics, logs_of.
  destruct (filter _ directory) as [|f fs]; [reflexivity|].
  by rewrite length_fmap.
Qed.

(** X18. The statistics of answered requests. When every log that the
    pattern yields has a list of predictions, [show_statistics] counts for
    each class the logs whose first prediction it is, and lists exactly the
    classes that are first somewhere. A log with an empty list of
    predictions counts as a request but for no class, so the counts add up
    to the number of logs with a prediction and the shares to at most
    100 %. Files that the pattern does not yield are not read. *)
Theorem show_statistics_counts (directory : list Logs.file) :
  Forall answered (logs_of directory) ->
  logs_of directory <> [] ->
  exists class_counts,
    Logs.show_statistics directory
    = inr (Logs.Distribution (length (logs_of directory)) class_counts)
    /\ (forall c, class_counts !! c = match occurrences c (logs_of directory) with
                                     | 0 => None
                                     | n => Some n
                                     end)
    /\ sum_counts class_counts
       = length (filter (fun data => is_Some (top_prediction data)) (logs_of directory))
    /\ sum_counts class_counts <= length (logs_of directory).
Proof.
  intros Hall Hne. rewrite show_statistics_loop.
  destruct (count_loop (logs_of directory) ∅ Hall) as (m' & E & Hl & Hs).
  exists m'. rewrite E. split; [by destruct (logs_of directory)|].
  assert (Hsum : sum_counts m'
                 = length (filter (fun data => is_Some (top_prediction data))
                             (logs_of directory))).
  { rewrite Hs. unfold sum_counts at 1. by rewrite map_fold_empty. }
  split; [|split; [exact Hsum|]].
  - intros c. rewrite Hl, lookup_empty. cbn [default].
    by destruct (occurrences c (logs_of directory)).
  - rewrite Hsum. apply length_filter.
Qed.

Lemma count_top_class_error
  (m : gmap string nat) (request_id timestamp error error_type : string)
  (base64_length : nat) :
  Logs.count_top_class m
    (Logs.error_log request_id timestamp error error_type base64_length)
  = inl (Logs.KeyError "predictions").
Proof. reflexivity. Qed.

Lemma request_log_answered
  (request_id timestamp client_ip : string) (client_port : Z) (user_agent : string)
  (base64_length : nat) (image_file : option string) (top_k : option Z)
  (predictions : list prediction) :
  answered (Logs.request_log request_id timestamp client_ip client_port user_agent
              base64_length image_file top_k predictions).
Proof. exists predictions. reflexivity. Qed.

Lemma count_loop_error (logs : list Logs.log) (m : gmap string nat)
  (request_id timestamp error error_type : string) (base64_length : nat) :
  Forall written logs ->
  Logs.error_log request_id timestamp error error_type base64_length ∈ logs ->
  for_each_or Logs.count_top_class logs m = inl (Logs.KeyError "predictions").
Proof.
  intros Hall Hin. revert m.
  induction Hall as [|data logs Hd _ IH]; intros m; [by apply elem_of_nil in Hin|].
  cbn [for_each_or].
  destruct Hd as [(i & t & ip & port & ua & n & file & k & ps & ->)
                 |(i & t & e & ty & n & ->)].
  - rewrite count_top_class_answered by apply request_log_answered.
    apply IH. apply elem_of_cons in Hin as [Heq|Hin]; [|exact Hin].
    exfalso.
    assert (H : Logs.error_log request_id timestamp error error_type base64_length
                !! "predictions"%string
                = Logs.request_log i t ip port ua n file k ps !! "predictions"%string)
      by (by rewrite Heq).
    discriminate H.
  - by rewrite count_top_class_error.
Qed.

(** X19. One failed request breaks the statistics. The pattern
    [request_*.json] yields the error log [request_<id>_ERROR.json] of a
    failed request as well as the log of an answered one, and an error log
    has no ['predictions']: with an error log among logs that the service
    wrote, [show_statistics] raises [KeyError: 'predictions'] and shows no
    distribution. *)
Theorem show_statistics_fails_after_error
  (directory : list Logs.file) (mtime : Q)
  (request_id timestamp error error_type : string) (base64_length : nat) :
  Logs.File (Logs.error_log_file request_id) mtime
    (Logs.error_log request_id timestamp error error_type base64_length) ∈ directory ->
  Forall written (logs_of directory) ->
  Logs.glob_request_json (Logs.json_log_file request_id) = true
  /\ Logs.glob_request_json (Logs.error_log_file request_id) = true
  /\ Logs.show_statistics directory = inl (Logs.KeyError "predictions").
Proof.
  intros Hin Hall.
  destruct (glob_yields_both_logs request_id) as [Hj He].
  split; [exact Hj|]. split; [exact He|].
  assert (Hlog : Logs.error_log request_id timestamp error error_type base64_length
                 ∈ logs_of directory).
  { unfold logs_of. apply list_elem_of_fmap. eexists. split; [|
      apply list_elem_of_filter; split; [|exact Hin]].
    - reflexivity.
    - cbn [Logs.name]. rewrite He. exact I. }
  rewrite show_statistics_loop.
  rewrite (count_loop_error _ ∅ _ _ _ _ _ Hall Hlog).
  destruct (logs_of directory); [by apply elem_of_nil in Hlog | reflexivity].
Qed.

Lemma request_log_written
  (request_id timestamp client_ip : string) (client_port : Z) (user_agent : string)
  (base64_length : nat) (image_file : option string) (top_k : option Z)
  (predictions : list prediction) :
  written (Logs.request_log request_id timestamp client_ip client_port user_agent
             base64_length image_file top_k predictions).
Proof.
  left. by exists request_id, timestamp, client_ip, client_port, user_agent,
                  base64_length, image_file, top_k, predictions.
Qed.

Lemma error_log_written
  (request_id timestamp error error_type : string) (base64_length : nat) :
  written (Logs.error_log request_id timestamp error error_type base64_length).
Proof. right. by exists request_id, timestamp, error, error_type, base64_length. Qed.

Lemma Forall_logs_of (P : Logs.log -> Prop) (directory : list Logs.file) :
  Forall (fun f => Logs.glob_request_json (Logs.name f) = true -> P (Logs.json f))
    directory ->
  Forall P (logs_of directory).
Proof.
  intros H. unfold logs_of. apply Forall_fmap, Forall_forall. intros f Hf.
  apply list_elem_of_filter in Hf as [Hg Hf]. rewrite Forall_forall in H.
  apply (H f Hf). by apply Is_true_eq_true.
Qed.

Lemma show_statistics_counts_witness :
  exists class_counts,
    Logs.show_statistics sample_directory = inr (Logs.Distribution 3 class_counts)
    /\ class_counts !! "cat"%string = Some 2
    /\ class_counts !! "dog"%string = None
    /\ sum_counts class_counts = 2.
Proof.
  assert (Hlen : length (logs_of sample_directory) = 3) by (vm_compute; reflexivity).
  assert (Hcat : occurrences "cat" (logs_of sample_directory) = 2)
    by (vm_compute; reflexivity).
  assert (Hdog : occurrences "dog" (logs_of sample_directory) = 0)
    by (vm_compute; reflexivity).
  assert (Htop : length (filter (fun data => is_Some (top_prediction data))
                           (logs_of sample_directory)) = 2)
    by (vm_compute; reflexivity).
  destruct (show_statistics_counts sample_directory) as (m & E & Hl & Hs & _).
  - apply Forall_logs_of. unfold sample_directory.
    repeat (apply Forall_cons; split;
            [first [intros H; vm_compute in H; discriminate H
                   |intros _; apply request_log_answered]|]).
    constructor.
  - intros Hnil. rewrite Hnil in Hlen. discriminate Hlen.
  - exists m. rewrite Hlen in E. split; [exact E|].
    pose proof (Hl "cat"%string) as Hc. rewrite Hcat in Hc.
    pose proof (Hl "dog"%string) as Hd. rewrite Hdog in Hd.
    rewrite Htop in Hs. split; [exact Hc|]. split; [exact Hd | exact Hs].
Defined.

Lemma show_statistics_fails_after_error_witness :
  Logs.show_statistics
    (sample_directory ++ [failed_file])
  = inl (Logs.KeyError "predictions").
Proof.
  refine (proj2 (proj2 (show_statistics_fails_after_error
            (sample_directory ++ [failed_file]) 1764560160
            "20251201_033600_000002" "2025-12-01T03:36:00.010000"
            "Failed to process base64 image: Incorrect padding" "ValueError" 7 _ _))).
  - apply elem_of_app. right. apply list_elem_of_singleton. reflexivity.
  - apply Forall_logs_of. apply Forall_app. split.
    + unfold sample_directory.
      repeat (apply Forall_cons; split;
              [first [intros H; vm_compute in H; discriminate H
                     |intros _; apply request_log_written]|]).
      constructor.
    + apply Forall_cons; split; [intros _; apply error_log_written | constructor].
Defined.

(** *** The list of recent requests *)

Lemma insert_recent_perm (f : Logs.file) (l : list Logs.file) :
  Logs.insert_recent f l ≡ₚ f :: l.
Proof.
  induction l as [|g l IH]; [reflexivity|]. cbn.
  destruct (Qle_bool _ _); [|reflexivity].
  rewrite IH. apply Permutation_swap.
Qed.

Lemma insert_recent_sorted (f : Logs.file) (l : list Logs.file) :
  StronglySorted as_recent_as l -> StronglySorted as_recent_as (Logs.insert_recent f l).
Proof.
  induction 1 as [|g l Hl IH Hg]; [repeat constructor|]. cbn.
  destruct (Qle_bool (Logs.st_mtime f) (Logs.st_mtime g)) eqn:Hle.
  - apply Qle_bool_iff in Hle. constructor; [exact IH|].
    rewrite insert_recent_perm. by constructor.
  - assert (Hgf : (Logs.st_mtime g < Logs.st_mtime f)%Q).
    { apply Qnot_le_lt. intros Hc. apply Qle_bool_iff in Hc. congruence. }
    constructor; [by constructor|].
    constructor; [by apply Qlt_le_weak|].
    eapply Forall_impl; [exact Hg|]. intros h Hh. unfold as_recent_as in *.
    apply Qlt_le_weak in Hgf. exact (Qle_trans _ _ _ Hh Hgf).
Qed.

Lemma sorted_recent_spec (l : list Logs.file) :
  StronglySorted as_recent_as (Logs.sorted_recent l) /\ Logs.sorted_recent l ≡ₚ l.
Proof.
  unfold Logs.sorted_recent.
  induction l as [|f l [Hs Hp]] using rev_ind; [split; [constructor|reflexivity]|].
  rewrite foldl_app. cbn [foldl]. split.
  - by apply insert_recent_sorted.
  - rewrite insert_recent_perm, Hp. by rewrite Permutation_cons_append.
Qed.

Lemma StronglySorted_take_drop {A} (R : relation A) (l : list A) (k : nat) (x y : A) :
  StronglySorted R l -> x ∈ take k l -> y ∈ drop k l -> R x y.
Proof.
  intros Hl Hx Hy.
  apply list_elem_of_lookup in Hx as [i Hi]. apply list_elem_of_lookup in Hy as [j Hj].
  pose proof (lookup_lt_Some _ _ _ Hi) as Hlt. rewrite length_take in Hlt.
  rewrite lookup_take_lt in Hi by lia. rewrite lookup_drop in Hj.
  apply (StronglySorted_lookup R l i (k + j) x y Hl); [lia|done..].
Qed.

Section ListRecentFacts.

Variable fromisoformat : string -> bool.

Lemma list_request_answered
  (request_id timestamp client_ip : string) (client_port : Z) (user_agent : string)
  (base64_length : nat) (image_file : option string) (top_k : option Z)
  (predictions : list prediction) :
  fromisoformat timestamp = true ->
  Logs.list_request fromisoformat
    (Logs.request_log request_id timestamp client_ip client_port user_agent
       base64_length image_file top_k predictions)
  = match predictions with
    | first :: _ => inr first
    | [] => inl Logs.IndexError
    end.
Proof.
  intros Ht. unfold Logs.list_request.
  change (Logs.getitem (Logs.request_log request_id timestamp client_ip client_port
                          user_agent base64_length image_file top_k predictions)
            "timestamp")
    with (@inr Logs.raised _ (Logs.Text timestamp)).
  cbn [Logs.and_then]. rewrite Ht.
  by destruct predictions.
Qed.

Lemma list_request_error
  (request_id timestamp error error_type : string) (base64_length : nat) :
  fromisoformat timestamp = true ->
  Logs.list_request fromisoformat
    (Logs.error_log request_id timestamp error error_type base64_length)
  = inl (Logs.KeyError "client_ip").
Proof.
  intros Ht. unfold Logs.list_request.
  change (Logs.getitem (Logs.error_log request_id timestamp error error_type
                          base64_length) "timestamp")
    with (@inr Logs.raised _ (Logs.Text timestamp)).
  cbn [Logs.and_then]. by rewrite Ht.
Qed.

Lemma list_request_written (f : Logs.file) :
  written (Logs.json f) -> dated fromisoformat f ->
  Logs.list_request fromisoformat (Logs.json f)
  = match Logs.json f !! "predictions"%string with
    | Some (Logs.Predictions (first :: _)) => inr first
    | Some _ => inl Logs.IndexError
    | None => inl (Logs.KeyError "client_ip")
    end.
Proof.
  intros [(i & t & ip & port & ua & n & file & k & ps & E)
         |(i & t & e & ty & n & E)] Hd; rewrite E.
  - rewrite list_request_answered; [by destruct ps|].
    apply Hd. by rewrite E.
  - rewrite list_request_error; [reflexivity|].
    apply Hd. by rewrite E.
Qed.

Lemma list_loop (files : list Logs.file) (printed : list prediction) :
  Forall (fun f => written (Logs.json f)) files ->
  Forall (dated fromisoformat) files ->
  (Forall (fun f => is_Some (top_prediction (Logs.json f))) files ->
   exists tops_printed,
     for_each_or
       (fun printed json_file =>
          Logs.and_then (Logs.list_request fromisoformat (Logs.json json_file))
            (fun top => inr (printed ++ [top])))
       files printed
     = inr (printed ++ tops_printed)
     /\ Forall2 tops files tops_printed)
  /\ (forall before f after,
        files = before ++ f :: after ->
        Forall (fun f => is_Some (top_prediction (Logs.json f))) before ->
        top_prediction (Logs.json f) = None ->
        for_each_or
          (fun printed json_file =>
             Logs.and_then (Logs.list_request fromisoformat (Logs.json json_file))
               (fun top => inr (printed ++ [top])))
          files printed
        = match Logs.json f !! "predictions"%string with
          | Some _ => inl Logs.IndexError
          | None => inl (Logs.KeyError "client_ip")
          end).
Proof.
  intros Hw Hd. revert printed.
  induction Hw as [|g files Hg Hw IH]; intros printed.
  - split.
    + intros _. exists []. split; [by rewrite app_nil_r | constructor].
    + intros before f after E. by destruct before.
  - apply Forall_cons in Hd as [Hdg Hd]. specialize (IH Hd).
    cbn [for_each_or]. rewrite (list_request_written g Hg Hdg). split.
    + intros Hall. apply Forall_cons in Hall as [[c Hc] Hall].
      unfold top_prediction in Hc.
      destruct (Logs.json g !! "predictions"%string) as [[| | | |[|p ps]]|] eqn:Ep;
        try discriminate.
      cbn [Logs.and_then].
      destruct (proj1 (IH (printed ++ [p])) Hall) as (rest & E & Hrest).
      exists (p :: rest). split.
      * rewrite E. by rewrite <- app_assoc.
      * constructor; [by exists ps | exact Hrest].
    + intros before f after E Hbefore Hf.
      destruct before as [|b before]; cbn [app] in E.
      * inversion E; subst g files. unfold top_prediction in Hf.
        by destruct (Logs.json f !! "predictions"%string) as [[| | | |[|p ps]]|].
      * inversion E; subst b files.
        apply Forall_cons in Hbefore as [[c Hc] Hbefore].
        unfold top_prediction in Hc.
        destruct (Logs.json g !! "predictions"%string) as [[| | | |[|p ps]]|] eqn:Ep;
          try discriminate.
        cbn [Logs.and_then].
        by apply (proj2 (IH (printed ++ [p])) before f after).
Qed.

(** X20. What [list_recent_requests] does with the logs of the service.
    When every listed log has a first prediction, one top prediction is
    printed for each, in the order of the list. The first listed log
    without one stops the list with an exception: [IndexError] when it is
    the log of a request answered with no prediction ([top_k = 0]),
    [KeyError: 'client_ip'] when it is the error log of a failed request. *)
Theorem list_recent_requests_outcome (directory : list Logs.file) (limit : Z) :
  Forall (fun f => written (Logs.json f)) (listed directory limit) ->
  Forall (dated fromisoformat) (listed directory limit) ->
  (Forall (fun f => is_Some (top_prediction (Logs.json f))) (listed directory limit) ->
   exists printed,
     Logs.list_recent_requests fromisoformat directory limit = inr printed
     /\ Forall2 tops (listed directory limit) printed)
  /\ (forall before f after,
        listed directory limit = before ++ f :: after ->
        Forall (fun f => is_Some (top_prediction (Logs.json f))) before ->
        top_prediction (Logs.json f) = None ->
        Logs.list_recent_requests fromisoformat directory limit
        = match Logs.json f !! "predictions"%string with
          | Some _ => inl Logs.IndexError
          | None => inl (Logs.KeyError "client_ip")
          end).
Proof.
  intros Hw Hd.
  destruct (list_loop (listed directory limit) [] Hw Hd) as [Hok Hfail].
  split; [|exact Hfail].
  intros Hall. destruct (Hok Hall) as (printed & E & Hp). by exists printed.
Qed.

End ListRecentFacts.

(** X21. Which requests are listed: the logs that the pattern yields,
    newest first, cut to the first [limit]. Every log listed is at least as
    recent as every log left out, none is listed twice or made up, and for
    [limit >= 0] there are [min(limit, n)] of them; a negative [limit]
    leaves out the [|limit|] oldest instead. *)
Theorem recent_requests_listed (directory : list Logs.file) (limit : Z) :
  StronglySorted as_recent_as (listed directory limit)
  /\ (exists left_out,
        listed directory limit ++ left_out
        ≡ₚ filter (fun f => Is_true (Logs.glob_request_json (Logs.name f))) directory
        /\ forall f g, f ∈ listed directory limit -> g ∈ left_out -> as_recent_as f g)
  /\ length (listed directory limit)
     = slice_length (Some limit) (length (logs_of directory)).
Proof.
  unfold listed, logs_of.
  set (files := filter _ directory).
  destruct (sorted_recent_spec files) as [Hs Hp].
  rewrite slice_to_take.
  set (k := slice_length (Some limit) (length (Logs.sorted_recent files))).
  split; [|split].
  - rewrite <- (take_drop k (Logs.sorted_recent files)) in Hs.
    by apply StronglySorted_app_1_l in Hs.
  - exists (drop k (Logs.sorted_recent files)). split.
    + by rewrite take_drop.
    + intros f g. by apply StronglySorted_take_drop.
  - assert (Hlen : length (Logs.sorted_recent files) = length files)
      by (by apply Permutation_length).
    rewrite length_take, length_fmap. subst k. rewrite Hlen.
    cbn [slice_length]. destruct (0 <=? limit)%Z eqn:El; [lia|].
    apply Z.leb_gt in El. lia.
Qed.

Lemma list_recent_requests_outcome_witness :
  Logs.list_recent_requests (fun _ => true) (sample_directory ++ [failed_file]) 10
  = inl (Logs.KeyError "client_ip").
Proof.
  assert (Hl : listed (sample_directory ++ [failed_file]) 10
               = [] ++ failed_file ::
                 [Logs.File (Logs.json_log_file "20251201_033500_000001")
                    1764560100 empty_log;
                  Logs.File (Logs.json_log_file "20251201_033412_120004")
                    1764560052 cat_again_log;
                  Logs.File (Logs.json_log_file "20251201_033338_661741")
                    1764560018 cat_log])
    by (vm_compute; reflexivity).
  assert (Hw : Forall (fun f => written (Logs.json f))
                 (listed (sample_directory ++ [failed_file]) 10)).
  { rewrite Hl. cbn [app Logs.json].
    apply Forall_cons; split; [right; by do 5 eexists|].
    repeat (apply Forall_cons; split; [left; by do 9 eexists|]).
    constructor. }
  assert (Hd : Forall (dated (fun _ => true))
                 (listed (sample_directory ++ [failed_file]) 10)).
  { apply Forall_forall. intros f _ s _. reflexivity. }
  pose proof (proj2 (list_recent_requests_outcome (fun _ => true)
                   (sample_directory ++ [failed_file]) 10 Hw Hd)) as H.
  specialize (H [] failed_file _ Hl).
  specialize (H (Forall_nil_2 _)).
  assert (Ht : top_prediction (Logs.json failed_file) = None) by (vm_compute; reflexivity).
  specialize (H Ht).
  exact H.
Defined.

(** The list on the example logs. With [limit = 2] and with [limit = -2]
    the newest log listed is the one of the request answered with no
    prediction; without that log the two others are listed, newest
    first. *)
Example list_recent_requests_example :
  Logs.list_recent_requests (fun _ => true) sample_directory 2 = inl Logs.IndexError
  /\ Logs.list_recent_requests (fun _ => true) (reverse sample_directory) (-2)
     = inl Logs.IndexError
  /\ Logs.list_recent_requests (fun _ => true) (take 4 sample_directory) 10
     = inr [Prediction "cat" (6 # 10) "60.00%"; Prediction "cat" (7 # 10) "70.00%"].
Proof. repeat split; vm_compute; reflexivity. Qed.
